(** * TinyHAL audio HAL core ([audio_hw.c]): a shallow embedding

    The development follows the C file section by section: the integer
    types and errno values it uses, the device and stream structures, the
    external collaborators (configuration manager, tinyalsa, tinycompress,
    the rate converter, the clock) as an environment of oracles, and then
    the functions themselves, written in a small trace-and-failure monad.

    Conventions.
    - C integers are [Z]; every place where the C code can wrap around or
      truncate is written out with [wrap_u] / [wrap_s].
    - A pointer that is only tested against NULL or compared for identity
      is an [option] of an address ([Z]).
    - An external call appends an [event] to the trace (most recent event
      first) and takes its result from the environment, as a function of
      the trace so far.
    - A computation that would execute a C division by zero has no result
      ([None]); so has a loop that exhausts its fuel.
    - The pthread mutexes are not modelled: every function below is the
      sequential behaviour of its body. *)

From Stdlib Require Import Ascii String ZArith List Bool Lia.
Import ListNotations.
Local Open Scope string_scope.
Local Open Scope list_scope.
Local Open Scope Z_scope.

(** ** Machine integers *)

Inductive abi := ILP32 | LP64.

(** Width of [size_t], [ssize_t] and [long] on the two Android ABIs. *)
Definition size_bits (a : abi) : Z :=
  match a with ILP32 => 32 | LP64 => 64 end.

Definition wrap_u (bits x : Z) : Z := x mod 2 ^ bits.
Definition wrap_s (bits x : Z) : Z :=
  (x + 2 ^ (bits - 1)) mod 2 ^ bits - 2 ^ (bits - 1).

Definition to_u32 : Z -> Z := wrap_u 32.
Definition to_u64 : Z -> Z := wrap_u 64.
Definition to_int : Z -> Z := wrap_s 32.
Definition to_s64 : Z -> Z := wrap_s 64.
Definition to_size (a : abi) : Z -> Z := wrap_u (size_bits a).
Definition to_ssize (a : abi) : Z -> Z := wrap_s (size_bits a).
Definition to_long (a : abi) : Z -> Z := wrap_s (size_bits a).

Definition INT_MAX : Z := 2147483647.

(** errno values (Linux / bionic). *)
Definition EINVAL : Z := 22.
Definition ENOMEM : Z := 12.
Definition ENODEV : Z := 19.

(** Values of [system/audio.h] used by the file. *)
Definition AUDIO_SOURCE_VOICE_RECOGNITION : Z := 6.
Definition AUDIO_DEVICE_IN_BUILTIN_MIC : Z := 0x80000004.
Definition PCM_OUT : Z := 0.
Definition PCM_IN : Z := 0x10000000.
Definition PCM_MONOTONIC : Z := 0x8.

Definition OUT_PERIOD_SIZE_DEFAULT : Z := 256.
Definition OUT_PERIOD_COUNT_DEFAULT : Z := 4.
Definition OUT_CHANNEL_COUNT_DEFAULT : Z := 2.
Definition OUT_SAMPLE_RATE_DEFAULT : Z := 48000.
Definition IN_PERIOD_SIZE_DEFAULT : Z := 256.
Definition IN_PERIOD_COUNT_DEFAULT : Z := 4.
Definition IN_CHANNEL_COUNT_DEFAULT : Z := 1.
Definition IN_SAMPLE_RATE_DEFAULT : Z := 48000.
Definition IN_COMPRESS_BUFFER_SIZE_DEFAULT : Z := 1024.

Definition kVoiceTriggerStreamName : string := "voice trigger".
Definition kVoiceRecogStreamName : string := "voice recognition".

(** ** Data model *)

(** States for voice trigger / voice recognition state machine. *)
Inductive voice_state :=
| eVoiceNone
| eVoiceTriggerIdle
| eVoiceTriggerArmed
| eVoiceTriggerFired
| eVoiceRecogIdle
| eVoiceRecogArmed
| eVoiceRecogFired
| eVoiceRecogAudio
| eVoiceRecogReArm.

(** [struct hw_stream] is declared by the configuration manager
    ([audio_config.h]); these are the fields [audio_hw.c] reads, plus the
    address of the object. *)
Record hw_stream := mk_hw_stream {
  hw_addr : Z;
  card_number : Z;
  device_number : Z;
  rate : Z;
  period_count : Z;
  period_size : Z
}.

Record pcm_config := mk_pcm_config {
  cfg_channels : Z;
  cfg_rate : Z;
  cfg_period_size : Z;
  cfg_period_count : Z
}.

Record audio_config := mk_audio_config {
  ac_sample_rate : Z;
  ac_channel_mask : Z;
  ac_format : Z
}.

Record timespec := mk_timespec { tv_sec : Z; tv_nsec : Z }.

(** Address of a stream object. *)
Definition ptr := Z.

Record audio_device := mk_audio_device {
  disable_audio : bool;
  mic_mute : bool;
  active_voice_control : option ptr;
  voice_st : voice_state;
  voice_trig_mic : Z;
  global_stream : option hw_stream;
  (* union { voice_trig_stream; voice_recog_stream } : one slot *)
  voice_trig_stream : option hw_stream
}.

Definition set_active_voice_control (adev : audio_device) (p : option ptr) :=
  mk_audio_device (disable_audio adev) (mic_mute adev) p (voice_st adev)
    (voice_trig_mic adev) (global_stream adev) (voice_trig_stream adev).

Definition set_voice_st (adev : audio_device) (s : voice_state) :=
  mk_audio_device (disable_audio adev) (mic_mute adev)
    (active_voice_control adev) s
    (voice_trig_mic adev) (global_stream adev) (voice_trig_stream adev).

Definition set_voice_trig_stream (adev : audio_device) (h : option hw_stream) :=
  mk_audio_device (disable_audio adev) (mic_mute adev)
    (active_voice_control adev) (voice_st adev)
    (voice_trig_mic adev) (global_stream adev) h.

(** ** The environment *)

Inductive event :=
| EvGetNamedStream (name : string)
| EvGetStream (devices flags : Z) (config : audio_config)
| EvReleaseStream (hw : hw_stream)
| EvApplyRoute (hw : hw_stream) (devices : Z)
| EvPcmOpen (card device flags : Z) (config : pcm_config)
| EvPcmClose (pcm : option Z)
| EvPcmWrite (pcm : option Z) (count : Z)
| EvPcmRead (pcm : option Z) (count : Z)
| EvPcmGetHtimestamp (pcm : Z)
| EvCompressOpen (card device : Z)
| EvCompressStart (c : option Z)
| EvCompressStop (c : option Z)
| EvCompressClose (c : option Z)
| EvCompressSetMaxPollWait (c : option Z) (ms : Z)
| EvCompressRead (c : option Z) (count : Z)
| EvMalloc (size : Z)
| EvFree
| EvCreateResampler (in_rate out_rate channels : Z)
| EvReleaseResampler (r : Z)
| EvResample (r : Z) (frames : Z)
| EvSystemTime
| EvNanosleep (ts : timespec)
| EvUsleep (us : Z).

Definition trace := list event.

(** What the collaborators answer, given everything that happened before
    the call. *)
Record Env := mk_Env {
  (* configuration manager *)
  get_named_stream : trace -> string -> option hw_stream;
  get_stream : trace -> Z -> Z -> audio_config -> option hw_stream;
  get_current_routes : trace -> hw_stream -> Z;
  stream_is_compressed_in : hw_stream -> bool;
  (* tinyalsa *)
  pcm_open : trace -> Z -> Z -> Z -> pcm_config -> option Z;
  pcm_is_ready : trace -> Z -> bool;
  pcm_frames_to_bytes : option Z -> Z -> Z;
  pcm_write : trace -> option Z -> Z -> Z;
  pcm_read : trace -> option Z -> Z -> Z * list Z;
  pcm_get_htimestamp : trace -> Z -> Z * Z * timespec;
  (* tinycompress *)
  compress_open : trace -> Z -> Z -> option Z;
  is_compress_ready : trace -> Z -> bool;
  compress_read : trace -> option Z -> Z -> Z * list Z;
  errno : trace -> Z;
  (* libc and audio_utils *)
  malloc_ok : trace -> Z -> bool;
  create_resampler : trace -> Z -> Z -> Z -> Z * option Z;
  (* the pulls one conversion makes: (frames requested, frames consumed) *)
  resample_script : trace -> Z -> Z -> list (Z * Z);
  (* frames produced and the converted samples, once the pulls are done *)
  resample_result : trace -> Z -> Z -> Z * list Z;
  systemTime : trace -> Z
}.

(** ** The monad: a trace of external calls, and no result on undefined
    behaviour *)

Definition M (A : Type) : Type := trace -> option (A * trace).

Definition ret {A} (a : A) : M A := fun w => Some (a, w).

Definition bind {A B} (m : M A) (k : A -> M B) : M B :=
  fun w => match m w with
           | Some (a, w') => k a w'
           | None => None
           end.

(** An external call: the answer depends on the history, the call is
    appended to it. *)
Definition call {A} (e : event) (answer : trace -> A) : M A :=
  fun w => Some (answer w, e :: w).

(** A query that leaves no mark. *)
Definition ask {A} (answer : trace -> A) : M A :=
  fun w => Some (answer w, w).

Definition undefined {A} : M A := fun _ => None.

Declare Scope io_scope.
Delimit Scope io_scope with io.
Notation "x <- m ;; k" := (bind m (fun x => k))
  (at level 61, m at next level, right associativity) : io_scope.
Notation "m ;;; k" := (bind m (fun _ => k))
  (at level 61, right associativity) : io_scope.
Local Open Scope io_scope.

(** ** Voice trigger state machine *)

Section VoiceTrigger.

Variable E : Env.

Definition do_voice_trigger_open_stream (adev : audio_device)
    (streamName : string) : M audio_device :=
  hw <- call (EvGetNamedStream streamName)
          (fun w => get_named_stream E w streamName) ;;
  let adev := set_voice_trig_stream adev hw in
  match voice_trig_stream adev with
  | Some h =>
      let mic_device :=
        if voice_trig_mic adev =? 0 then AUDIO_DEVICE_IN_BUILTIN_MIC
        else voice_trig_mic adev in
      call (EvApplyRoute h mic_device) (fun _ => tt) ;;;
      ret adev
  | None => ret adev
  end.

(** The last statement of the C body is
    [adev->voice_trig_stream == NULL;], a comparison whose value is
    dropped: the field keeps its value. *)
Definition do_voice_trigger_close_stream (adev : audio_device)
    : M audio_device :=
  match voice_trig_stream adev with
  | Some h =>
      call (EvApplyRoute h 0) (fun _ => tt) ;;;
      call (EvReleaseStream h) (fun _ => tt) ;;;
      let _ := match voice_trig_stream adev with
               | None => true
               | Some _ => false
               end in
      ret adev
  | None => ret adev
  end.

Definition voice_trigger_enable (adev : audio_device) : M audio_device :=
  match voice_st adev with
  | eVoiceNone => ret adev
  | eVoiceTriggerIdle | eVoiceTriggerFired =>
      adev <- do_voice_trigger_open_stream adev kVoiceTriggerStreamName ;;
      ret (set_voice_st adev eVoiceTriggerArmed)
  | eVoiceTriggerArmed => ret adev
  | eVoiceRecogIdle =>
      adev <- do_voice_trigger_open_stream adev kVoiceRecogStreamName ;;
      ret (set_voice_st adev eVoiceRecogArmed)
  | eVoiceRecogArmed | eVoiceRecogFired | eVoiceRecogReArm => ret adev
  | eVoiceRecogAudio => ret (set_voice_st adev eVoiceRecogReArm)
  end.

Definition voice_trigger_disable (adev : audio_device) : M audio_device :=
  match voice_st adev with
  | eVoiceNone => ret adev
  | eVoiceTriggerIdle => ret adev
  | eVoiceTriggerFired | eVoiceTriggerArmed =>
      adev <- do_voice_trigger_close_stream adev ;;
      ret (set_voice_st adev eVoiceTriggerIdle)
  | eVoiceRecogIdle => ret adev
  | eVoiceRecogArmed =>
      adev <- do_voice_trigger_close_stream adev ;;
      ret (set_voice_st adev eVoiceRecogIdle)
  | eVoiceRecogFired | eVoiceRecogAudio => ret adev
  | eVoiceRecogReArm => ret (set_voice_st adev eVoiceRecogAudio)
  end.

Definition voice_trigger_triggered (adev : audio_device) : M audio_device :=
  match voice_st adev with
  | eVoiceNone | eVoiceTriggerIdle | eVoiceTriggerFired => ret adev
  | eVoiceTriggerArmed => ret (set_voice_st adev eVoiceTriggerFired)
  | eVoiceRecogIdle | eVoiceRecogFired | eVoiceRecogAudio
  | eVoiceRecogReArm => ret adev
  | eVoiceRecogArmed => ret (set_voice_st adev eVoiceRecogFired)
  end.

Definition voice_trigger_audio_started_locked (adev : audio_device)
    : M audio_device :=
  match voice_st adev with
  | eVoiceNone | eVoiceTriggerIdle | eVoiceTriggerArmed
  | eVoiceTriggerFired => ret adev
  | eVoiceRecogIdle | eVoiceRecogArmed => ret adev
  | eVoiceRecogFired => ret (set_voice_st adev eVoiceRecogAudio)
  | eVoiceRecogAudio | eVoiceRecogReArm => ret adev
  end.

Definition voice_trigger_audio_ended_locked (adev : audio_device)
    : M audio_device :=
  match voice_st adev with
  | eVoiceNone | eVoiceTriggerIdle | eVoiceTriggerArmed
  | eVoiceTriggerFired => ret adev
  | eVoiceRecogIdle | eVoiceRecogArmed | eVoiceRecogFired => ret adev
  | eVoiceRecogAudio =>
      adev <- do_voice_trigger_close_stream adev ;;
      ret (set_voice_st adev eVoiceRecogIdle)
  | eVoiceRecogReArm => ret (set_voice_st adev eVoiceRecogArmed)
  end.

Definition voice_trigger_audio_stream_name (adev : audio_device)
    : option string :=
  match voice_st adev with
  | eVoiceNone | eVoiceTriggerIdle | eVoiceTriggerArmed
  | eVoiceTriggerFired => Some kVoiceRecogStreamName
  | eVoiceRecogIdle | eVoiceRecogArmed | eVoiceRecogReArm => None
  | eVoiceRecogFired => Some kVoiceRecogStreamName
  | eVoiceRecogAudio => None
  end.

(** The five events of the arbitrator, and the function each one runs. *)
Inductive voice_event :=
| evEnable
| evDisable
| evTriggerFired
| evAudioCaptureStarted
| evAudioCaptureEnded.

Definition voice_trigger_handle (ev : voice_event) (adev : audio_device)
    : M audio_device :=
  match ev with
  | evEnable => voice_trigger_enable adev
  | evDisable => voice_trigger_disable adev
  | evTriggerFired => voice_trigger_triggered adev
  | evAudioCaptureStarted => voice_trigger_audio_started_locked adev
  | evAudioCaptureEnded => voice_trigger_audio_ended_locked adev
  end.

Fixpoint voice_trigger_replay (evs : list voice_event) (adev : audio_device)
    : M audio_device :=
  match evs with
  | [] => ret adev
  | ev :: evs' =>
      adev' <- voice_trigger_handle ev adev ;;
      voice_trigger_replay evs' adev'
  end.

End VoiceTrigger.

(** ** Output streams *)

(** Fields common to all types of output stream.  [hw] is never NULL for
    an output stream: [adev_open_output_stream] fails before creating the
    stream when no route is found. *)
Record stream_out_common := mk_stream_out_common {
  o_hw : hw_stream;
  o_standby : bool;
  o_format : Z;
  o_channel_mask : Z;
  o_channel_count : Z;
  o_sample_rate : Z;
  o_frame_size : Z;
  o_buffer_size : Z;
  o_latency : Z
}.

Record stream_out_pcm := mk_stream_out_pcm {
  o_common : stream_out_common;
  o_pcm : option Z;
  o_hw_sample_rate : Z;
  o_hw_channel_count : Z;
  o_hw_period_size : Z;
  o_hw_period_count : Z;
  hw_frames_written : Z;
  hw_frames_rendered : Z
}.

Definition set_o_standby (c : stream_out_common) (b : bool) :=
  mk_stream_out_common (o_hw c) b (o_format c) (o_channel_mask c)
    (o_channel_count c) (o_sample_rate c) (o_frame_size c)
    (o_buffer_size c) (o_latency c).

Definition set_o_buffer_size (c : stream_out_common) (n : Z) :=
  mk_stream_out_common (o_hw c) (o_standby c) (o_format c) (o_channel_mask c)
    (o_channel_count c) (o_sample_rate c) (o_frame_size c) n (o_latency c).

Definition set_o_latency (c : stream_out_common) (n : Z) :=
  mk_stream_out_common (o_hw c) (o_standby c) (o_format c) (o_channel_mask c)
    (o_channel_count c) (o_sample_rate c) (o_frame_size c)
    (o_buffer_size c) n.

Definition set_o_common (out : stream_out_pcm) (c : stream_out_common) :=
  mk_stream_out_pcm c (o_pcm out) (o_hw_sample_rate out)
    (o_hw_channel_count out) (o_hw_period_size out) (o_hw_period_count out)
    (hw_frames_written out) (hw_frames_rendered out).

Definition set_o_pcm (out : stream_out_pcm) (p : option Z) :=
  mk_stream_out_pcm (o_common out) p (o_hw_sample_rate out)
    (o_hw_channel_count out) (o_hw_period_size out) (o_hw_period_count out)
    (hw_frames_written out) (hw_frames_rendered out).

Definition set_o_hw_params (out : stream_out_pcm) (r c ps pc : Z) :=
  mk_stream_out_pcm (o_common out) (o_pcm out) r c ps pc
    (hw_frames_written out) (hw_frames_rendered out).

Definition set_hw_frames_written (out : stream_out_pcm) (n : Z) :=
  mk_stream_out_pcm (o_common out) (o_pcm out) (o_hw_sample_rate out)
    (o_hw_channel_count out) (o_hw_period_size out) (o_hw_period_count out)
    n (hw_frames_rendered out).

Definition set_hw_frames_rendered (out : stream_out_pcm) (n : Z) :=
  mk_stream_out_pcm (o_common out) (o_pcm out) (o_hw_sample_rate out)
    (o_hw_channel_count out) (o_hw_period_size out) (o_hw_period_count out)
    (hw_frames_written out) n.

Definition out_pcm_cfg_period_count (out : stream_out_pcm) : Z :=
  if period_count (o_hw (o_common out)) =? 0 then OUT_PERIOD_COUNT_DEFAULT
  else period_count (o_hw (o_common out)).

Definition out_pcm_cfg_period_size (out : stream_out_pcm) : Z :=
  if period_size (o_hw (o_common out)) =? 0 then OUT_PERIOD_SIZE_DEFAULT
  else period_size (o_hw (o_common out)).

Definition out_pcm_cfg_rate (out : stream_out_pcm) : Z :=
  if negb (rate (o_hw (o_common out)) =? 0) then rate (o_hw (o_common out))
  else if negb (o_sample_rate (o_common out) =? 0)
       then o_sample_rate (o_common out)
       else OUT_SAMPLE_RATE_DEFAULT.

Definition out_pcm_cfg_channel_count (out : stream_out_pcm) : Z :=
  if o_channel_count (o_common out) =? 0 then OUT_CHANNEL_COUNT_DEFAULT
  else o_channel_count (o_common out).

(** [do_init_out_pcm]: the part of stream construction that touches the
    fields modelled here. *)
Definition do_init_out_pcm (out : stream_out_pcm) : stream_out_pcm :=
  let out :=
    set_o_common out
      (set_o_buffer_size (o_common out)
         (to_u32 (out_pcm_cfg_period_size out * o_frame_size (o_common out))))
  in
  let out := set_hw_frames_rendered out 0 in
  set_hw_frames_written out 0.

Section OutputStream.

Variable A : abi.
Variable E : Env.

Definition do_out_pcm_standby (out : stream_out_pcm) : M stream_out_pcm :=
  match o_standby (o_common out), o_pcm out with
  | false, Some p =>
      let out := set_o_common out (set_o_standby (o_common out) true) in
      call (EvPcmClose (Some p)) (fun _ => tt) ;;;
      ret (set_o_pcm out None)
  | _, _ => ret out
  end.

Definition out_pcm_fill_params (out : stream_out_pcm) (config : pcm_config)
    : M stream_out_pcm :=
  let out :=
    set_o_hw_params out (cfg_rate config) (cfg_channels config)
      (cfg_period_size config) (cfg_period_count config) in
  let c := set_o_buffer_size (o_common out)
             (to_u32 (pcm_frames_to_bytes E (o_pcm out)
                        (cfg_period_size config))) in
  let c := set_o_latency c
             (to_u32 (cfg_period_size config * cfg_period_count config
                      * 1000)) in
  if cfg_rate config =? 0 then undefined
  else ret (set_o_common out (set_o_latency c (o_latency c / cfg_rate config))).

Definition start_output_pcm (adev : audio_device) (out : stream_out_pcm)
    : M (Z * stream_out_pcm) :=
  let config :=
    mk_pcm_config (out_pcm_cfg_channel_count out) (out_pcm_cfg_rate out)
      (out_pcm_cfg_period_size out) (out_pcm_cfg_period_count out) in
  let card := card_number (o_hw (o_common out)) in
  let device := device_number (o_hw (o_common out)) in
  let fill out := (out <- out_pcm_fill_params out config ;; ret (0, out)) in
  if negb (disable_audio adev) then
    pcm <- call (EvPcmOpen card device (Z.lor PCM_OUT PCM_MONOTONIC) config)
             (fun w => pcm_open E w card device
                         (Z.lor PCM_OUT PCM_MONOTONIC) config) ;;
    let out := set_o_pcm out pcm in
    match pcm with
    | Some p =>
        ready <- ask (fun w => pcm_is_ready E w p) ;;
        if negb ready then
          call (EvPcmClose (Some p)) (fun _ => tt) ;;;
          ret (- ENOMEM, out)
        else fill out
    | None => fill out
    end
  else fill out.

Definition out_pcm_standby (out : stream_out_pcm) : M (Z * stream_out_pcm) :=
  out <- do_out_pcm_standby out ;;
  ret (0, out).

(** [hw_frames_written += bytes / frame_size] and the same for
    [hw_frames_rendered]: a [size_t] division added to a [uint64_t]. *)
Definition out_advance_frames (out : stream_out_pcm) (bytes : Z)
    : M stream_out_pcm :=
  if o_frame_size (o_common out) =? 0 then undefined
  else
    let n := bytes / o_frame_size (o_common out) in
    let out := set_hw_frames_written out (to_u64 (hw_frames_written out + n)) in
    ret (set_hw_frames_rendered out (to_u64 (hw_frames_rendered out + n))).

(** The body of [out_pcm_write] after the standby check (the build
    without TEST_32BITS). *)
Definition out_pcm_write_body (adev : audio_device) (out : stream_out_pcm)
    (bytes : Z) : M (Z * stream_out_pcm) :=
  if negb (disable_audio adev) then
    r <- call (EvPcmWrite (o_pcm out) (to_u32 bytes))
           (fun w => pcm_write E w (o_pcm out) (to_u32 bytes)) ;;
    if 0 <=? r then
      out <- out_advance_frames out bytes ;;
      ret (to_int bytes, out)
    else ret (r, out)
  else
    let sleep_time := to_s64 (bytes * 1000000) in
    if o_sample_rate (o_common out) =? 0 then undefined
    else
      let d := o_frame_size (o_common out) / o_sample_rate (o_common out) in
      if d =? 0 then undefined
      else
        let sleep_time :=
          match A with
          | LP64 => to_u64 sleep_time / d
          | ILP32 => Z.quot sleep_time d
          end in
        call (EvUsleep (to_u32 sleep_time)) (fun _ => tt) ;;;
        out <- out_advance_frames out bytes ;;
        ret (to_int bytes, out).

Definition out_pcm_write (adev : audio_device) (out : stream_out_pcm)
    (bytes : Z) : M (Z * stream_out_pcm) :=
  routes <- ask (fun w => get_current_routes E w (o_hw (o_common out))) ;;
  if routes =? 0 then ret (0, out)
  else if o_standby (o_common out) then
    r <- start_output_pcm adev out ;;
    let '(ret_, out) := r in
    if negb (ret_ =? 0) then ret (ret_, out)
    else
      let out := set_o_common out (set_o_standby (o_common out) false) in
      let out := set_hw_frames_rendered out 0 in
      out_pcm_write_body adev out bytes
  else out_pcm_write_body adev out bytes.

Definition out_pcm_get_render_position (out : stream_out_pcm) : Z * Z :=
  (0, to_u32 (hw_frames_rendered out)).

(** [frames] and [timestamp] are the caller's variables behind the two
    out-pointers; they come back unchanged when the function does not
    write them.  [pcm_get_htimestamp] is taken to write [*timestamp] only
    when it succeeds. *)
Definition presented_frames (out : stream_out_pcm) (avail : Z) : Z :=
  let kernel_buffer_size :=
    to_u32 (o_hw_period_size out * o_hw_period_count out) in
  to_s64 (hw_frames_written out - kernel_buffer_size + avail).

Definition out_get_presentation_position (out : stream_out_pcm)
    (frames : Z) (timestamp : timespec) : M (Z * Z * timespec) :=
  match o_pcm out with
  | Some p =>
      r <- call (EvPcmGetHtimestamp p)
             (fun w => pcm_get_htimestamp E w p) ;;
      let '(rc, avail, ts) := r in
      if rc =? 0 then
        if 0 <=? presented_frames out avail
        then ret (0, to_u64 (presented_frames out avail), ts)
        else ret (- EINVAL, frames, ts)
      else ret (- EINVAL, frames, timestamp)
  | None =>
      if 0 <=? presented_frames out 0
      then ret (0, to_u64 (presented_frames out 0), timestamp)
      else ret (- EINVAL, frames, timestamp)
  end.

End OutputStream.

(** ** Input streams *)

Record in_resampler := mk_in_resampler {
  rs_resampler : option Z;
  rs_buffer : option (list Z);       (* int16_t samples; None is NULL *)
  in_buffer_size : Z;
  in_buffer_frames : Z;
  frames_in : Z;
  read_status : Z
}.

(** Fields common to all types of input stream. *)
Record stream_in_common := mk_stream_in_common {
  i_hw : option hw_stream;
  i_standby : bool;
  i_devices : Z;
  i_format : Z;
  i_channel_mask : Z;
  i_channel_count : Z;
  i_sample_rate : Z;
  i_frame_size : Z;
  i_buffer_size : Z;
  input_source : Z;
  last_read_ns : Z
}.

Record stream_in_pcm := mk_stream_in_pcm {
  i_common : stream_in_common;
  (* union { struct pcm *pcm; struct compress *compress; } : one slot *)
  i_pcm : option Z;
  i_hw_sample_rate : Z;
  i_hw_channel_count : Z;
  i_hw_period_size : Z;
  i_hw_period_count : Z;
  resampler : in_resampler
}.

Definition i_compress : stream_in_pcm -> option Z := i_pcm.

(** The buffer a pull hands to the converter: [raw] is the position in
    [rsp->buffer] the pointer refers to, counted in [int16_t] elements
    ([None] is NULL). *)
Record resampler_buffer := mk_resampler_buffer {
  raw : option Z;
  frame_count : Z
}.

Definition set_i_hw (c : stream_in_common) (h : option hw_stream) :=
  mk_stream_in_common h (i_standby c) (i_devices c) (i_format c)
    (i_channel_mask c) (i_channel_count c) (i_sample_rate c) (i_frame_size c)
    (i_buffer_size c) (input_source c) (last_read_ns c).

Definition set_i_standby (c : stream_in_common) (b : bool) :=
  mk_stream_in_common (i_hw c) b (i_devices c) (i_format c)
    (i_channel_mask c) (i_channel_count c) (i_sample_rate c) (i_frame_size c)
    (i_buffer_size c) (input_source c) (last_read_ns c).

Definition set_i_buffer_size (c : stream_in_common) (n : Z) :=
  mk_stream_in_common (i_hw c) (i_standby c) (i_devices c) (i_format c)
    (i_channel_mask c) (i_channel_count c) (i_sample_rate c) (i_frame_size c)
    n (input_source c) (last_read_ns c).

Definition set_input_source (c : stream_in_common) (n : Z) :=
  mk_stream_in_common (i_hw c) (i_standby c) (i_devices c) (i_format c)
    (i_channel_mask c) (i_channel_count c) (i_sample_rate c) (i_frame_size c)
    (i_buffer_size c) n (last_read_ns c).

Definition set_last_read_ns (c : stream_in_common) (n : Z) :=
  mk_stream_in_common (i_hw c) (i_standby c) (i_devices c) (i_format c)
    (i_channel_mask c) (i_channel_count c) (i_sample_rate c) (i_frame_size c)
    (i_buffer_size c) (input_source c) n.

Definition set_i_common (s : stream_in_pcm) (c : stream_in_common) :=
  mk_stream_in_pcm c (i_pcm s) (i_hw_sample_rate s) (i_hw_channel_count s)
    (i_hw_period_size s) (i_hw_period_count s) (resampler s).

Definition set_i_pcm (s : stream_in_pcm) (p : option Z) :=
  mk_stream_in_pcm (i_common s) p (i_hw_sample_rate s) (i_hw_channel_count s)
    (i_hw_period_size s) (i_hw_period_count s) (resampler s).

Definition set_i_hw_params (s : stream_in_pcm) (r c ps pc : Z) :=
  mk_stream_in_pcm (i_common s) (i_pcm s) r c ps pc (resampler s).

Definition set_resampler (s : stream_in_pcm) (r : in_resampler) :=
  mk_stream_in_pcm (i_common s) (i_pcm s) (i_hw_sample_rate s)
    (i_hw_channel_count s) (i_hw_period_size s) (i_hw_period_count s) r.

Definition set_rs_resampler (r : in_resampler) (h : option Z) :=
  mk_in_resampler h (rs_buffer r) (in_buffer_size r) (in_buffer_frames r)
    (frames_in r) (read_status r).

Definition set_rs_buffer (r : in_resampler) (b : option (list Z)) :=
  mk_in_resampler (rs_resampler r) b (in_buffer_size r) (in_buffer_frames r)
    (frames_in r) (read_status r).

Definition set_in_buffer (r : in_resampler) (size frames : Z) :=
  mk_in_resampler (rs_resampler r) (rs_buffer r) size frames
    (frames_in r) (read_status r).

Definition set_frames_in (r : in_resampler) (n : Z) :=
  mk_in_resampler (rs_resampler r) (rs_buffer r) (in_buffer_size r)
    (in_buffer_frames r) n (read_status r).

Definition set_read_status (r : in_resampler) (n : Z) :=
  mk_in_resampler (rs_resampler r) (rs_buffer r) (in_buffer_size r)
    (in_buffer_frames r) (frames_in r) n.

(** [memset(buffer, 0, bytes)] on the caller's buffer. *)
Definition memset0 (buffer : list Z) (bytes : Z) : list Z :=
  repeat 0 (Z.to_nat bytes) ++ skipn (Z.to_nat bytes) buffer.

(** A transport that stores [data] at byte offset [off] of the buffer. *)
Definition store_at (buffer : list Z) (off : Z) (data : list Z) : list Z :=
  firstn (Z.to_nat off) buffer ++ data
    ++ skipn (Z.to_nat off + length data) buffer.

Fixpoint list_set (l : list Z) (i : nat) (v : Z) : list Z :=
  match l, i with
  | [], _ => []
  | _ :: t, O => v :: t
  | h :: t, S i' => h :: list_set t i' v
  end.

(** One iteration of the loop that discards the right channel:
    [rsp->buffer[i] = rsp->buffer[i * 2]].  An access outside the buffer
    has no defined result. *)
Definition discard_step (b : option (list Z)) (i : nat) : option (list Z) :=
  match b with
  | Some l =>
      match nth_error l (2 * i) with
      | Some v => Some (list_set l i v)
      | None => None
      end
  | None => None
  end.

(** [for (i = 1; i < frames; i++) buffer[i] = buffer[i * 2];] *)
Definition discard_right_channel (frames : Z) (l : list Z)
    : option (list Z) :=
  fold_left discard_step (seq 1 (Z.to_nat frames - 1)) (Some l).

Section InputStream.

Variable A : abi.
Variable E : Env.

Definition in_get_sample_rate (c : stream_in_common) : M Z :=
  if negb (i_sample_rate c =? 0) then ret (i_sample_rate c)
  else match i_hw c with
       | Some h => ret (rate h)
       | None => undefined
       end.

Definition do_in_set_read_timestamp (c : stream_in_common)
    : M stream_in_common :=
  ns <- call EvSystemTime (systemTime E) ;;
  (* 0 is used to mean we don't have a timestamp *)
  ret (set_last_read_ns c (if ns =? 0 then 1 else ns)).

(** [(1907 * bytes) / (in->frame_size * in->sample_rate)], in [size_t]:
    the interval in units of 2^19 ns. *)
Definition required_interval (c : stream_in_common) (bytes : Z) : Z :=
  to_size A (1907 * bytes) / to_size A (i_frame_size c * i_sample_rate c).

(** [elapsed_ns >> 19] as the comparison with a [size_t] sees it: both
    operands become unsigned 64-bit on LP64, signed 64-bit on ILP32. *)
Definition elapsed_units (elapsed_ns : Z) : Z :=
  match A with
  | LP64 => to_u64 (Z.shiftr elapsed_ns 19)
  | ILP32 => Z.shiftr elapsed_ns 19
  end.

(** Delay for the time it would have taken to read [bytes] since the last
    read at the stream sample rate. *)
Definition do_in_realtime_delay (c : stream_in_common) (bytes : Z) : M unit :=
  if negb (last_read_ns c =? 0) then
    if to_size A (i_frame_size c * i_sample_rate c) =? 0 then undefined
    else
      let required_ns := to_s64 (Z.shiftl (required_interval c bytes) 19) in
      now <- call EvSystemTime (systemTime E) ;;
      let elapsed_ns := to_s64 (now - last_read_ns c) in
      if elapsed_units elapsed_ns <? required_interval c bytes then
        call (EvNanosleep
                (mk_timespec 0 (to_long A (to_s64 (required_ns - elapsed_ns)))))
          (fun _ => tt)
      else ret tt
  else ret tt.

(** *** PCM input resampler handling *)

Definition get_next_buffer (sin : stream_in_pcm) (buffer : resampler_buffer)
    : M (Z * stream_in_pcm * resampler_buffer) :=
  let rsp := resampler sin in
  let offer (rsp : in_resampler) :=
    let buffer :=
      mk_resampler_buffer
        (Some (to_size A (in_buffer_frames rsp - frames_in rsp)))
        (if frames_in rsp <? frame_count buffer then frames_in rsp
         else frame_count buffer) in
    ret (read_status rsp, set_resampler sin rsp, buffer) in
  match i_pcm sin with
  | None =>
      ret (- ENODEV, set_resampler sin (set_read_status rsp (- ENODEV)),
           mk_resampler_buffer None 0)
  | Some p =>
      if frames_in rsp =? 0 then
        r <- call (EvPcmRead (Some p) (to_u32 (in_buffer_size rsp)))
               (fun w => pcm_read E w (Some p) (to_u32 (in_buffer_size rsp))) ;;
        let '(status, data) := r in
        let rsp := set_rs_buffer (set_read_status rsp status) (Some data) in
        if negb (status =? 0) then
          ret (status, set_resampler sin rsp, mk_resampler_buffer None 0)
        else
          let rsp := set_frames_in rsp (to_size A (in_buffer_frames rsp)) in
          if (i_channel_count (i_common sin) =? 1)
             && (i_hw_channel_count sin =? 2) then
            (* Discard right channel *)
            match discard_right_channel (frames_in rsp) data with
            | Some data' => offer (set_rs_buffer rsp (Some data'))
            | None => undefined
            end
          else offer rsp
      else offer rsp
  end.

Definition release_buffer (sin : stream_in_pcm) (buffer : resampler_buffer)
    : stream_in_pcm :=
  let rsp := resampler sin in
  set_resampler sin
    (set_frames_in rsp (to_size A (frames_in rsp - frame_count buffer))).

(** The rate converter ([resample_from_provider] of audio_utils) is an
    external function that calls back into the two functions above.  The
    environment chooses how many frames each of its pulls requests and how
    many it then reports as consumed; it stops pulling when a pull hands
    it a NULL buffer. *)
Fixpoint resampler_pulls (script : list (Z * Z)) (sin : stream_in_pcm)
    : M stream_in_pcm :=
  match script with
  | [] => ret sin
  | (want, used) :: script' =>
      r <- get_next_buffer sin (mk_resampler_buffer None want) ;;
      let '(_, sin, buf) := r in
      match raw buf with
      | None => ret sin
      | Some _ =>
          resampler_pulls script'
            (release_buffer sin (mk_resampler_buffer (raw buf) used))
      end
  end.

Definition resample_from_provider (sin : stream_in_pcm) (r : Z)
    (frames_rd : Z) : M (stream_in_pcm * Z * list Z) :=
  script <- call (EvResample r frames_rd)
              (fun w => resample_script E w r frames_rd) ;;
  sin <- resampler_pulls script sin ;;
  res <- ask (fun w => resample_result E w r frames_rd) ;;
  ret (sin, fst res, snd res).

(** [while (frames_wr < frames) { ... }]; [fuel] bounds the number of
    iterations. *)
Fixpoint read_resampled_frames_loop (fuel : nat) (sin : stream_in_pcm)
    (r : Z) (buffer : list Z) (frames frames_wr : Z)
    : M (Z * stream_in_pcm * list Z) :=
  if frames_wr <? frames then
    match fuel with
    | O => undefined
    | S fuel' =>
        let frames_rd := to_size A (frames - frames_wr) in
        res <- resample_from_provider sin r frames_rd ;;
        let '(sin, frames_rd, samples) := res in
        let buffer :=
          store_at buffer (frames_wr * i_frame_size (i_common sin)) samples in
        if negb (read_status (resampler sin) =? 0) then
          ret (read_status (resampler sin), sin, buffer)
        else
          read_resampled_frames_loop fuel' sin r buffer frames
            (to_ssize A (frames_wr + frames_rd))
    end
  else ret (frames_wr, sin, buffer).

Definition read_resampled_frames (fuel : nat) (sin : stream_in_pcm) (r : Z)
    (buffer : list Z) (frames : Z) : M (Z * stream_in_pcm * list Z) :=
  read_resampled_frames_loop fuel sin r buffer frames 0.

Definition in_resampler_init (sin : stream_in_pcm)
    (hw_rate channels hw_fragment : Z) : M (Z * stream_in_pcm) :=
  let rsp := resampler sin in
  let fs := i_frame_size (i_common sin) in
  let size := to_size A (hw_fragment * channels * fs) in
  if to_size A (channels * fs) =? 0 then undefined
  else
    let rsp := set_in_buffer rsp size
                 (to_int (size / to_size A (channels * fs))) in
    ok <- call (EvMalloc size) (fun w => malloc_ok E w size) ;;
    let rsp :=
      set_rs_buffer rsp
        (if ok : bool then Some (repeat 0 (Z.to_nat (size / 2))) else None) in
    if negb ok then
      call EvFree (fun _ => tt) ;;;
      ret (- ENOMEM, set_resampler sin (set_rs_buffer rsp None))
    else
      cr <- call (EvCreateResampler hw_rate (i_sample_rate (i_common sin))
                    (i_channel_count (i_common sin)))
              (fun w => create_resampler E w hw_rate
                          (i_sample_rate (i_common sin))
                          (i_channel_count (i_common sin))) ;;
      let rsp := set_rs_resampler rsp (snd cr) in
      if fst cr <? 0 then
        call EvFree (fun _ => tt) ;;;
        ret (fst cr, set_resampler sin (set_rs_buffer rsp None))
      else ret (fst cr, set_resampler sin rsp).

Definition in_resampler_free (sin : stream_in_pcm) : M stream_in_pcm :=
  let rsp := resampler sin in
  rsp <- match rs_resampler rsp with
         | Some r =>
             call (EvReleaseResampler r) (fun _ => tt) ;;;
             ret (set_rs_resampler rsp None)
         | None => ret rsp
         end ;;
  call EvFree (fun _ => tt) ;;;
  ret (set_resampler sin (set_rs_buffer rsp None)).

(** *** PCM input stream via compressed channel *)

Definition do_open_compress_pcm_in (sin : stream_in_pcm)
    : M (Z * stream_in_pcm) :=
  match i_hw (i_common sin) with
  | None => ret (- EINVAL, sin)
  | Some hw =>
      c <- call (EvCompressOpen (card_number hw) (device_number hw))
             (fun w => compress_open E w (card_number hw) (device_number hw)) ;;
      ready <- match c with
               | Some h => ask (fun w => is_compress_ready E w h)
               | None => ret false
               end ;;
      if negb ready then
        e <- ask (errno E) ;;
        call (EvCompressClose c) (fun _ => tt) ;;;
        ret (e, sin)
      else
        let sin := set_i_pcm sin c in
        let sin :=
          set_i_common sin
            (set_i_buffer_size (i_common sin)
               (to_size A (4096 * 1 * i_frame_size (i_common sin)))) in
        call (EvCompressStart (i_compress sin)) (fun _ => tt) ;;;
        ret (0, sin)
  end.

Definition start_compress_pcm_input_stream (sin : stream_in_pcm)
    : M (Z * stream_in_pcm) :=
  if i_standby (i_common sin) then
    r <- do_open_compress_pcm_in sin ;;
    let '(ret_, sin) := r in
    if ret_ <? 0 then ret (ret_, sin)
    else
      let c := i_common sin in
      let d := to_size A (i_frame_size c * i_sample_rate c) in
      if d =? 0 then undefined
      else
        let num := match A with
                   | LP64 => to_u64 (1000 * i_buffer_size c)
                   | ILP32 => 1000 * i_buffer_size c
                   end in
        let ms := to_int (num / d) in
        call (EvCompressSetMaxPollWait (i_compress sin) (to_int (ms * 2)))
          (fun _ => tt) ;;;
        ret (0, set_i_common sin (set_i_standby c false))
  else ret (0, sin).

Definition do_in_compress_pcm_standby (sin : stream_in_pcm)
    : M stream_in_pcm :=
  sin <- (if negb (i_standby (i_common sin)) then
            let c := i_compress sin in
            let sin := set_i_pcm sin None in
            call (EvCompressStop c) (fun _ => tt) ;;;
            call (EvCompressClose c) (fun _ => tt) ;;;
            ret sin
          else ret sin) ;;
  ret (set_i_common sin (set_i_standby (i_common sin) true)).

Definition do_in_compress_pcm_read (sin : stream_in_pcm) (buffer : list Z)
    (bytes : Z) : M (Z * stream_in_pcm * list Z) :=
  r <- start_compress_pcm_input_stream sin ;;
  let '(ret_, sin) := r in
  if ret_ <? 0 then ret (ret_, sin, buffer)
  else
    rd <- call (EvCompressRead (i_compress sin) (to_u32 bytes))
            (fun w => compress_read E w (i_compress sin) (to_u32 bytes)) ;;
    let '(ret_, data) := rd in
    let buffer := store_at buffer 0 data in
    if 0 <? ret_ then
      (* Allow data to be returned up to 4x realtime *)
      do_in_realtime_delay (i_common sin) (bytes / 4) ;;;
      ret (ret_, sin, buffer)
    else ret (ret_, sin, buffer).

(** *** PCM input stream *)

Definition in_pcm_cfg_period_count (hw : hw_stream) : Z :=
  if negb (period_count hw =? 0) then period_count hw
  else IN_PERIOD_COUNT_DEFAULT.

Definition in_pcm_cfg_period_size (hw : hw_stream) : Z :=
  if negb (period_size hw =? 0) then period_size hw
  else IN_PERIOD_SIZE_DEFAULT.

Definition in_pcm_cfg_rate (hw : hw_stream) : Z :=
  if negb (rate hw =? 0) then rate hw else IN_SAMPLE_RATE_DEFAULT.

Definition in_pcm_cfg_channel_count (sin : stream_in_pcm) : Z :=
  if negb (i_channel_count (i_common sin) =? 0)
  then i_channel_count (i_common sin)
  else IN_CHANNEL_COUNT_DEFAULT.

Definition do_in_pcm_standby (sin : stream_in_pcm) : M stream_in_pcm :=
  sin <- (if negb (i_standby (i_common sin)) then
            call (EvPcmClose (i_pcm sin)) (fun _ => tt) ;;;
            ret (set_i_pcm sin None)
          else ret sin) ;;
  sin <- in_resampler_free sin ;;
  ret (set_i_common sin (set_i_standby (i_common sin) true)).

Definition in_pcm_fill_params (sin : stream_in_pcm) (config : pcm_config)
    : M stream_in_pcm :=
  let sin :=
    set_i_hw_params sin (cfg_rate config) (cfg_channels config)
      (cfg_period_size config) (cfg_period_count config) in
  if cfg_rate config =? 0 then undefined
  else
    let size :=
      to_u32 (cfg_period_size config * i_sample_rate (i_common sin))
      / cfg_rate config in
    let size := to_size A (to_size A (size + 15) / 16 * 16) in
    ret (set_i_common sin
           (set_i_buffer_size (i_common sin)
              (to_size A (size * i_frame_size (i_common sin))))).

Definition do_open_pcm_input (adev : audio_device) (sin : stream_in_pcm)
    : M (Z * stream_in_pcm) :=
  match i_hw (i_common sin) with
  | None => ret (- EINVAL, sin)
  | Some hw =>
      let config :=
        mk_pcm_config (in_pcm_cfg_channel_count sin) (in_pcm_cfg_rate hw)
          (in_pcm_cfg_period_size hw) (in_pcm_cfg_period_count hw) in
      let fail (ret_ : Z) (sin : stream_in_pcm) :=
        call (EvPcmClose (i_pcm sin)) (fun _ => tt) ;;;
        ret (ret_, set_i_pcm sin None) in
      if negb (disable_audio adev) then
        pcm <- call (EvPcmOpen (card_number hw) (device_number hw) PCM_IN
                       config)
                 (fun w => pcm_open E w (card_number hw) (device_number hw)
                             PCM_IN config) ;;
        let sin := set_i_pcm sin pcm in
        ready <- match pcm with
                 | Some p => ask (fun w => pcm_is_ready E w p)
                 | None => ret false
                 end ;;
        if negb ready then fail (- ENOMEM) sin
        else
          sin <- in_pcm_fill_params sin config ;;
          (* If the stream rate differs from the PCM rate, we need to
             create a resampler. *)
          sr <- in_get_sample_rate (i_common sin) ;;
          if negb (sr =? cfg_rate config) then
            r <- in_resampler_init sin (cfg_rate config) (cfg_channels config)
                   (pcm_frames_to_bytes E (i_pcm sin)
                      (cfg_period_size config)) ;;
            let '(ret_, sin) := r in
            if ret_ <? 0 then fail ret_ sin else ret (0, sin)
          else ret (0, sin)
      else
        sin <- in_pcm_fill_params sin config ;;
        ret (0, sin)
  end.

Definition start_pcm_input_stream (adev : audio_device) (sin : stream_in_pcm)
    : M (Z * stream_in_pcm) :=
  if i_standby (i_common sin) then
    r <- do_open_pcm_input adev sin ;;
    let '(ret_, sin) := r in
    if ret_ =? 0
    then ret (ret_, set_i_common sin (set_i_standby (i_common sin) false))
    else ret (ret_, sin)
  else ret (0, sin).

(** [p] is the address of the stream [sin]; [new_source] is
    [atoi(value)]. *)
Definition change_input_source_locked (adev : audio_device) (p : ptr)
    (sin : stream_in_pcm) (new_source devices : Z)
    : M (Z * bool * stream_in_pcm * audio_device) :=
  if negb (i_standby (i_common sin)) then
    (* attempt to change input source while active *)
    ret (- EINVAL, false, sin, adev)
  else if input_source (i_common sin) =? new_source then
    ret (0, false, sin, adev)
  else
    let '(stream_name, voice_control) :=
      if new_source =? AUDIO_SOURCE_VOICE_RECOGNITION
      then (voice_trigger_audio_stream_name adev, true)
      else (None, false) in
    hw <- match stream_name with
          | Some name =>
              call (EvGetNamedStream name)
                (fun w => get_named_stream E w name)
          | None => ret None
          end ;;
    hw <- match hw with
          | Some h => ret (Some h)
          | None =>
              let config :=
                mk_audio_config (i_sample_rate (i_common sin))
                  (i_channel_mask (i_common sin)) (i_format (i_common sin)) in
              call (EvGetStream devices 0 config)
                (fun w => get_stream E w devices 0 config)
          end ;;
    match hw with
    | Some h =>
        match i_hw (i_common sin) with
        | Some old => call (EvReleaseStream old) (fun _ => tt)
        | None => ret tt
        end ;;;
        let sin := set_i_common sin (set_i_hw (i_common sin) (Some h)) in
        adev <- (if voice_control then
                   voice_trigger_audio_started_locked
                     (set_active_voice_control adev (Some p))
                 else
                   match active_voice_control adev with
                   | Some q =>
                       if q =? p then
                         voice_trigger_audio_ended_locked
                           (set_active_voice_control adev None)
                       else ret adev
                   | None => ret adev
                   end) ;;
        let sin :=
          set_i_common sin (set_input_source (i_common sin) new_source) in
        ret (0, true, sin, adev)
    | None =>
        (* Could not open new input stream *)
        ret (- EINVAL, false, sin, adev)
    end.

Definition do_in_pcm_read (fuel : nat) (adev : audio_device)
    (sin : stream_in_pcm) (buffer : list Z) (bytes : Z)
    : M (Z * stream_in_pcm * list Z) :=
  if i_frame_size (i_common sin) =? 0 then undefined
  else
    let frames_rq := bytes / i_frame_size (i_common sin) in
    r <- start_pcm_input_stream adev sin ;;
    let '(ret_, sin) := r in
    if ret_ <? 0 then ret (ret_, sin, buffer)
    else if negb (disable_audio adev) then
      r <- match rs_resampler (resampler sin) with
           | Some rs =>
               r <- read_resampled_frames fuel sin rs buffer
                      (to_ssize A frames_rq) ;;
               let '(n, sin, buffer) := r in
               ret (to_int n, sin, buffer)
           | None =>
               rd <- call (EvPcmRead (i_pcm sin) (to_u32 bytes))
                       (fun w => pcm_read E w (i_pcm sin) (to_u32 bytes)) ;;
               ret (fst rd, sin, store_at buffer 0 (snd rd))
           end ;;
      let '(ret_, sin, buffer) := r in
      (* Assume any non-negative return is a successful read *)
      if 0 <=? ret_ then ret (to_int bytes, sin, buffer)
      else ret (ret_, sin, buffer)
    else
      let sleep_time := to_s64 (bytes * 1000000) in
      if i_sample_rate (i_common sin) =? 0 then undefined
      else
        let d := i_frame_size (i_common sin) / i_sample_rate (i_common sin) in
        if d =? 0 then undefined
        else
          let sleep_time :=
            match A with
            | LP64 => to_u64 sleep_time / d
            | ILP32 => Z.quot sleep_time d
            end in
          call (EvUsleep (to_u32 sleep_time)) (fun _ => tt) ;;;
          ret (ret_, sin, memset0 buffer bytes).

Definition in_pcm_standby (sin : stream_in_pcm) : M (Z * stream_in_pcm) :=
  match i_hw (i_common sin) with
  | Some hw =>
      sin <- (if stream_is_compressed_in E hw
              then do_in_compress_pcm_standby sin
              else do_in_pcm_standby sin) ;;
      ret (0, sin)
  | None => ret (0, sin)
  end.

(** The first half of [in_pcm_read]: choosing the transport and reading
    from it. *)
Definition in_pcm_read_dispatch (fuel : nat) (adev : audio_device)
    (sin : stream_in_pcm) (buffer : list Z) (bytes : Z)
    : M (Z * stream_in_pcm * list Z) :=
  match i_hw (i_common sin) with
  | None => ret (- EINVAL, sin, buffer)
  | Some hw =>
      routes <- ask (fun w => get_current_routes E w hw) ;;
      if routes =? 0 then ret (- EINVAL, sin, buffer)
      else if stream_is_compressed_in E hw
      then
        r <- do_in_compress_pcm_read sin buffer bytes ;;
        let '(n, sin, buffer) := r in
        ret (to_int n, sin, buffer)
      else
        r <- do_in_pcm_read fuel adev sin buffer bytes ;;
        let '(n, sin, buffer) := r in
        ret (to_int n, sin, buffer)
  end.

Definition in_pcm_read (fuel : nat) (adev : audio_device)
    (sin : stream_in_pcm) (buffer : list Z) (bytes : Z)
    : M (Z * stream_in_pcm * list Z) :=
  r <- in_pcm_read_dispatch fuel adev sin buffer bytes ;;
  let '(ret_, sin, buffer) := r in
  (* If error, no data or muted, return a buffer of zeros and delay for
     the time it would take to capture that much audio at the current
     sample rate. *)
  r <- (if (ret_ <=? 0) || mic_mute adev then
          let buffer := memset0 buffer bytes in
          (* Only delay if we failed to capture any audio *)
          (if ret_ <=? 0 then do_in_realtime_delay (i_common sin) bytes
           else ret tt) ;;;
          ret (to_int bytes, buffer)
        else ret (ret_, buffer)) ;;
  let '(ret_, buffer) := r in
  c <- do_in_set_read_timestamp (i_common sin) ;;
  ret (ret_, set_i_common sin c, buffer).

(** [in->stream.common.standby] is [in_pcm_standby] for every input
    stream ([do_init_in_pcm]).  The stream object is freed: only the
    device comes back. *)
Definition do_close_in_common (adev : audio_device) (p : ptr)
    (sin : stream_in_pcm) : M audio_device :=
  r <- in_pcm_standby sin ;;
  let sin := snd r in
  (* active_voice_control is not cleared by standby so we must clear it
     here when stream is closed *)
  adev <- match active_voice_control adev with
          | Some q =>
              if q =? p then
                voice_trigger_audio_ended_locked
                  (set_active_voice_control adev None)
              else ret adev
          | None => ret adev
          end ;;
  match i_hw (i_common sin) with
  | Some h => call (EvReleaseStream h) (fun _ => tt)
  | None => ret tt
  end ;;;
  call EvFree (fun _ => tt) ;;;
  ret adev.

End InputStream.

(** ** Reference behaviour, following the specification *)

(** The transition table of the Voice Trigger Arbitrator as the
    specification tabulates it (section 4.5): state x event -> state. *)
Definition spec_transition (s : voice_state) (ev : voice_event)
    : voice_state :=
  match ev, s with
  | evEnable, eVoiceTriggerIdle => eVoiceTriggerArmed
  | evEnable, eVoiceTriggerFired => eVoiceTriggerArmed
  | evEnable, eVoiceRecogIdle => eVoiceRecogArmed
  | evEnable, eVoiceRecogAudio => eVoiceRecogReArm
  | evDisable, eVoiceTriggerFired => eVoiceTriggerIdle
  | evDisable, eVoiceTriggerArmed => eVoiceTriggerIdle
  | evDisable, eVoiceRecogArmed => eVoiceRecogIdle
  | evDisable, eVoiceRecogReArm => eVoiceRecogAudio
  | evTriggerFired, eVoiceTriggerArmed => eVoiceTriggerFired
  | evTriggerFired, eVoiceRecogArmed => eVoiceRecogFired
  | evAudioCaptureStarted, eVoiceRecogFired => eVoiceRecogAudio
  | evAudioCaptureEnded, eVoiceRecogAudio => eVoiceRecogIdle
  | evAudioCaptureEnded, eVoiceRecogReArm => eVoiceRecogArmed
  | _, s => s
  end.

(** Registration of a voice-control input as the specification words it:
    a registration held by a different stream is cleared and
    [audioCaptureEnded] is emitted for it, then the new registration takes
    effect and [audioCaptureStarted] is emitted. *)
Definition spec_register_voice_control (adev : audio_device) (p : ptr)
    : M audio_device :=
  adev <- match active_voice_control adev with
          | Some q =>
              if q =? p then ret adev
              else voice_trigger_audio_ended_locked
                     (set_active_voice_control adev None)
          | None => ret adev
          end ;;
  voice_trigger_audio_started_locked (set_active_voice_control adev (Some p)).

(** The events a real-time delay for [bytes] adds to the trace [w]: none
    when there is no previous read; otherwise the clock is read, and a
    sleep for the remainder follows when less time has elapsed since the
    previous read than [bytes] represent at the stream's rate. *)
Definition realtime_delay_events (A : abi) (E : Env) (c : stream_in_common)
    (bytes : Z) (w : trace) : list event :=
  if last_read_ns c =? 0 then []
  else
    let elapsed_ns := to_s64 (systemTime E w - last_read_ns c) in
    let required_ns := to_s64 (Z.shiftl (required_interval A c bytes) 19) in
    if elapsed_units A elapsed_ns <? required_interval A c bytes
    then [EvNanosleep
            (mk_timespec 0 (to_long A (to_s64 (required_ns - elapsed_ns))));
          EvSystemTime]
    else [EvSystemTime].

(** The frames a script of pulls consumes, and the condition that the
    converter never reports more than a pull offered and never pulls from
    a drained buffer. *)
Fixpoint script_consumed (script : list (Z * Z)) : Z :=
  match script with
  | [] => 0
  | (_, used) :: script' => used + script_consumed script'
  end.

Fixpoint script_within (buffered : Z) (script : list (Z * Z)) : Prop :=
  match script with
  | [] => True
  | (want, used) :: script' =>
      0 < buffered /\ 0 <= used <= Z.min want buffered
      /\ script_within (buffered - used) script'
  end.

(** ** Concrete devices, streams and environments *)

Definition hw_generic : hw_stream := mk_hw_stream 100 0 0 48000 4 256.
Definition hw_compressed : hw_stream := mk_hw_stream 200 0 1 16000 0 0.
Definition hw_trigger : hw_stream := mk_hw_stream 300 0 2 16000 0 0.

Definition ts0 : timespec := mk_timespec 0 0.

(** An environment in which every collaborator succeeds; the clock
    advances by one millisecond per external call.  [routes] is what
    [get_current_routes] reports and [rd] what a compressed read
    returns. *)
Definition env_ok (routes rd : Z) : Env :=
  mk_Env
    (fun _ _ => None)
    (fun _ _ _ _ => Some hw_generic)
    (fun _ _ => routes)
    (fun h => hw_addr h =? 200)
    (fun _ _ _ _ _ => Some 7)
    (fun _ _ => true)
    (fun _ frames => 4 * frames)
    (fun _ _ _ => 0)
    (fun _ _ n => (0, repeat 1 (Z.to_nat n)))
    (fun _ _ => (0, 128, mk_timespec 5 0))
    (fun _ _ _ => Some 9)
    (fun _ _ => true)
    (fun _ _ n => (rd, repeat 1 (Z.to_nat (Z.max 0 rd))))
    (fun _ => 0)
    (fun _ _ => true)
    (fun _ _ _ _ => (0, Some 11))
    (fun _ _ n => [(n, n)])
    (fun _ _ n => (n, repeat 1 (Z.to_nat n)))
    (fun w => 1000000 * (1 + Z.of_nat (length w))).

Definition adev_idle : audio_device :=
  mk_audio_device false false None eVoiceRecogIdle 0 None None.

(** A device whose recognition path is capturing audio for stream 1. *)
Definition adev_capturing : audio_device :=
  mk_audio_device false false (Some 1) eVoiceRecogAudio 0 None
    (Some hw_trigger).

Definition adev_armed : audio_device :=
  mk_audio_device false false None eVoiceTriggerArmed 0 None
    (Some hw_trigger).

(** A 16-bit stereo 48 kHz output stream as [adev_open_output_stream]
    leaves it. *)
Definition out_fresh : stream_out_pcm :=
  do_init_out_pcm
    (mk_stream_out_pcm
       (mk_stream_out_common hw_generic true 1 3 2 48000 4 0 0)
       None 0 0 0 0 0 0).

(** A 16-bit mono 16 kHz input stream as [adev_open_input_stream] leaves
    it: in standby, no route, no source. *)
Definition in_fresh : stream_in_pcm :=
  mk_stream_in_pcm
    (mk_stream_in_common None true 4 1 16 1 16000 2
       IN_COMPRESS_BUFFER_SIZE_DEFAULT 0 0)
    None 0 0 0 0
    (mk_in_resampler None None 0 0 0 0).

(** The same stream reading from the compressed route, after a first
    read at t = 1 ms. *)
Definition in_active_compressed : stream_in_pcm :=
  mk_stream_in_pcm
    (mk_stream_in_common (Some hw_compressed) false 4 1 16 1 16000 2
       8192 6 1000000)
    (Some 9) 0 0 0 0
    (mk_in_resampler None None 0 0 0 0).

(** A stream whose bridge holds a period of 256 frames of which 100 are
    already consumed. *)
Definition in_bridged : stream_in_pcm :=
  mk_stream_in_pcm
    (mk_stream_in_common (Some hw_generic) false 4 1 16 1 16000 2
       192 0 1000000)
    (Some 7) 48000 1 256 4
    (mk_in_resampler (Some 11) (Some (repeat 1 256%nat)) 512 256 156 0).

(** ** The claims that the code does not meet, as they are worded *)

(** C6 as worded: a write to an unrouted output reports the whole byte
    count as consumed and reaches no transport. *)
Definition unrouted_write_consumes_all (A : abi) (E : Env)
    (adev : audio_device) (out : stream_out_pcm) (bytes : Z) (w : trace)
    : Prop :=
  get_current_routes E w (o_hw (o_common out)) = 0 ->
  exists out',
    out_pcm_write A E adev out bytes w = Some (bytes, out', w).

(** C5 as worded: the write that takes an output stream out of standby
    starts both frame counters from 0: afterwards each holds the frames of that write
    alone. *)
Definition activation_resets_both_counters (A : abi) (E : Env)
    (adev : audio_device) (out : stream_out_pcm) (bytes : Z) (w : trace)
    : Prop :=
  o_standby (o_common out) = true ->
  forall r out' w',
    out_pcm_write A E adev out bytes w = Some (r, out', w') ->
    o_standby (o_common out') = false ->
    hw_frames_written out' = hw_frames_rendered out'
    /\ (hw_frames_rendered out' = 0
        \/ hw_frames_rendered out' = bytes / o_frame_size (o_common out)).


(** C2 as worded: registering stream [p] as the voice-control input while
    another stream holds the registration leaves the device as
    [spec_register_voice_control] does. *)
Definition registration_ends_previous_capture (E : Env)
    (adev : audio_device) (p : ptr) (sin : stream_in_pcm) (devices : Z)
    (w : trace) : Prop :=
  forall q r changed sin' adev' w' adev_spec w_spec,
    active_voice_control adev = Some q -> q <> p ->
    change_input_source_locked E adev p sin AUDIO_SOURCE_VOICE_RECOGNITION
      devices w = Some (r, changed, sin', adev', w') ->
    changed = true ->
    spec_register_voice_control adev p w = Some (adev_spec, w_spec) ->
    adev' = adev_spec.

(** The output stream [out_fresh] after a write of 2048 frames and a
    standby. *)
Definition out_parked : stream_out_pcm :=
  mk_stream_out_pcm
    (mk_stream_out_common hw_generic true 1 3 2 48000 4 1024 21)
    None 48000 2 256 4 2048 2048.

(** ** Conditions under which a read is defined *)

(** What the throttling depends on: frame size, sample rate and the time
    of the previous read. *)
Definition timing (c : stream_in_common) : Z * Z * Z :=
  (i_frame_size c, i_sample_rate c, last_read_ns c).

(** The test of [get_next_buffer] for a mono stream on a stereo path. *)
Definition discards_right (sin : stream_in_pcm) : bool :=
  (i_channel_count (i_common sin) =? 1) && (i_hw_channel_count sin =? 2).

(** The rate converter makes progress: asked for [n > 0] frames it
    produces at least one and at most [n]. *)
Definition converter_progress (E : Env) : Prop :=
  forall w r n, 0 < n -> 0 < fst (resample_result E w r n) <= n.

(** The most recent event of a trace is a hardware read that failed. *)
Definition read_refused (E : Env) (w : trace) : bool :=
  match w with
  | EvPcmRead p n :: w0 => negb (fst (pcm_read E w0 p n) =? 0)
  | _ => false
  end.

(** The rate converter makes progress while its pulls are served: asked
    for [n > 0] frames it produces at least one and at most [n], unless
    its last pull was refused by a failed hardware read -- it may then
    report any count, also 0. *)
Definition converter_progress_while_served (E : Env) : Prop :=
  forall w r n,
    0 < n -> read_refused E w = false ->
    0 < fst (resample_result E w r n) <= n.

(** The divisions of the transport read are defined.  On a compressed
    route the poll wait and the throttle divide by the product of frame
    size and sample rate.  On a PCM route the byte count is divided by the
    frame size (a [size_t]); with audio disabled a sleep time is divided by
    [frame_size / sample_rate]; with audio enabled the bridge buffer is
    divided by the hardware channel count times the frame size, and on an
    active stream no channel is discarded (the hardware channel count is
    the one the stream was opened with).  A sample rate of 0 -- the
    hardware's rate is then used -- is allowed on the PCM route. *)
Definition transport_read_defined (A : abi) (E : Env) (adev : audio_device)
    (sin : stream_in_pcm) (w : trace) : Prop :=
  forall hw,
    i_hw (i_common sin) = Some hw ->
    get_current_routes E w hw <> 0 ->
    if stream_is_compressed_in E hw then
      to_size A (i_frame_size (i_common sin) * i_sample_rate (i_common sin))
      <> 0
    else
      0 < i_frame_size (i_common sin)
      /\ if disable_audio adev then
           i_sample_rate (i_common sin) <> 0
           /\ i_frame_size (i_common sin) / i_sample_rate (i_common sin) <> 0
         else
           to_size A (in_pcm_cfg_channel_count sin
                      * i_frame_size (i_common sin)) <> 0
           /\ (i_standby (i_common sin) = false ->
               discards_right sin = false).

(** ** Notions the further properties are stated with *)

(** The three kinds of hardware the states of [enum voice_state] belong
    to, as its comments group them: none, trigger-only, and full
    trigger+audio. *)
Inductive voice_mode := modeNone | modeTriggerOnly | modeRecognition.

Definition voice_mode_of (s : voice_state) : voice_mode :=
  match s with
  | eVoiceNone => modeNone
  | eVoiceTriggerIdle | eVoiceTriggerArmed | eVoiceTriggerFired =>
      modeTriggerOnly
  | eVoiceRecogIdle | eVoiceRecogArmed | eVoiceRecogFired
  | eVoiceRecogAudio | eVoiceRecogReArm => modeRecognition
  end.

(** Named streams the configuration manager handed out (the calls of
    [get_named_stream] that did not answer NULL), and streams handed back
    to it, in a trace. *)
Fixpoint acquisitions (E : Env) (w : trace) : nat :=
  match w with
  | [] => O
  | EvGetNamedStream name :: w' =>
      match get_named_stream E w' name with
      | Some _ => S (acquisitions E w')
      | None => acquisitions E w'
      end
  | _ :: w' => acquisitions E w'
  end.

Fixpoint releases (w : trace) : nat :=
  match w with
  | [] => O
  | EvReleaseStream _ :: w' => S (releases w')
  | _ :: w' => releases w'
  end.

(** [n] rounds of arming the trigger and seeing it fire. *)
Fixpoint arm_and_fire (n : nat) : list voice_event :=
  match n with
  | O => []
  | S n' => evEnable :: evTriggerFired :: arm_and_fire n'
  end.

(** [env_ok] with a configuration that defines every named stream. *)
Definition env_named : Env :=
  mk_Env
    (fun _ _ => Some hw_trigger)
    (get_stream (env_ok 4 0))
    (get_current_routes (env_ok 4 0))
    (stream_is_compressed_in (env_ok 4 0))
    (pcm_open (env_ok 4 0))
    (pcm_is_ready (env_ok 4 0))
    (pcm_frames_to_bytes (env_ok 4 0))
    (pcm_write (env_ok 4 0))
    (pcm_read (env_ok 4 0))
    (pcm_get_htimestamp (env_ok 4 0))
    (compress_open (env_ok 4 0))
    (is_compress_ready (env_ok 4 0))
    (compress_read (env_ok 4 0))
    (errno (env_ok 4 0))
    (malloc_ok (env_ok 4 0))
    (create_resampler (env_ok 4 0))
    (resample_script (env_ok 4 0))
    (resample_result (env_ok 4 0))
    (systemTime (env_ok 4 0)).

(** [env_ok] with a PCM transport that never becomes ready. *)
Definition env_not_ready : Env :=
  mk_Env
    (get_named_stream (env_ok 4 0))
    (get_stream (env_ok 4 0))
    (get_current_routes (env_ok 4 0))
    (stream_is_compressed_in (env_ok 4 0))
    (pcm_open (env_ok 4 0))
    (fun _ _ => false)
    (pcm_frames_to_bytes (env_ok 4 0))
    (pcm_write (env_ok 4 0))
    (pcm_read (env_ok 4 0))
    (pcm_get_htimestamp (env_ok 4 0))
    (compress_open (env_ok 4 0))
    (is_compress_ready (env_ok 4 0))
    (compress_read (env_ok 4 0))
    (errno (env_ok 4 0))
    (malloc_ok (env_ok 4 0))
    (create_resampler (env_ok 4 0))
    (resample_script (env_ok 4 0))
    (resample_result (env_ok 4 0))
    (systemTime (env_ok 4 0)).

(** A stream in standby on the PCM route, as [in_pcm_set_parameters]
    leaves it once a source is chosen. *)
Definition in_routed : stream_in_pcm :=
  set_i_common in_fresh (set_i_hw (i_common in_fresh) (Some hw_generic)).

(** [env_ok] with a PCM transport whose reads fail with -5. *)
Definition env_read_fails : Env :=
  mk_Env
    (get_named_stream (env_ok 4 0))
    (get_stream (env_ok 4 0))
    (get_current_routes (env_ok 4 0))
    (stream_is_compressed_in (env_ok 4 0))
    (pcm_open (env_ok 4 0))
    (pcm_is_ready (env_ok 4 0))
    (pcm_frames_to_bytes (env_ok 4 0))
    (pcm_write (env_ok 4 0))
    (fun _ _ _ => (-5, []))
    (pcm_get_htimestamp (env_ok 4 0))
    (compress_open (env_ok 4 0))
    (is_compress_ready (env_ok 4 0))
    (compress_read (env_ok 4 0))
    (errno (env_ok 4 0))
    (malloc_ok (env_ok 4 0))
    (create_resampler (env_ok 4 0))
    (resample_script (env_ok 4 0))
    (resample_result (env_ok 4 0))
    (systemTime (env_ok 4 0)).

(** [in_bridged] once the converter has consumed the whole period. *)
Definition in_drained : stream_in_pcm :=
  set_resampler in_bridged (set_frames_in (resampler in_bridged) 0).

(** A mono stream on a two-channel path whose bridge of 4 frames is
    drained. *)
Definition in_mono_on_stereo : stream_in_pcm :=
  mk_stream_in_pcm (i_common in_bridged) (Some 7) 48000 2 256 4
    (mk_in_resampler (Some 11) (Some (repeat 0 8%nat)) 8 4 0 0).

(** A stream in standby on the compressed route. *)
Definition in_routed_compressed : stream_in_pcm :=
  set_i_common in_fresh (set_i_hw (i_common in_fresh) (Some hw_compressed)).

(** [env_ok] with no compressed device: [compress_open] fails and leaves
    [errno] at [ENODEV]. *)
Definition env_no_compress : Env :=
  mk_Env
    (get_named_stream (env_ok 4 0))
    (get_stream (env_ok 4 0))
    (get_current_routes (env_ok 4 0))
    (stream_is_compressed_in (env_ok 4 0))
    (pcm_open (env_ok 4 0))
    (pcm_is_ready (env_ok 4 0))
    (pcm_frames_to_bytes (env_ok 4 0))
    (pcm_write (env_ok 4 0))
    (pcm_read (env_ok 4 0))
    (pcm_get_htimestamp (env_ok 4 0))
    (fun _ _ _ => None)
    (is_compress_ready (env_ok 4 0))
    (compress_read (env_ok 4 0))
    (fun _ => ENODEV)
    (malloc_ok (env_ok 4 0))
    (create_resampler (env_ok 4 0))
    (resample_script (env_ok 4 0))
    (resample_result (env_ok 4 0))
    (systemTime (env_ok 4 0)).

(** ** Parameter strings *)

(** A C string is modelled by the [string] of its characters before the
    terminating NUL.  [strdup] copies it, or fails. *)

Definition ENOTSUP : Z := 95.

Definition AUDIO_PARAMETER_STREAM_SUP_FORMATS : string := "sup_formats".
Definition AUDIO_FORMAT_PCM_16_BIT : Z := 1.
Definition AUDIO_FORMAT_PCM_8_BIT : Z := 2.
Definition AUDIO_FORMAT_PCM_32_BIT : Z := 3.
Definition AUDIO_FORMAT_PCM_8_24_BIT : Z := 4.
Definition AUDIO_FORMAT_PCM_FLOAT : Z := 5.
Definition AUDIO_FORMAT_PCM_24_BIT_PACKED : Z := 6.

Definition is_delim (c : ascii) : bool := Ascii.eqb c ";"%char.

(** [s + strspn(s, ";")]. *)
Fixpoint strspn_delim (s : string) : string :=
  match s with
  | EmptyString => EmptyString
  | String c s' => if is_delim c then strspn_delim s' else s
  end.

(** The token that ends at the first [';'] of [s] (or at its end), and
    what follows that [';']. *)
Fixpoint strcspn_delim (s : string) : string * string :=
  match s with
  | EmptyString => (EmptyString, EmptyString)
  | String c s' =>
      if is_delim c then (EmptyString, s')
      else let '(token, rest) := strcspn_delim s' in (String c token, rest)
  end.

(** [strtok_r(s, ";", &temp)], and [strtok_r(NULL, ";", &temp)] when [s]
    is what the previous call left in [temp]: the next token and the new
    [temp], or NULL. *)
Definition strtok_r (s : string) : option (string * string) :=
  match strspn_delim s with
  | EmptyString => None
  | String c s' => Some (strcspn_delim (String c s'))
  end.

(** [pval = strchr(p, '=')]: the text before the first ['='] and the text
    after it ([pval + 1]), or NULL. *)
Fixpoint strchr_eq (p : string) : option (string * string) :=
  match p with
  | EmptyString => None
  | String c p' =>
      if Ascii.eqb c "="%char then Some (EmptyString, p')
      else match strchr_eq p' with
           | Some (before, after) => Some (String c before, after)
           | None => None
           end
  end.

(** One call of [apply_use_case] of the configuration manager. *)
Record use_case_call := mk_use_case_call {
  uc_stream : hw_stream;
  uc_setting : string;
  uc_case : string
}.

(** The calls made so far, the most recent first. *)
Definition use_case_log := list use_case_call.

Section ParameterStrings.

(** What [apply_use_case] answers, given the calls made before. *)
Variable apply_use_case : use_case_log -> hw_stream -> string -> string -> Z.

(** [while (p) { ... p = strtok_r(NULL, ";", &temp); }]; [fuel] bounds the
    number of tokens. *)
Fixpoint stream_invoke_usecases_loop (fuel : nat) (stream : hw_stream)
    (temp : string) (ret_ : Z) (log : use_case_log)
    : option (Z * use_case_log) :=
  match strtok_r temp with
  | None => Some (ret_, log)
  | Some (p, temp) =>
      match fuel with
      | O => None
      | S fuel' =>
          match strchr_eq p with
          | Some (setting, String c value) =>
              (* pval && (pval[1] != '\0') *)
              let r := apply_use_case log stream setting (String c value) in
              stream_invoke_usecases_loop fuel' stream temp
                (if 0 <=? r then 0 else ret_)
                (mk_use_case_call stream setting (String c value) :: log)
          | _ => stream_invoke_usecases_loop fuel' stream temp ret_ log
          end
      end
  end.

(** [strdup_ok] tells whether [strdup(kvpairs)] succeeds.  A string of
    [n] characters holds at most [n] tokens. *)
Definition stream_invoke_usecases (strdup_ok : bool)
    (stream : option hw_stream) (kvpairs : string) (log : use_case_log)
    : option (Z * use_case_log) :=
  if negb strdup_ok then Some (- ENOMEM, log)
  else
    match stream with
    | Some h =>
        stream_invoke_usecases_loop (String.length kvpairs) h kvpairs
          (- ENOTSUP) log
    | None => Some (- ENOTSUP, log)
    end.

End ParameterStrings.

(** [strncat(outputBuffer, src, 256)] on [char outputBuffer[256]]: at
    most 256 characters of [src] and a NUL are appended; writing past the
    array has no defined result. *)
Definition strncat_256 (dest src : string) : option string :=
  let src := substring 0 256 src in
  if Z.of_nat (String.length dest + String.length src) <? 256
  then Some (dest ++ src)%string
  else None.

Definition format_entry (format : Z) : string :=
  if format =? AUDIO_FORMAT_PCM_16_BIT then "=AUDIO_FORMAT_PCM_16_BIT"
  else if format =? AUDIO_FORMAT_PCM_8_BIT then "=AUDIO_FORMAT_PCM_8_BIT"
  else if format =? AUDIO_FORMAT_PCM_32_BIT then "=AUDIO_FORMAT_PCM_32_BIT"
  else if format =? AUDIO_FORMAT_PCM_8_24_BIT
  then "=AUDIO_FORMAT_PCM_8_24_BIT"
  else if format =? AUDIO_FORMAT_PCM_FLOAT then "=AUDIO_FORMAT_PCM_FLOAT"
  else if format =? AUDIO_FORMAT_PCM_24_BIT_PACKED
  then "=AUDIO_FORMAT_PCM_24_BIT_PACKED"
  else "=AUDIO_FORMAT_INVALID".

(** The loop shared, word for word, by [out_get_parameters] and
    [in_get_parameters]. *)
Fixpoint get_parameters_loop (fuel : nat) (format : Z) (saveptr1 : string)
    (outputBuffer : string) : option string :=
  match strtok_r saveptr1 with
  | None => Some outputBuffer
  | Some (currentKey, saveptr1) =>
      match fuel with
      | O => None
      | S fuel' =>
          if String.eqb currentKey AUDIO_PARAMETER_STREAM_SUP_FORMATS then
            match strncat_256 outputBuffer
                    AUDIO_PARAMETER_STREAM_SUP_FORMATS with
            | Some outputBuffer =>
                match strncat_256 outputBuffer (format_entry format) with
                | Some outputBuffer =>
                    get_parameters_loop fuel' format saveptr1 outputBuffer
                | None => None
                end
            | None => None
            end
          else get_parameters_loop fuel' format saveptr1 outputBuffer
      end
  end.

(** [keys_ok] and [result_ok] tell whether the two [strdup] succeed: the
    first result is used unchecked (a NULL has no defined behaviour), the
    second is what the function returns, NULL included. *)
Definition get_parameters (keys_ok result_ok : bool) (format : Z)
    (keys : string) : option (option string) :=
  if negb keys_ok then None
  else
    match get_parameters_loop (String.length keys) format keys "" with
    | Some outputBuffer =>
        Some (if result_ok then Some outputBuffer else None)
    | None => None
    end.

Definition out_get_parameters (keys_ok result_ok : bool)
    (out : stream_out_common) (keys : string) : option (option string) :=
  get_parameters keys_ok result_ok (o_format out) keys.

Definition in_get_parameters (keys_ok result_ok : bool)
    (c : stream_in_common) (keys : string) : option (option string) :=
  get_parameters keys_ok result_ok (i_format c) keys.

(** *** What the parameter functions are compared with *)

(** The pieces of [s] between its [';'], empty ones included. *)
Fixpoint segments (s : string) : list string :=
  match s with
  | EmptyString => [EmptyString]
  | String c s' =>
      if is_delim c then EmptyString :: segments s'
      else match segments s' with
           | seg :: more => String c seg :: more
           | [] => [String c EmptyString]
           end
  end.

Definition tokens (s : string) : list string :=
  filter (fun t => negb (String.eqb t "")) (segments s).

(** A piece [setting=case] with a non-empty case: the setting is what
    precedes the first ['=']. *)
Definition setting_of (seg : string) : list (string * string) :=
  match strchr_eq seg with
  | Some (setting, String c value) => [(setting, String c value)]
  | _ => []
  end.

Definition use_case_pairs (s : string) : list (string * string) :=
  flat_map setting_of (segments s).

Definition call_of (stream : hw_stream) (kv : string * string)
    : use_case_call :=
  mk_use_case_call stream (fst kv) (snd kv).

(** Some call between the two logs was answered with a non-negative
    value. *)
Definition answered_ok
    (apply_use_case : use_case_log -> hw_stream -> string -> string -> Z)
    (before after : use_case_log) : Prop :=
  exists later c earlier,
    after = later ++ c :: earlier ++ before
    /\ 0 <= apply_use_case (earlier ++ before) (uc_stream c) (uc_setting c)
              (uc_case c).

(** [n] copies of [s], one after the other. *)
Fixpoint string_repeat (n : nat) (s : string) : string :=
  match n with
  | O => EmptyString
  | S n' => (s ++ string_repeat n' s)%string
  end.

(** The calls that a list of [setting=case] pairs stands for, made in
    order, and the status they leave: 0 as soon as one is accepted. *)
Fixpoint invoke_pairs
    (apply_use_case : use_case_log -> hw_stream -> string -> string -> Z)
    (stream : hw_stream) (pairs : list (string * string)) (ret_ : Z)
    (log : use_case_log) : Z * use_case_log :=
  match pairs with
  | [] => (ret_, log)
  | kv :: more =>
      invoke_pairs apply_use_case stream more
        (if 0 <=? apply_use_case log stream (fst kv) (snd kv) then 0
         else ret_)
        (call_of stream kv :: log)
  end.

(** ** Stream and device entry points *)

Definition AUDIO_CHANNEL_OUT_STEREO : Z := 0x3.
Definition AUDIO_CHANNEL_IN_MONO : Z := 0x10.
Definition OUT_CHANNEL_MASK_DEFAULT : Z := AUDIO_CHANNEL_OUT_STEREO.
Definition IN_CHANNEL_MASK_DEFAULT : Z := AUDIO_CHANNEL_IN_MONO.

(** [popcount] of an [unsigned int]. *)
Definition popcount (x : Z) : Z :=
  fold_left (fun n i => n + Z.b2z (Z.testbit x (Z.of_nat i))) (seq 0 32) 0.

Definition set_i_devices (c : stream_in_common) (v : Z) :=
  mk_stream_in_common (i_hw c) (i_standby c) v (i_format c)
    (i_channel_mask c) (i_channel_count c) (i_sample_rate c) (i_frame_size c)
    (i_buffer_size c) (input_source c) (last_read_ns c).

Definition set_voice_trig_mic (adev : audio_device) (v : Z) :=
  mk_audio_device (disable_audio adev) (mic_mute adev)
    (active_voice_control adev) (voice_st adev) v
    (global_stream adev) (voice_trig_stream adev).

Definition out_get_channels (out : stream_out_common) : Z :=
  if negb (o_channel_mask out =? 0) then o_channel_mask out
  else OUT_CHANNEL_MASK_DEFAULT.

Definition out_get_format (out : stream_out_common) : Z := o_format out.

Definition in_get_channels (c : stream_in_common) : Z :=
  if negb (i_channel_mask c =? 0) then i_channel_mask c
  else IN_CHANNEL_MASK_DEFAULT.

Definition in_get_format (c : stream_in_common) : Z := i_format c.

Section EntryPoints.

Variable A : abi.
Variable E : Env.

(** Values and inline functions of [system/audio.h] and
    [hardware/audio.h], which differ between releases of the platform:
    the masks of all output and input devices, and the frame size of a
    stream, computed from what its [get_format] and [get_channels]
    answer. *)
Variable AUDIO_DEVICE_OUT_ALL : Z.
Variable AUDIO_DEVICE_IN_ALL : Z.
Variable audio_stream_out_frame_size : Z -> Z -> Z.
Variable audio_stream_in_frame_size : Z -> Z -> Z.
Variable sizeof_stream_out_pcm : Z.
Variable sizeof_stream_in_pcm : Z.

(** Collaborators of the configuration manager that [Env] does not
    list. *)
Variable stream_is_compressed : hw_stream -> bool.
Variable get_routed_devices : trace -> hw_stream -> Z.
Variable is_named_stream_defined : string -> bool.
Variable apply_use_case : use_case_log -> hw_stream -> string -> string -> Z.

(** *** Output streams *)

Definition do_init_out_common (out : stream_out_common)
    (config : audio_config) (devices : Z) : M (Z * stream_out_common) :=
  let out :=
    mk_stream_out_common (o_hw out) true (ac_format config)
      (ac_channel_mask config) (to_int (popcount (ac_channel_mask config)))
      (ac_sample_rate config) (o_frame_size out) (o_buffer_size out)
      (o_latency out) in
  (* Default settings *)
  let out :=
    mk_stream_out_common (o_hw out) (o_standby out) (o_format out)
      (o_channel_mask out) (o_channel_count out) (o_sample_rate out)
      (to_size A (audio_stream_out_frame_size (out_get_format out)
                    (out_get_channels out)))
      (o_buffer_size out) (o_latency out) in
  (* Apply initial route *)
  call (EvApplyRoute (o_hw out) devices) (fun _ => tt) ;;;
  ret (0, out).

(** [config] and [stream_out] are the caller's objects behind the two
    pointers; they come back as they were when the function does not
    write them. *)
Definition adev_open_output_stream (adev : audio_device)
    (devices flags : Z) (config : audio_config)
    (stream_out : option stream_out_pcm)
    : M (Z * audio_config * option stream_out_pcm) :=
  let devices := Z.land devices AUDIO_DEVICE_OUT_ALL in
  hw <- call (EvGetStream devices flags config)
          (fun w => get_stream E w devices flags config) ;;
  match hw with
  | None => ret (- EINVAL, config, stream_out)
  | Some h =>
      ok <- call (EvMalloc sizeof_stream_out_pcm)
              (fun w => malloc_ok E w sizeof_stream_out_pcm) ;;
      if negb ok then ret (- ENOMEM, config, stream_out)
      else
        let out :=
          mk_stream_out_pcm (mk_stream_out_common h false 0 0 0 0 0 0 0)
            None 0 0 0 0 0 0 in
        r <- do_init_out_common (o_common out) config devices ;;
        let '(ret_, common) := r in
        let out := set_o_common out common in
        if ret_ <? 0 then
          call EvFree (fun _ => tt) ;;;
          ret (ret_, config, None)
        else
          let out := do_init_out_pcm out in
          (* Update config with initial stream settings *)
          let config :=
            mk_audio_config (o_sample_rate (o_common out))
              (o_channel_mask (o_common out)) (o_format (o_common out)) in
          ret (0, config, Some out)
  end.

Definition do_close_out_common (out : stream_out_pcm) : M unit :=
  call (EvReleaseStream (o_hw (o_common out))) (fun _ => tt) ;;;
  call EvFree (fun _ => tt).

Definition do_close_out_pcm (out : stream_out_pcm) : M unit :=
  out_pcm_standby out ;;;
  do_close_out_common out.

(** [out->close] is [do_close_out_pcm] for every output stream
    ([do_init_out_pcm]). *)
Definition adev_close_output_stream (out : stream_out_pcm) : M unit :=
  do_close_out_pcm out.

(** *** Input streams *)

Definition do_init_in_common (c : stream_in_common) (config : audio_config)
    (devices : Z) : Z * stream_in_common :=
  let c :=
    mk_stream_in_common (i_hw c) true (i_devices c) (ac_format config)
      (ac_channel_mask config) (to_int (popcount (ac_channel_mask config)))
      (ac_sample_rate config) (i_frame_size c) (i_buffer_size c)
      (input_source c) (last_read_ns c) in
  let c :=
    mk_stream_in_common (i_hw c) (i_standby c) (i_devices c) (i_format c)
      (i_channel_mask c) (i_channel_count c) (i_sample_rate c)
      (to_size A (audio_stream_in_frame_size (in_get_format c)
                    (in_get_channels c)))
      (i_buffer_size c) (input_source c) (last_read_ns c) in
  (* Save devices so we can apply initial routing after we've been told
     the input_source and opened the stream *)
  (0, set_i_devices c devices).

Definition do_init_in_pcm (sin : stream_in_pcm) : Z * stream_in_pcm :=
  (0, set_i_common sin
        (set_i_buffer_size (i_common sin) IN_COMPRESS_BUFFER_SIZE_DEFAULT)).

(** The result is what the function leaves in [*stream_in]. *)
Definition adev_open_input_stream (adev : audio_device) (devices : Z)
    (config : audio_config) : M (Z * option stream_in_pcm) :=
  ok <- call (EvMalloc sizeof_stream_in_pcm)
          (fun w => malloc_ok E w sizeof_stream_in_pcm) ;;
  if negb ok then
    call EvFree (fun _ => tt) ;;;
    ret (- ENOMEM, None)
  else
    let sin :=
      mk_stream_in_pcm
        (mk_stream_in_common None false 0 0 0 0 0 0 0 0 0)
        None 0 0 0 0 (mk_in_resampler None None 0 0 0 0) in
    let devices := Z.land devices AUDIO_DEVICE_IN_ALL in
    let '(ret_, c) := do_init_in_common (i_common sin) config devices in
    let sin := set_i_common sin c in
    if ret_ <? 0 then
      call EvFree (fun _ => tt) ;;;
      ret (ret_, None)
    else
      let '(ret_, sin) := do_init_in_pcm sin in
      if ret_ <? 0 then
        call EvFree (fun _ => tt) ;;;
        ret (ret_, None)
      else ret (0, Some sin).

Definition do_in_compress_pcm_close (sin : stream_in_pcm) : M unit :=
  match i_compress sin with
  | Some c =>
      call (EvCompressStop (Some c)) (fun _ => tt) ;;;
      call (EvCompressClose (Some c)) (fun _ => tt)
  | None => ret tt
  end.

Definition do_close_in_pcm (adev : audio_device) (p : ptr)
    (sin : stream_in_pcm) : M audio_device :=
  match i_hw (i_common sin) with
  | Some hw =>
      if stream_is_compressed hw then do_in_compress_pcm_close sin
      else ret tt
  | None => ret tt
  end ;;;
  do_close_in_common E adev p sin.

(** [in->close] is [do_close_in_pcm] for every input stream
    ([do_init_in_pcm]). *)
Definition adev_close_input_stream (adev : audio_device) (p : ptr)
    (sin : stream_in_pcm) : M audio_device :=
  do_close_in_pcm adev p sin.

(** [routing] is what [common_get_routing_param] finds in [kvpairs]: the
    value of the routing key as an [uint32_t], when the key is there.
    [source] is the value of the input-source key, as [atoi] reads it,
    when that key is there.  The use cases are logged apart from the
    trace. *)
Definition in_pcm_set_parameters (adev : audio_device) (p : ptr)
    (sin : stream_in_pcm) (routing source : option Z) (kvpairs : string)
    (strdup_ok : bool) (log : use_case_log)
    : M (Z * stream_in_pcm * audio_device * use_case_log) :=
  let new_routing := match routing with Some v => v | None => 0 end in
  let routing_changed :=
    match routing with Some _ => true | None => false end in
  let finish (routing_changed : bool) (new_routing : Z)
        (sin : stream_in_pcm) (adev : audio_device) :=
    sin <- (if routing_changed then
              let sin :=
                set_i_common sin
                  (set_i_devices (i_common sin) new_routing) in
              match i_hw (i_common sin) with
              | Some h =>
                  call (EvApplyRoute h new_routing) (fun _ => tt) ;;;
                  ret sin
              | None => ret sin
              end
            else ret sin) ;;
    match stream_invoke_usecases apply_use_case strdup_ok
            (i_hw (i_common sin)) kvpairs log with
    | Some (_, log) => ret (0, sin, adev, log)
    | None => undefined
    end in
  match source with
  | Some value =>
      devices <- (if routing_changed then ret new_routing
                  else match i_hw (i_common sin) with
                       | Some h =>
                           (* Route new stream to same devices as current
                              stream *)
                           ask (fun w => to_u32 (get_routed_devices w h))
                       | None => ret 0
                       end) ;;
      r <- change_input_source_locked E adev p sin value devices ;;
      let '(ret_, _, sin, adev) := r in
      if ret_ <? 0 then ret (0, sin, adev, log)
      else
        (* We must apply any existing routing to the new stream *)
        finish true devices sin adev
  | None => finish routing_changed new_routing sin adev
  end.

(** *** Device parameters *)

(** [mic] and [value] are what [str_parms_get_str] finds for the keys
    [voice_trigger_mic] (read by [atoi]) and [voice_trigger]. *)
Definition voice_trigger_set_params (adev : audio_device) (mic : option Z)
    (value : option string) : M audio_device :=
  let adev :=
    match mic with
    | Some v => set_voice_trig_mic adev (to_u32 v)
    | None => adev
    end in
  match value with
  | Some s =>
      if String.eqb s "2" then voice_trigger_triggered adev
      else if String.eqb s "1" then voice_trigger_enable E adev
      else if String.eqb s "0" then voice_trigger_disable adev
      else ret adev
  | None => ret adev
  end.

Definition voice_trigger_init (adev : audio_device) : audio_device :=
  if is_named_stream_defined kVoiceRecogStreamName
  then set_voice_st adev eVoiceRecogIdle
  else if is_named_stream_defined kVoiceTriggerStreamName
  then set_voice_st adev eVoiceTriggerIdle
  else set_voice_st adev eVoiceNone.

(** [parms_ok] tells whether [str_parms_create_str] succeeds. *)
Definition adev_set_parameters (adev : audio_device) (parms_ok : bool)
    (mic : option Z) (value : option string) (kvpairs : string)
    (strdup_ok : bool) (log : use_case_log)
    : M (Z * audio_device * use_case_log) :=
  adev <- (if parms_ok then voice_trigger_set_params adev mic value
           else ret adev) ;;
  match global_stream adev with
  | Some g =>
      match stream_invoke_usecases apply_use_case strdup_ok (Some g)
              kvpairs log with
      | Some (_, log) => ret (0, adev, log)
      | None => undefined
      end
  | None => ret (0, adev, log)
  end.

(** A sequence of calls of [adev_set_parameters], each with its own
    parsed keys and string. *)
Fixpoint adev_set_parameters_each
    (requests : list (option Z * option string * string))
    (adev : audio_device) (log : use_case_log)
    : M (audio_device * use_case_log) :=
  match requests with
  | [] => ret (adev, log)
  | (mic, value, kvpairs) :: more =>
      r <- adev_set_parameters adev true mic value kvpairs true log ;;
      let '(_, adev, log) := r in
      adev_set_parameters_each more adev log
  end.

End EntryPoints.

(** ** The throttle of the compressed path, as C10 words it *)



(** ** Frames and samples in the bridge buffer *)

(** The bridge buffer is an array of 16-bit samples.  The converter is
    created for the stream's channel count ([in_resampler_init]), so a
    frame of the data it is handed is [channel_count] samples, and frame
    [k] of the buffer begins at sample [k * channel_count]. *)
Definition frame_start (sin : stream_in_pcm) (k : Z) : Z :=
  k * i_channel_count (i_common sin).

(** A 16-bit stereo 16 kHz stream in standby on the PCM route. *)
Definition in_routed_stereo : stream_in_pcm :=
  mk_stream_in_pcm
    (mk_stream_in_common (Some hw_generic) true 4 1 12 2 16000 4
       IN_COMPRESS_BUFFER_SIZE_DEFAULT 0 0)
    None 0 0 0 0
    (mk_in_resampler None None 0 0 0 0).

(** ** Streams and environments for the read that fails *)

(** [env_read_fails] with a converter that reports no frame when a pull
    of its was refused. *)
Definition env_starved : Env :=
  mk_Env
    (get_named_stream env_read_fails)
    (get_stream env_read_fails)
    (get_current_routes env_read_fails)
    (stream_is_compressed_in env_read_fails)
    (pcm_open env_read_fails)
    (pcm_is_ready env_read_fails)
    (pcm_frames_to_bytes env_read_fails)
    (pcm_write env_read_fails)
    (pcm_read env_read_fails)
    (pcm_get_htimestamp env_read_fails)
    (compress_open env_read_fails)
    (is_compress_ready env_read_fails)
    (compress_read env_read_fails)
    (errno env_read_fails)
    (malloc_ok env_read_fails)
    (create_resampler env_read_fails)
    (resample_script env_read_fails)
    (fun w r n =>
       match w with
       | EvPcmRead _ _ :: _ => (0, [])
       | _ => resample_result env_read_fails w r n
       end)
    (systemTime env_read_fails).

(** A 16-bit mono stream opened with sample rate 0 -- [do_init_in_common]
    copies the rate of the configuration, and [in_get_sample_rate] then
    answers the hardware's rate -- in standby on the PCM route. *)
Definition in_default_rate : stream_in_pcm :=
  mk_stream_in_pcm
    (mk_stream_in_common (Some hw_generic) true 4 1 16 1 0 2
       IN_COMPRESS_BUFFER_SIZE_DEFAULT 0 0)
    None 0 0 0 0
    (mk_in_resampler None None 0 0 0 0).

(** ** The use cases of the device's parameter strings *)

(** The calls of [apply_use_case] that a sequence of
    [adev_set_parameters] makes on the global stream [g]: for each
    request, in order, one call per "setting=case" pair of its string
    (the log is most recent first); none when there is no global
    stream. *)
Fixpoint global_use_cases (g : option hw_stream)
    (requests : list (option Z * option string * string))
    (log : use_case_log) : use_case_log :=
  match requests with
  | [] => log
  | (_, _, kvpairs) :: more =>
      global_use_cases g more
        match g with
        | Some h => rev (map (call_of h) (use_case_pairs kvpairs)) ++ log
        | None => log
        end
  end.

(** * Properties *)

(** ** Proof automation *)

(** Case analysis on an innermost [if] or [match] scrutinee of the
    goal. *)
Ltac break_match :=
  match goal with
  | |- context [match ?x with _ => _ end] =>
      lazymatch x with
      | context [match _ with _ => _ end] => fail
      | _ => destruct x eqn:?
      end
  end.

(** Boolean comparisons on [Z] in the context, as propositions. *)
Ltac eqb_props :=
  repeat match goal with
         | H : (_ =? _) = true |- _ => apply Z.eqb_eq in H
         | H : (_ =? _) = false |- _ => apply Z.eqb_neq in H
         | H : (_ <? _) = true |- _ => apply Z.ltb_lt in H
         | H : (_ <? _) = false |- _ => apply Z.ltb_ge in H
         | H : (_ <=? _) = true |- _ => apply Z.leb_le in H
         | H : (_ <=? _) = false |- _ => apply Z.leb_gt in H
         end.

(** The same on a hypothesis. *)
Ltac break_match_in H :=
  match type of H with
  | context [match ?x with _ => _ end] =>
      lazymatch x with
      | context [match _ with _ => _ end] => fail
      | _ => destruct x eqn:?
      end
  end.

(** Results of computations that returned. *)
Ltac invert_results :=
  repeat match goal with
         | H : Some _ = Some _ |- _ => injection H as H
         | H : (_, _) = (_, _) |- _ => injection H as ? H
         | H : None = Some _ |- _ => discriminate H
         | H : undefined _ = Some _ |- _ => discriminate H
         end;
  subst.

(** ** Integer wrap-around *)

Lemma wrap_u_small bits x :
  0 <= x < 2 ^ bits -> wrap_u bits x = x.
Proof. intros H. unfold wrap_u. apply Z.mod_small. exact H. Qed.

Lemma wrap_s_small bits x :
  0 < bits -> - 2 ^ (bits - 1) <= x < 2 ^ (bits - 1) -> wrap_s bits x = x.
Proof.
  intros Hb H. unfold wrap_s.
  assert (Hp : 2 ^ bits = 2 * 2 ^ (bits - 1)).
  { replace bits with (Z.succ (bits - 1)) at 1 by lia.
    rewrite Z.pow_succ_r by lia. reflexivity. }
  rewrite Z.mod_small by lia. lia.
Qed.


Lemma size_bits_cases a : size_bits a = 32 \/ size_bits a = 64.
Proof. destruct a; [left | right]; reflexivity. Qed.

Lemma to_size_small a x : 0 <= x < 2 ^ 32 -> to_size a x = x.
Proof.
  intros H. unfold to_size. apply wrap_u_small.
  destruct a; simpl size_bits; lia.
Qed.

Lemma to_int_small x : 0 <= x <= INT_MAX -> to_int x = x.
Proof.
  intros H. unfold to_int. apply wrap_s_small; [lia |].
  unfold INT_MAX in H. simpl. lia.
Qed.

(** ** Voice trigger arbitrator *)

Section VoiceTriggerFacts.

Variable E : Env.

Lemma do_voice_trigger_open_stream_total adev name w :
  exists adev' w',
    do_voice_trigger_open_stream E adev name w = Some (adev', w')
    /\ voice_st adev' = voice_st adev
    /\ active_voice_control adev' = active_voice_control adev.
Proof.
  unfold do_voice_trigger_open_stream, bind, call, ret. simpl.
  destruct (get_named_stream E w name) as [h |]; simpl; eauto.
Qed.

(** Closing the trigger path routes the stream to nothing and releases
    it; the device structure itself is not touched. *)
Lemma do_voice_trigger_close_stream_device adev w :
  exists w', do_voice_trigger_close_stream adev w = Some (adev, w').
Proof.
  unfold do_voice_trigger_close_stream, bind, call, ret.
  destruct (voice_trig_stream adev); eauto.
Qed.

Lemma voice_trigger_handle_step ev adev w :
  exists adev' w',
    voice_trigger_handle E ev adev w = Some (adev', w')
    /\ voice_st adev' = spec_transition (voice_st adev) ev
    /\ active_voice_control adev' = active_voice_control adev.
Proof.
  destruct ev; unfold voice_trigger_handle;
    [ unfold voice_trigger_enable
    | unfold voice_trigger_disable
    | unfold voice_trigger_triggered
    | unfold voice_trigger_audio_started_locked
    | unfold voice_trigger_audio_ended_locked ];
    destruct (voice_st adev) eqn:Hst; simpl;
    try (unfold ret; eexists; eexists; split; [reflexivity | auto]);
    unfold bind.
  all: try (destruct (do_voice_trigger_open_stream_total adev
              kVoiceTriggerStreamName w) as (a & w' & -> & _ & Ha);
            unfold ret; simpl; eauto).
  all: try (destruct (do_voice_trigger_open_stream_total adev
              kVoiceRecogStreamName w) as (a & w' & -> & _ & Ha);
            unfold ret; simpl; eauto).
  all: destruct (do_voice_trigger_close_stream_device adev w) as (w' & ->);
    unfold ret; simpl; eauto.
Qed.

(** C1. Replaying any sequence of the five arbitrator events through the
    voice-trigger functions, from any device state (hence from each of
    the nine voice states), always returns, and leaves [voice_st] equal to
    the fold of the specification's transition table over the sequence. *)
Theorem voice_trigger_replay_follows_table :
  forall (evs : list voice_event) (adev : audio_device) (w : trace),
  exists adev' w',
    voice_trigger_replay E evs adev w = Some (adev', w')
    /\ voice_st adev' = fold_left spec_transition evs (voice_st adev).
Proof.
  induction evs as [| ev evs IH]; intros adev w; simpl.
  - exists adev, w. split; reflexivity.
  - destruct (voice_trigger_handle_step ev adev w)
      as (adev1 & w1 & Hstep & Hst & _).
    destruct (IH adev1 w1) as (adev2 & w2 & Hrun & Hfold).
    exists adev2, w2. unfold bind. rewrite Hstep, Hrun, Hfold, Hst.
    split; reflexivity.
Qed.

End VoiceTriggerFacts.

(** C9 (what the code does). Closing the voice-trigger path of a device
    whose [voice_trig_stream] refers to the trigger stream releases that
    stream and leaves the reference in place: it is not NULL afterwards. *)
Theorem do_voice_trigger_close_stream_keeps_reference :
  do_voice_trigger_close_stream adev_armed []
  = Some (adev_armed, [EvReleaseStream hw_trigger; EvApplyRoute hw_trigger 0])
  /\ voice_trig_stream adev_armed = Some hw_trigger.
Proof. split; reflexivity. Qed.

(** ** Input source switching *)

(** C3. On a stream that is not in standby, [change_input_source_locked]
    returns [-EINVAL] whatever the requested source and devices, makes no
    external call, and leaves the stream (its [input_source] and its
    hardware handle among the rest) and the device (its
    [active_voice_control] among the rest) as they were. *)
Theorem change_input_source_while_active :
  forall (E : Env) (adev : audio_device) (p : ptr) (sin : stream_in_pcm)
         (new_source devices : Z) (w : trace),
    i_standby (i_common sin) = false ->
    change_input_source_locked E adev p sin new_source devices w
    = Some (- EINVAL, false, sin, adev, w).
Proof.
  intros E adev p sin new_source devices w Hactive.
  unfold change_input_source_locked. rewrite Hactive. reflexivity.
Qed.

Lemma change_input_source_while_active_witness :
  i_standby (i_common in_active_compressed) = false
  /\ change_input_source_locked (env_ok 4 0) adev_capturing 2
       in_active_compressed AUDIO_SOURCE_VOICE_RECOGNITION 4 []
     = Some (- EINVAL, false, in_active_compressed, adev_capturing, []).
Proof.
  split; [reflexivity |].
  apply (change_input_source_while_active (env_ok 4 0) adev_capturing 2
           in_active_compressed AUDIO_SOURCE_VOICE_RECOGNITION 4 []).
  reflexivity.
Defined.

(** ** Output stream: writes *)

(** C6, counterexample. Writing 256 frames (1024 bytes) to an unrouted
    output returns 0, not 1024. *)
Lemma unrouted_write_consumes_all_fails :
  ~ unrouted_write_consumes_all LP64 (env_ok 0 0) adev_idle out_fresh 1024 [].
Proof.
  unfold unrouted_write_consumes_all. intros H.
  destruct (H eq_refl) as (out' & Hw).
  vm_compute in Hw. discriminate Hw.
Qed.

(** C6 (amended). A write to an output whose route has no active device
    returns 0 -- success with nothing consumed -- makes no external call
    at all (so none reaches the transport) and leaves the stream as it
    was, counters and standby flag included. *)
Theorem out_pcm_write_unrouted :
  forall (A : abi) (E : Env) (adev : audio_device) (out : stream_out_pcm)
         (bytes : Z) (w : trace),
    get_current_routes E w (o_hw (o_common out)) = 0 ->
    out_pcm_write A E adev out bytes w = Some (0, out, w).
Proof.
  intros A E adev out bytes w Hroutes.
  unfold out_pcm_write, bind, ask. rewrite Hroutes. reflexivity.
Qed.

Lemma out_pcm_write_unrouted_witness :
  get_current_routes (env_ok 0 0) [] (o_hw (o_common out_fresh)) = 0
  /\ out_pcm_write ILP32 (env_ok 0 0) adev_idle out_fresh 1024 []
     = Some (0, out_fresh, []).
Proof.
  split; [reflexivity |].
  apply (out_pcm_write_unrouted ILP32 (env_ok 0 0) adev_idle out_fresh 1024 []).
  reflexivity.
Defined.

Lemma out_pcm_cfg_rate_nonzero out : out_pcm_cfg_rate out <> 0.
Proof.
  unfold out_pcm_cfg_rate.
  destruct (rate (o_hw (o_common out)) =? 0) eqn:Hr; simpl.
  - destruct (o_sample_rate (o_common out) =? 0) eqn:Hs; simpl.
    + discriminate.
    + apply Z.eqb_neq. exact Hs.
  - apply Z.eqb_neq. exact Hr.
Qed.

(** What [out_pcm_write] relies on from the opening of the hardware path:
    it returns, with 0 or [-ENOMEM], and touches neither the counters nor
    the framework-visible frame size. *)
Lemma start_output_pcm_total E adev out w :
  exists r out1 w1,
    start_output_pcm E adev out w = Some (r, out1, w1)
    /\ hw_frames_written out1 = hw_frames_written out
    /\ hw_frames_rendered out1 = hw_frames_rendered out
    /\ o_frame_size (o_common out1) = o_frame_size (o_common out)
    /\ o_sample_rate (o_common out1) = o_sample_rate (o_common out)
    /\ o_standby (o_common out1) = o_standby (o_common out).
Proof.
  unfold start_output_pcm, out_pcm_fill_params, bind, call, ask, ret.
  pose proof (out_pcm_cfg_rate_nonzero out) as Hrate.
  apply Z.eqb_neq in Hrate.
  destruct (disable_audio adev); simpl.
  - rewrite Hrate. simpl. eauto 10.
  - destruct (pcm_open E w _ _ _ _) as [p |]; simpl.
    + destruct (pcm_is_ready E _ p); simpl.
      * rewrite Hrate. simpl. eauto 10.
      * eauto 10.
    + rewrite Hrate. simpl. eauto 10.
Qed.

Lemma out_advance_frames_spec out bytes w :
  0 <= bytes -> 0 < o_frame_size (o_common out) ->
  0 <= hw_frames_written out ->
  hw_frames_written out + bytes / o_frame_size (o_common out) < 2 ^ 64 ->
  0 <= hw_frames_rendered out ->
  hw_frames_rendered out + bytes / o_frame_size (o_common out) < 2 ^ 64 ->
  exists out',
    out_advance_frames out bytes w = Some (out', w)
    /\ hw_frames_written out'
       = hw_frames_written out + bytes / o_frame_size (o_common out)
    /\ hw_frames_rendered out'
       = hw_frames_rendered out + bytes / o_frame_size (o_common out)
    /\ o_standby (o_common out') = o_standby (o_common out).
Proof.
  intros Hb Hfs Hw0 Hw1 Hr0 Hr1.
  unfold out_advance_frames, ret.
  assert (Hq : 0 <= bytes / o_frame_size (o_common out))
    by (apply Z.div_pos; lia).
  destruct (o_frame_size (o_common out) =? 0) eqn:Hz;
    [apply Z.eqb_eq in Hz; lia |].
  eexists. split; [reflexivity |]. simpl.
  unfold to_u64. rewrite !wrap_u_small by lia. auto.
Qed.

Lemma out_pcm_write_body_spec A E adev out bytes w :
  0 <= bytes -> 0 < o_frame_size (o_common out) ->
  disable_audio adev = false
  \/ 0 < o_frame_size (o_common out) / o_sample_rate (o_common out) ->
  0 <= hw_frames_written out ->
  hw_frames_written out + bytes / o_frame_size (o_common out) < 2 ^ 64 ->
  0 <= hw_frames_rendered out ->
  hw_frames_rendered out + bytes / o_frame_size (o_common out) < 2 ^ 64 ->
  exists r out' w' n,
    out_pcm_write_body A E adev out bytes w = Some (r, out', w')
    /\ (n = 0 \/ n = bytes / o_frame_size (o_common out))
    /\ hw_frames_written out' = hw_frames_written out + n
    /\ hw_frames_rendered out' = hw_frames_rendered out + n
    /\ o_standby (o_common out') = o_standby (o_common out).
Proof.
  intros Hb Hfs Hmode Hw0 Hw1 Hr0 Hr1.
  unfold out_pcm_write_body, bind, call, ret.
  destruct (disable_audio adev) eqn:Hda; simpl.
  - destruct Hmode as [Hmode | Hd]; [discriminate |].
    destruct (o_sample_rate (o_common out) =? 0) eqn:Hsr.
    { apply Z.eqb_eq in Hsr. rewrite Hsr, Z.div_0_r in Hd. lia. }
    destruct (o_frame_size (o_common out) / o_sample_rate (o_common out) =? 0)
      eqn:Hdz; [apply Z.eqb_eq in Hdz; lia |].
    match goal with
    | |- context [EvUsleep ?us :: w] => set (w1 := EvUsleep us :: w)
    end.
    destruct (out_advance_frames_spec out bytes w1 Hb Hfs Hw0 Hw1 Hr0 Hr1)
      as (out' & -> & Hw & Hr & Hs).
    exists (to_int bytes), out', w1, (bytes / o_frame_size (o_common out)).
    auto.
  - destruct (0 <=? pcm_write E w (o_pcm out) (to_u32 bytes)) eqn:Hok.
    + destruct (out_advance_frames_spec out bytes
                  (EvPcmWrite (o_pcm out) (to_u32 bytes) :: w)
                  Hb Hfs Hw0 Hw1 Hr0 Hr1) as (out' & -> & Hw & Hr & Hs).
      exists (to_int bytes), out', (EvPcmWrite (o_pcm out) (to_u32 bytes) :: w),
        (bytes / o_frame_size (o_common out)).
      auto.
    + exists (pcm_write E w (o_pcm out) (to_u32 bytes)), out,
        (EvPcmWrite (o_pcm out) (to_u32 bytes) :: w), 0.
      repeat split; auto; lia.
Qed.

(** [out_parked] is a state the code reaches: a fresh stream, one write of
    2048 frames, one standby. *)
Lemma out_parked_reachable :
  exists w1 w2,
    out_pcm_write LP64 (env_ok 4 0) adev_idle out_fresh 8192 []
    = Some (8192, set_o_common (set_o_pcm out_parked (Some 7))
                    (set_o_standby (o_common out_parked) false), w1)
    /\ out_pcm_standby
         (set_o_common (set_o_pcm out_parked (Some 7))
            (set_o_standby (o_common out_parked) false)) w1
       = Some (0, out_parked, w2).
Proof. eexists. eexists. split; vm_compute; reflexivity. Qed.

(** C5, counterexample. The first write after that standby leaves 2304
    frames written and 256 rendered: [hw_frames_written] was not
    reset. *)
Lemma activation_resets_both_counters_fails :
  ~ activation_resets_both_counters LP64 (env_ok 4 0) adev_idle out_parked
      1024 [].
Proof.
  unfold activation_resets_both_counters. intros H.
  destruct (out_pcm_write LP64 (env_ok 4 0) adev_idle out_parked 1024 [])
    as [[[r out'] w'] |] eqn:Hw; [| vm_compute in Hw; discriminate Hw].
  vm_compute in Hw. injection Hw as <- <- <-.
  specialize (H eq_refl _ _ _ eq_refl eq_refl).
  destruct H as [Heq _]. vm_compute in Heq. discriminate Heq.
Qed.

(** C5 (amended). A write to a routed output stream always returns when
    the frame size is positive and audio is enabled (or, with audio
    disabled, when the frame size is at least the sample rate).
    While the stream is active, neither counter decreases across a write
    (as long as the 64-bit counters do not wrap) and the stream stays
    active.  The write that takes the stream out of standby restarts
    [hw_frames_rendered] from 0 and lets [hw_frames_written] carry on from
    its value before the standby; both are 0 after construction. *)
Theorem out_pcm_write_frame_counters :
  forall (A : abi) (E : Env) (adev : audio_device) (out : stream_out_pcm)
         (bytes : Z) (w : trace),
    0 <= bytes -> 0 < o_frame_size (o_common out) ->
    disable_audio adev = false
    \/ 0 < o_frame_size (o_common out) / o_sample_rate (o_common out) ->
    0 <= hw_frames_written out ->
    hw_frames_written out + bytes / o_frame_size (o_common out) < 2 ^ 64 ->
    0 <= hw_frames_rendered out ->
    hw_frames_rendered out + bytes / o_frame_size (o_common out) < 2 ^ 64 ->
    exists r out' w',
      out_pcm_write A E adev out bytes w = Some (r, out', w')
      /\ (o_standby (o_common out) = false ->
          o_standby (o_common out') = false
          /\ hw_frames_written out <= hw_frames_written out'
          /\ hw_frames_rendered out <= hw_frames_rendered out')
      /\ (o_standby (o_common out) = true ->
          o_standby (o_common out') = false ->
          (hw_frames_rendered out' = 0
           \/ hw_frames_rendered out' = bytes / o_frame_size (o_common out))
          /\ hw_frames_written out'
             = hw_frames_written out + hw_frames_rendered out')
      /\ hw_frames_written (do_init_out_pcm out) = 0
      /\ hw_frames_rendered (do_init_out_pcm out) = 0.
Proof.
  intros A E adev out bytes w Hb Hfs Hmode Hw0 Hw1 Hr0 Hr1.
  assert (Hq : 0 <= bytes / o_frame_size (o_common out))
    by (apply Z.div_pos; lia).
  unfold out_pcm_write, bind, ask.
  destruct (get_current_routes E w (o_hw (o_common out)) =? 0).
  { exists 0, out, w. unfold ret.
    repeat split; try lia; try congruence. }
  destruct (o_standby (o_common out)) eqn:Hsb.
  - destruct (start_output_pcm_total E adev out w)
      as (r1 & out1 & w1 & -> & Hfw & Hfr & Hfs1 & Hsr1 & Hsb1).
    destruct (r1 =? 0) eqn:Hr1z; simpl.
    + set (out2 :=
             set_hw_frames_rendered
               (set_o_common out1 (set_o_standby (o_common out1) false)) 0).
      destruct (out_pcm_write_body_spec A E adev out2 bytes w1)
        as (r & out' & w' & n & -> & Hn & Hw' & Hr' & Hs');
        try (subst out2; simpl; rewrite ?Hfs1, ?Hsr1, ?Hfw;
             try assumption; lia).
      exists r, out', w'. subst out2. simpl in *.
      rewrite Hfs1, Hfw in *.
      repeat split; try congruence.
    + exists r1, out1, w1. unfold ret.
      repeat split; try congruence.
  - destruct (out_pcm_write_body_spec A E adev out bytes w)
      as (r & out' & w' & n & -> & Hn & Hw' & Hr' & Hs'); try assumption.
    exists r, out', w'.
    repeat split; try congruence; destruct Hn as [-> | ->]; lia.
Qed.

Lemma out_pcm_write_frame_counters_witness :
  exists r out' w',
    out_pcm_write ILP32 (env_ok 4 0) adev_idle out_parked 1024 []
    = Some (r, out', w')
    /\ hw_frames_written out' = 2304
    /\ hw_frames_rendered out' = 256.
Proof.
  destruct (out_pcm_write_frame_counters ILP32 (env_ok 4 0) adev_idle
              out_parked 1024 [])
    as (r & out' & w' & Hrun & _ & Hact & _);
    try (vm_compute; intuition congruence).
  exists r, out', w'. split; [exact Hrun |].
  vm_compute in Hrun. injection Hrun as <- <- <-.
  split; reflexivity.
Defined.

(** ** Output stream: presentation position *)






(** ** The voice-control registration *)

Lemma set_voice_st_same adev : set_voice_st adev (voice_st adev) = adev.
Proof. destruct adev; reflexivity. Qed.

Lemma voice_trigger_audio_started_locked_spec adev w :
  voice_trigger_audio_started_locked adev w
  = Some (set_voice_st adev
            (spec_transition (voice_st adev) evAudioCaptureStarted), w).
Proof.
  unfold voice_trigger_audio_started_locked, ret.
  destruct (voice_st adev) eqn:Hst; simpl;
    rewrite <- ?Hst, ?set_voice_st_same; reflexivity.
Qed.

Lemma voice_trigger_audio_ended_locked_spec adev w :
  exists w',
    voice_trigger_audio_ended_locked adev w
    = Some (set_voice_st adev
              (spec_transition (voice_st adev) evAudioCaptureEnded), w').
Proof.
  unfold voice_trigger_audio_ended_locked, ret, bind.
  destruct (voice_st adev) eqn:Hst; simpl;
    try (exists w; rewrite <- ?Hst, ?set_voice_st_same; reflexivity).
  destruct (do_voice_trigger_close_stream_device adev w) as (w' & ->).
  exists w'. reflexivity.
Qed.

Lemma in_resampler_free_total sin w :
  exists sin' w',
    in_resampler_free sin w = Some (sin', w')
    /\ i_common sin' = i_common sin.
Proof.
  unfold in_resampler_free, bind, call, ret.
  destruct (rs_resampler (resampler sin)); simpl; eauto.
Qed.

Lemma in_pcm_standby_total E sin w :
  exists sin' w',
    in_pcm_standby E sin w = Some (0, sin', w')
    /\ i_hw (i_common sin') = i_hw (i_common sin).
Proof.
  unfold in_pcm_standby, bind, ret.
  destruct (i_hw (i_common sin)) as [hw |] eqn:Hhw; [| eauto].
  destruct (stream_is_compressed_in E hw).
  - unfold do_in_compress_pcm_standby, bind, call, ret.
    destruct (i_standby (i_common sin)); simpl; eauto.
  - unfold do_in_pcm_standby, bind, call, ret.
    destruct (i_standby (i_common sin)); simpl.
    + destruct (in_resampler_free_total sin w) as (s1 & w1 & -> & Hc).
      simpl. rewrite Hc. eauto.
    + destruct (in_resampler_free_total (set_i_pcm sin None)
                  (EvPcmClose (i_pcm sin) :: w)) as (s1 & w1 & -> & Hc).
      simpl. rewrite Hc. simpl. eauto.
Qed.

(** C2, counterexample. With stream 1 registered and the recognition path
    capturing, stream 2 takes the voice-recognition source: the device stays in
    [eVoiceRecogAudio], where ending the previous capture first would
    have left it in [eVoiceRecogIdle]. *)
Lemma registration_ends_previous_capture_fails :
  ~ registration_ends_previous_capture (env_ok 4 0) adev_capturing 2
      in_fresh 4 [].
Proof.
  unfold registration_ends_previous_capture. intros H.
  specialize (H 1 0 true _ _ _ _ _ eq_refl ltac:(discriminate) eq_refl
                eq_refl eq_refl).
  discriminate H.
Qed.

(** C2 (amended). The device holds one [active_voice_control] reference,
    so at most one input stream is registered at any time.
    [change_input_source_locked] and [do_close_in_common] always return.
    A stream that obtains the voice-recognition source becomes the
    registered stream and [audioCaptureStarted] is run; a registration
    held by another stream is overwritten, and no [audioCaptureEnded] is
    run for it.  The registration is cleared, and [audioCaptureEnded]
    run, only when the registered stream itself obtains another source
    or is closed; otherwise the device is left as it was. *)
Theorem voice_control_registration :
  forall (E : Env) (adev : audio_device) (p : ptr) (sin : stream_in_pcm)
         (new_source devices : Z) (w : trace),
    (exists r changed sin' adev' w',
       change_input_source_locked E adev p sin new_source devices w
       = Some (r, changed, sin', adev', w')
       /\ (forall q1 q2,
             active_voice_control adev' = Some q1 ->
             active_voice_control adev' = Some q2 -> q1 = q2)
       /\ (changed = false -> adev' = adev)
       /\ (changed = true ->
           new_source = AUDIO_SOURCE_VOICE_RECOGNITION ->
           adev' = set_voice_st (set_active_voice_control adev (Some p))
                     (spec_transition (voice_st adev) evAudioCaptureStarted))
       /\ (changed = true ->
           new_source <> AUDIO_SOURCE_VOICE_RECOGNITION ->
           active_voice_control adev = Some p ->
           adev' = set_voice_st (set_active_voice_control adev None)
                     (spec_transition (voice_st adev) evAudioCaptureEnded))
       /\ (changed = true ->
           new_source <> AUDIO_SOURCE_VOICE_RECOGNITION ->
           active_voice_control adev <> Some p ->
           adev' = adev))
    /\ (exists adev' w',
          do_close_in_common E adev p sin w = Some (adev', w')
          /\ (active_voice_control adev = Some p ->
              adev' = set_voice_st (set_active_voice_control adev None)
                        (spec_transition (voice_st adev) evAudioCaptureEnded))
          /\ (active_voice_control adev <> Some p -> adev' = adev)).
Proof.
  intros E adev p sin new_source devices w.
  destruct adev as [da mm avc vs mic gs vts]. split.
  - unfold change_input_source_locked, voice_trigger_audio_started_locked,
      voice_trigger_audio_ended_locked, do_voice_trigger_close_stream,
      voice_trigger_audio_stream_name, bind, call, ret.
    simpl.
    repeat (break_match; simpl); eqb_props;
      do 5 eexists; (split; [reflexivity |]);
      repeat split; intros; subst; simpl in *;
      try congruence; try reflexivity.
  - unfold do_close_in_common, bind.
    destruct (in_pcm_standby_total E sin w) as (sin' & w1 & -> & Hhw).
    unfold voice_trigger_audio_ended_locked, do_voice_trigger_close_stream,
      bind, call, ret.
    simpl.
    repeat (break_match; simpl); eqb_props;
      do 2 eexists; (split; [reflexivity |]);
      repeat split; intros; subst; simpl in *;
      try congruence; try reflexivity.
Qed.

(** ** Resampler bridge *)

Section ResamplerBridge.

Variable A : abi.
Variable E : Env.

Lemma set_resampler_same sin : set_resampler sin (resampler sin) = sin.
Proof. destruct sin; reflexivity. Qed.

(** A pull on a bridge that still holds frames: no hardware read, the
    frames offered are the smaller of the request and what is buffered,
    and they start where the consumed frames end. *)
Lemma get_next_buffer_buffered sin p r0 want w :
  i_pcm sin = Some p ->
  0 < frames_in (resampler sin) <= in_buffer_frames (resampler sin) ->
  in_buffer_frames (resampler sin) <= INT_MAX ->
  get_next_buffer A E sin (mk_resampler_buffer r0 want) w
  = Some (read_status (resampler sin), sin,
          mk_resampler_buffer
            (Some (in_buffer_frames (resampler sin)
                   - frames_in (resampler sin)))
            (Z.min want (frames_in (resampler sin))),
          w).
Proof.
  intros Hpcm Hf Hn. unfold get_next_buffer, ret. rewrite Hpcm.
  destruct (frames_in (resampler sin) =? 0) eqn:Hz;
    [apply Z.eqb_eq in Hz; lia |].
  rewrite set_resampler_same. simpl frame_count.
  rewrite to_size_small by (unfold INT_MAX in Hn; lia).
  destruct (frames_in (resampler sin) <? want) eqn:Hlt; eqb_props.
  - rewrite Z.min_r by lia. reflexivity.
  - rewrite Z.min_l by lia. reflexivity.
Qed.

(** The matching release takes exactly the consumed frames off. *)
Lemma release_buffer_consumed sin r0 used :
  0 <= used <= frames_in (resampler sin) ->
  frames_in (resampler sin) <= INT_MAX ->
  frames_in (resampler (release_buffer A sin (mk_resampler_buffer r0 used)))
  = frames_in (resampler sin) - used.
Proof.
  intros Hu Hn. unfold release_buffer. simpl.
  apply to_size_small. unfold INT_MAX in Hn. lia.
Qed.

Lemma release_buffer_frame sin buf :
  i_pcm (release_buffer A sin buf) = i_pcm sin
  /\ in_buffer_frames (resampler (release_buffer A sin buf))
     = in_buffer_frames (resampler sin).
Proof. split; reflexivity. Qed.

(** Any run of pulls that stays within the buffered frames makes no
    hardware read and takes the consumed frames off, one pull after the
    other. *)
Lemma resampler_pulls_buffered p w :
  forall script sin,
    i_pcm sin = Some p ->
    frames_in (resampler sin) <= in_buffer_frames (resampler sin) ->
    in_buffer_frames (resampler sin) <= INT_MAX ->
    script_within (frames_in (resampler sin)) script ->
    exists sin',
      resampler_pulls A E script sin w = Some (sin', w)
      /\ frames_in (resampler sin')
         = frames_in (resampler sin) - script_consumed script
      /\ 0 <= script_consumed script.
Proof.
  induction script as [| [want used] script IH]; intros sin Hpcm Hf Hn Hin.
  - exists sin. simpl. unfold ret. repeat split; lia.
  - simpl in Hin. destruct Hin as (Hpos & Hused & Hrest).
    simpl. unfold bind.
    rewrite (get_next_buffer_buffered sin p None want w Hpcm) by lia.
    simpl.
    set (sin1 := release_buffer A sin _).
    assert (Hf1 : frames_in (resampler sin1)
                  = frames_in (resampler sin) - used).
    { subst sin1. apply release_buffer_consumed; lia. }
    destruct (IH sin1) as (sin' & Hrun & Hfin & Hc).
    + exact Hpcm.
    + rewrite Hf1. subst sin1. simpl in_buffer_frames. lia.
    + exact Hn.
    + rewrite Hf1. exact Hrest.
    + exists sin'. rewrite Hrun. rewrite Hfin, Hf1.
      repeat split; lia.
Qed.

End ResamplerBridge.

(** *** Discarding the right channel *)

Lemma list_set_length l : forall i v, length (list_set l i v) = length l.
Proof.
  induction l as [| h t IH]; intros [| i] v; simpl; auto.
Qed.

Lemma list_set_same l :
  forall i v, (i < length l)%nat -> nth_error (list_set l i v) i = Some v.
Proof.
  induction l as [| h t IH]; intros [| i] v Hi; simpl in *; try lia; auto.
  apply IH. lia.
Qed.

Lemma list_set_other l :
  forall i j v, i <> j -> nth_error (list_set l i v) j = nth_error l j.
Proof.
  induction l as [| h t IH]; intros [| i] [| j] v Hij; simpl; auto;
    try congruence.
Qed.

(** The loop, started at index [start] on a buffer whose entries from
    [start] on are still those read from the hardware ([l0]): it stays
    inside the buffer, and moves sample [2 j] to position [j]. *)
Lemma discard_fold l0 :
  forall len start l,
    (1 <= start)%nat ->
    length l = length l0 ->
    (forall j, (start <= j)%nat -> nth_error l j = nth_error l0 j) ->
    (2 * (start + len) <= length l0 + 1)%nat ->
    exists l',
      fold_left discard_step (seq start len) (Some l) = Some l'
      /\ length l' = length l0
      /\ (forall j, (start <= j < start + len)%nat ->
                    nth_error l' j = nth_error l0 (2 * j))
      /\ (forall j, (j < start)%nat -> nth_error l' j = nth_error l j)
      /\ (forall j, (start + len <= j)%nat ->
                    nth_error l' j = nth_error l0 j).
Proof.
  induction len as [| len IH]; intros start l Hs Hlen Horig Hfit.
  - exists l. simpl. repeat split; auto; intros; try lia.
    apply Horig. lia.
  - cbn [seq fold_left].
    change (discard_step (Some l) start)
      with (match nth_error l (2 * start) with
            | Some v => Some (list_set l start v)
            | None => None
            end).
    destruct (nth_error l (2 * start)) as [v |] eqn:Hv.
    + destruct (IH (S start) (list_set l start v))
        as (l' & Hrun & Hl & Hmid & Hlow & Hhigh).
      * lia.
      * rewrite list_set_length. exact Hlen.
      * intros j Hj. rewrite list_set_other by lia. apply Horig. lia.
      * lia.
      * exists l'.
        split; [exact Hrun |]. split; [exact Hl |].
        split; [| split].
        -- intros j Hj. destruct (Nat.eq_dec j start) as [-> | Hne].
           ++ rewrite Hlow by lia. rewrite list_set_same by lia.
              rewrite <- Hv. apply Horig. lia.
           ++ apply Hmid. lia.
        -- intros j Hj. rewrite Hlow by lia. apply list_set_other. lia.
        -- intros j Hj. apply Hhigh. lia.
    + apply nth_error_None in Hv. lia.
Qed.

(** For a buffer that holds at least [frames] stereo frames, the loop of
    [get_next_buffer] is defined, keeps the buffer's size, and leaves the
    left-channel samples of the first [frames] frames contiguous at its
    start. *)
Lemma discard_right_channel_keeps_left frames l :
  (2 * Z.to_nat frames <= length l + 1)%nat ->
  exists l',
    discard_right_channel frames l = Some l'
    /\ length l' = length l
    /\ forall j, (j < Z.to_nat frames)%nat ->
                 nth_error l' j = nth_error l (2 * j).
Proof.
  intros Hfit. unfold discard_right_channel.
  destruct (Z.to_nat frames) as [| n] eqn:Hn.
  - exists l. simpl. repeat split. intros j Hj. lia.
  - replace (S n - 1)%nat with n by lia.
    destruct (discard_fold l n 1%nat l)
      as (l' & Hrun & Hl & Hmid & Hlow & _); auto; try lia.
    exists l'. split; [exact Hrun |]. split; [exact Hl |].
    intros [| j] Hj.
    + rewrite Hlow by lia. reflexivity.
    + apply Hmid. lia.
Qed.

Section ResamplerBridgeRoundTrip.

Variable A : abi.
Variable E : Env.

(** A pull on a drained bridge makes exactly one hardware read of one
    period; when the read succeeds the whole period is buffered and the
    offer starts at its first frame. *)
Lemma get_next_buffer_drained sin p r0 want w data :
  i_pcm sin = Some p ->
  frames_in (resampler sin) = 0 ->
  0 <= in_buffer_frames (resampler sin) <= INT_MAX ->
  pcm_read E w (Some p) (to_u32 (in_buffer_size (resampler sin))) = (0, data) ->
  i_channel_count (i_common sin) <> 1 \/ i_hw_channel_count sin <> 2
  \/ (2 * Z.to_nat (in_buffer_frames (resampler sin))
      <= length data + 1)%nat ->
  exists data',
    get_next_buffer A E sin (mk_resampler_buffer r0 want) w
    = Some (0,
            set_resampler sin
              (mk_in_resampler (rs_resampler (resampler sin)) (Some data')
                 (in_buffer_size (resampler sin))
                 (in_buffer_frames (resampler sin))
                 (in_buffer_frames (resampler sin)) 0),
            mk_resampler_buffer (Some 0)
              (Z.min want (in_buffer_frames (resampler sin))),
            EvPcmRead (Some p) (to_u32 (in_buffer_size (resampler sin))) :: w)
    /\ length data' = length data.
Proof.
  intros Hpcm Hf Hn Hread Hchan.
  unfold get_next_buffer, bind, call, ret.
  rewrite Hpcm, Hf. simpl. rewrite Hread. simpl.
  rewrite to_size_small by (unfold INT_MAX in Hn; lia).
  assert (Hoffer :
            (if in_buffer_frames (resampler sin) <? want
             then in_buffer_frames (resampler sin) else want)
            = Z.min want (in_buffer_frames (resampler sin))).
  { destruct (in_buffer_frames (resampler sin) <? want) eqn:Hlt; eqb_props;
      [rewrite Z.min_r | rewrite Z.min_l]; lia. }
  assert (Hzero : to_size A (in_buffer_frames (resampler sin)
                             - in_buffer_frames (resampler sin)) = 0).
  { rewrite Z.sub_diag. apply to_size_small. lia. }
  destruct ((i_channel_count (i_common sin) =? 1)
            && (i_hw_channel_count sin =? 2)) eqn:Hmono.
  - apply andb_true_iff in Hmono. destruct Hmono as [H1 H2]. eqb_props.
    destruct Hchan as [Hc | [Hc | Hfit]]; try contradiction.
    destruct (discard_right_channel_keeps_left
                (in_buffer_frames (resampler sin)) data Hfit)
      as (data' & -> & Hlen & _).
    exists data'. simpl. rewrite Hoffer, Hzero. split; [reflexivity | exact Hlen].
  - exists data. simpl. rewrite Hoffer, Hzero. split; reflexivity.
Qed.

(** C4. Take a bridge whose buffer was filled by one hardware read of a
    period of [N] frames, of which [f] are still buffered
    ([0 < f <= N]), a pull that requests [want] frames ([want <= N]) and a
    converter that consumes [used] of the frames offered.
    - The pull makes no hardware read and offers exactly
      [min want f] frames.
    - They are offered at sample [N - f] of the buffer: the count of
      frames already consumed is added to a pointer to 16-bit samples.
      That is where the frames not yet consumed begin only on a
      one-channel stream (or when nothing was consumed); on a stream of
      two or more channels the offer begins before the end of the frames
      already consumed.
    - The matching release takes exactly [used] frames off
      [frames_in].
    - Any run of such pull/release pairs that stays within the buffered
      frames makes no hardware read at all, and [frames_in] only goes
      down, by what was consumed.
    - The next hardware read is made by the pull that finds
      [frames_in = 0]: it reads one period, and when the read succeeds
      [frames_in] is [N] again. *)
Theorem resampler_bridge_round_trip :
  forall (sin : stream_in_pcm) (p N f want used : Z)
         (script : list (Z * Z)) (w : trace),
    i_pcm sin = Some p ->
    in_buffer_frames (resampler sin) = N ->
    frames_in (resampler sin) = f ->
    0 < f <= N -> N <= INT_MAX ->
    0 <= want <= N ->
    0 <= used <= Z.min want f ->
    script_within f script ->
    get_next_buffer A E sin (mk_resampler_buffer None want) w
    = Some (read_status (resampler sin), sin,
            mk_resampler_buffer (Some (N - f)) (Z.min want f), w)
    /\ (N - f = frame_start sin (N - f)
        <-> i_channel_count (i_common sin) = 1 \/ f = N)
    /\ (2 <= i_channel_count (i_common sin) -> f < N ->
        N - f < frame_start sin (N - f))
    /\ frames_in
         (resampler
            (release_buffer A sin (mk_resampler_buffer (Some (N - f)) used)))
       = f - used
    /\ (exists sin',
          resampler_pulls A E script sin w = Some (sin', w)
          /\ frames_in (resampler sin') = f - script_consumed script
          /\ f - script_consumed script <= f)
    /\ (forall drained data,
          i_pcm drained = Some p ->
          resampler drained = set_frames_in (resampler sin) 0 ->
          pcm_read E w (Some p) (to_u32 (in_buffer_size (resampler sin)))
          = (0, data) ->
          i_channel_count (i_common drained) <> 1
          \/ i_hw_channel_count drained <> 2
          \/ (2 * Z.to_nat N <= length data + 1)%nat ->
          exists sin' buf,
            get_next_buffer A E drained (mk_resampler_buffer None want) w
            = Some (0, sin', buf,
                    EvPcmRead (Some p)
                      (to_u32 (in_buffer_size (resampler sin))) :: w)
            /\ frames_in (resampler sin') = N
            /\ raw buf = Some 0
            /\ frame_count buf = Z.min want N).
Proof.
  intros sin p N f want used script w Hpcm HN Hf Hfr Hn Hwant Hused Hscript.
  split; [| split; [| split; [| split; [| split]]]].
  - rewrite (get_next_buffer_buffered A E sin p None want w Hpcm) by lia.
    rewrite HN, Hf. reflexivity.
  - unfold frame_start. split.
    + intros Heq.
      destruct (Z.eq_dec f N) as [-> | Hne]; [right; reflexivity | left].
      nia.
    + intros [-> | ->]; lia.
  - unfold frame_start. intros Hc Hlt. nia.
  - rewrite release_buffer_consumed by lia. rewrite Hf. reflexivity.
  - destruct (resampler_pulls_buffered A E p w script sin)
      as (sin' & Hrun & Hfin & Hc); try lia.
    + exact Hpcm.
    + rewrite Hf. exact Hscript.
    + exists sin'. rewrite Hf in Hfin. repeat split; auto. lia.
  - intros drained data Hdp Hdr Hread Hchan.
    destruct (get_next_buffer_drained drained p None want w data)
      as (data' & Hrun & _); auto.
    + rewrite Hdr. reflexivity.
    + rewrite Hdr. simpl. lia.
    + rewrite Hdr. exact Hread.
    + rewrite Hdr. simpl. rewrite HN. exact Hchan.
    + do 2 eexists. split; [rewrite Hrun; rewrite Hdr; reflexivity |].
      simpl. rewrite HN. auto.
Qed.

End ResamplerBridgeRoundTrip.

(** A stereo stream that resamples, from its opening: the first pull of
    100 frames reads a period and offers it from its first sample; after
    the release of these 100 frames -- samples 0 to 199 -- the second pull
    offers 100 frames from sample 100, which is the middle of the frames
    just consumed. *)
Lemma resampler_bridge_round_trip_witness :
  exists sin1 w1 sin2 w2,
    start_pcm_input_stream LP64 (env_ok 4 0) adev_idle in_routed_stereo []
    = Some (0, sin1, w1)
    /\ get_next_buffer LP64 (env_ok 4 0) sin1 (mk_resampler_buffer None 100)
         w1
       = Some (0, sin2, mk_resampler_buffer (Some 0) 100, w2)
    /\ get_next_buffer LP64 (env_ok 4 0)
         (release_buffer LP64 sin2 (mk_resampler_buffer (Some 0) 100))
         (mk_resampler_buffer None 100) w2
       = Some (0, release_buffer LP64 sin2 (mk_resampler_buffer (Some 0) 100),
               mk_resampler_buffer (Some 100) 100, w2)
    /\ frame_start
         (release_buffer LP64 sin2 (mk_resampler_buffer (Some 0) 100)) 100
       = 200.
Proof.
  destruct (start_pcm_input_stream LP64 (env_ok 4 0) adev_idle
              in_routed_stereo []) as [[[r1 sin1] w1] |] eqn:Hstart;
    [| vm_compute in Hstart; discriminate Hstart].
  assert (Hr1 : r1 = 0).
  { vm_compute in Hstart. injection Hstart as <- _ _. reflexivity. }
  subst r1.
  destruct (get_next_buffer LP64 (env_ok 4 0) sin1
              (mk_resampler_buffer None 100) w1)
    as [[[[st sin2] buf2] w2] |] eqn:Hpull.
  2:{ exfalso. vm_compute in Hstart. injection Hstart as <- <-.
      vm_compute in Hpull. discriminate Hpull. }
  assert (Hfacts :
            st = 0 /\ buf2 = mk_resampler_buffer (Some 0) 100
            /\ i_pcm sin2 = Some 7
            /\ in_buffer_frames (resampler sin2) = 1024
            /\ frames_in (resampler sin2) = 1024
            /\ read_status (resampler sin2) = 0
            /\ i_channel_count (i_common sin2) = 2).
  { vm_compute in Hstart. injection Hstart as <- <-.
    vm_compute in Hpull. injection Hpull as <- <- <- _.
    repeat split. }
  destruct Hfacts as (-> & -> & Hpcm & HN & Hf & Hstatus & Hchan).
  set (sin3 := release_buffer LP64 sin2 (mk_resampler_buffer (Some 0) 100)).
  assert (Hf3 : frames_in (resampler sin3) = 924).
  { unfold sin3.
    rewrite (release_buffer_consumed LP64 sin2 (Some 0) 100)
      by (rewrite Hf; unfold INT_MAX; lia).
    rewrite Hf. reflexivity. }
  destruct (resampler_bridge_round_trip LP64 (env_ok 4 0) sin3 7 1024 924 100
              0 [] w2 Hpcm HN Hf3 ltac:(lia) ltac:(unfold INT_MAX; lia)
              ltac:(lia) ltac:(lia) I)
    as (Hoffer & _).
  exists sin1, w1, sin2, w2.
  split; [reflexivity |]. split; [exact Hpull |].
  split.
  - fold sin3. rewrite Hoffer.
    change (read_status (resampler sin3)) with (read_status (resampler sin2)).
    rewrite Hstatus. reflexivity.
  - change (100 * i_channel_count (i_common sin2) = 200).
    rewrite Hchan. reflexivity.
Defined.

(** ** Input stream: the real-time delay *)

Section InputReads.

Variable A : abi.
Variable E : Env.

Lemma do_in_realtime_delay_events c bytes w :
  last_read_ns c = 0 \/ to_size A (i_frame_size c * i_sample_rate c) <> 0 ->
  do_in_realtime_delay A E c bytes w
  = Some (tt, realtime_delay_events A E c bytes w ++ w).
Proof.
  intros Hdef. unfold do_in_realtime_delay, realtime_delay_events.
  destruct (last_read_ns c =? 0) eqn:Hlast; simpl; [reflexivity |].
  eqb_props. destruct Hdef as [Hz | Hd]; [contradiction |].
  apply Z.eqb_neq in Hd. rewrite Hd.
  unfold bind, call, ret.
  destruct (elapsed_units A (to_s64 (systemTime E w - last_read_ns c))
            <? required_interval A c bytes); reflexivity.
Qed.

Lemma realtime_delay_events_timing c c' bytes w :
  timing c' = timing c ->
  realtime_delay_events A E c' bytes w = realtime_delay_events A E c bytes w.
Proof.
  unfold timing. intros Ht. injection Ht as Hfs Hsr Hlast.
  unfold realtime_delay_events, required_interval.
  rewrite Hfs, Hsr, Hlast. reflexivity.
Qed.


(** Opening the compressed path returns whenever the product of frame
    size and sample rate is not 0, and leaves the timing fields alone. *)
Lemma start_compress_pcm_input_stream_total sin w :
  to_size A (i_frame_size (i_common sin) * i_sample_rate (i_common sin)) <> 0 ->
  exists r sin1 w1,
    start_compress_pcm_input_stream A E sin w = Some (r, sin1, w1)
    /\ timing (i_common sin1) = timing (i_common sin).
Proof.
  intros Hd. apply Z.eqb_neq in Hd.
  unfold start_compress_pcm_input_stream, do_open_compress_pcm_in,
    bind, call, ask, ret.
  destruct (i_standby (i_common sin)); [| eauto].
  destruct (i_hw (i_common sin)) as [hw |]; simpl; [| eauto].
  destruct (compress_open E w (card_number hw) (device_number hw))
    as [h |]; simpl.
  - destruct (is_compress_ready E _ h); simpl.
    + rewrite Hd. eauto.
    + destruct (errno E _ <? 0); simpl; [eauto |].
      rewrite Hd. eauto.
  - destruct (errno E _ <? 0); simpl; [eauto |].
    rewrite Hd. eauto.
Qed.



End InputReads.

(** ** Input stream: what a read leaves alone *)

Section InputReadFrame.

Variable A : abi.
Variable E : Env.

Lemma get_next_buffer_common sin buf w st sin' buf' w' :
  get_next_buffer A E sin buf w = Some (st, sin', buf', w') ->
  i_common sin' = i_common sin.
Proof.
  unfold get_next_buffer, bind, call, ret, undefined. intros H.
  repeat (break_match_in H; simpl in H); invert_results; reflexivity.
Qed.

Lemma resampler_pulls_common :
  forall script sin w sin' w',
    resampler_pulls A E script sin w = Some (sin', w') ->
    i_common sin' = i_common sin.
Proof.
  induction script as [| [want used] script IH]; intros sin w sin' w' H.
  - simpl in H. unfold ret in H. invert_results. reflexivity.
  - simpl in H. unfold bind in H.
    destruct (get_next_buffer A E sin (mk_resampler_buffer None want) w)
      as [[[[st sin1] buf1] w1] |] eqn:Hpull; [| discriminate H].
    apply get_next_buffer_common in Hpull.
    destruct (raw buf1).
    + apply IH in H. simpl in H. congruence.
    + unfold ret in H. invert_results. exact Hpull.
Qed.

Lemma resample_from_provider_common sin r n w sin' produced samples w' :
  resample_from_provider A E sin r n w = Some (sin', produced, samples, w') ->
  i_common sin' = i_common sin.
Proof.
  unfold resample_from_provider, bind, call, ask, ret. intros H.
  destruct (resampler_pulls A E _ sin _) as [[sin1 w1] |] eqn:Hpulls;
    [| discriminate H].
  apply resampler_pulls_common in Hpulls. invert_results. exact Hpulls.
Qed.

Lemma read_resampled_frames_loop_common :
  forall fuel sin r buffer frames frames_wr w n sin' buffer' w',
    read_resampled_frames_loop A E fuel sin r buffer frames frames_wr w
    = Some (n, sin', buffer', w') ->
    i_common sin' = i_common sin.
Proof.
  induction fuel as [| fuel IH];
    intros sin r buffer frames frames_wr w n sin' buffer' w' H;
    simpl in H; destruct (frames_wr <? frames);
    unfold ret, undefined, bind in H; invert_results; try reflexivity.
  destruct (resample_from_provider A E sin r _ w)
    as [[[[sin1 produced] samples] w1] |] eqn:Hconv; [| discriminate H].
  apply resample_from_provider_common in Hconv.
  destruct (negb (read_status (resampler sin1) =? 0)).
  - invert_results. exact Hconv.
  - apply IH in H. congruence.
Qed.

Lemma in_resampler_init_common sin hw_rate channels hw_fragment w r sin' w' :
  in_resampler_init A E sin hw_rate channels hw_fragment w = Some (r, sin', w') ->
  i_common sin' = i_common sin.
Proof.
  unfold in_resampler_init, bind, call, ret, undefined. intros H.
  repeat (break_match_in H; simpl in H); invert_results; reflexivity.
Qed.

Lemma do_open_pcm_input_timing adev sin w r sin' w' :
  do_open_pcm_input A E adev sin w = Some (r, sin', w') ->
  timing (i_common sin') = timing (i_common sin).
Proof.
  unfold do_open_pcm_input, in_pcm_fill_params, in_get_sample_rate,
    bind, call, ask, ret, undefined.
  intros H.
  repeat (break_match_in H; simpl in H); invert_results;
    try reflexivity;
    match goal with
    | Hinit : in_resampler_init _ _ _ _ _ _ _ = Some _ |- _ =>
        apply in_resampler_init_common in Hinit; simpl in Hinit;
        unfold timing; simpl; rewrite Hinit; reflexivity
    end.
Qed.

Lemma start_pcm_input_stream_timing adev sin w r sin' w' :
  start_pcm_input_stream A E adev sin w = Some (r, sin', w') ->
  timing (i_common sin') = timing (i_common sin).
Proof.
  unfold start_pcm_input_stream, bind, ret. intros H.
  destruct (i_standby (i_common sin)); [| invert_results; reflexivity].
  destruct (do_open_pcm_input A E adev sin w) as [[[r1 sin1] w1] |] eqn:Hopen;
    [| discriminate H].
  apply do_open_pcm_input_timing in Hopen.
  destruct (r1 =? 0); invert_results; exact Hopen.
Qed.

Lemma do_in_pcm_read_timing fuel adev sin buffer bytes w r sin' buffer' w' :
  do_in_pcm_read A E fuel adev sin buffer bytes w = Some (r, sin', buffer', w') ->
  timing (i_common sin') = timing (i_common sin).
Proof.
  unfold do_in_pcm_read, read_resampled_frames, bind. intros H.
  destruct (i_frame_size (i_common sin) =? 0); [discriminate H |].
  destruct (start_pcm_input_stream A E adev sin w)
    as [[[r1 sin1] w1] |] eqn:Hstart; [| discriminate H].
  apply start_pcm_input_stream_timing in Hstart. rewrite <- Hstart.
  unfold call, ret, undefined in H.
  repeat (break_match_in H; simpl in H); invert_results; try reflexivity.
  all: match goal with
       | Hloop : read_resampled_frames_loop _ _ _ _ _ _ _ _ _ = Some _ |- _ =>
           apply read_resampled_frames_loop_common in Hloop;
           unfold timing; rewrite Hloop; reflexivity
       end.
Qed.

Lemma start_compress_pcm_input_stream_timing sin w r sin' w' :
  start_compress_pcm_input_stream A E sin w = Some (r, sin', w') ->
  timing (i_common sin') = timing (i_common sin).
Proof.
  unfold start_compress_pcm_input_stream, do_open_compress_pcm_in,
    bind, call, ask, ret, undefined.
  intros H.
  repeat (break_match_in H; simpl in H); invert_results; reflexivity.
Qed.

Lemma do_in_compress_pcm_read_timing sin buffer bytes w r sin' buffer' w' :
  do_in_compress_pcm_read A E sin buffer bytes w = Some (r, sin', buffer', w') ->
  timing (i_common sin') = timing (i_common sin).
Proof.
  unfold do_in_compress_pcm_read, bind. intros H.
  destruct (start_compress_pcm_input_stream A E sin w)
    as [[[r1 sin1] w1] |] eqn:Hstart; [| discriminate H].
  apply start_compress_pcm_input_stream_timing in Hstart. rewrite <- Hstart.
  unfold call, ret in H.
  repeat (break_match_in H; simpl in H); invert_results; reflexivity.
Qed.

(** Whatever the transport did, the stream a read works on afterwards
    has the frame size, sample rate and previous-read time it had. *)
Lemma in_pcm_read_dispatch_timing fuel adev sin buffer bytes w r sin' buffer' w' :
  in_pcm_read_dispatch A E fuel adev sin buffer bytes w
  = Some (r, sin', buffer', w') ->
  timing (i_common sin') = timing (i_common sin).
Proof.
  unfold in_pcm_read_dispatch, bind, ask, ret. intros H.
  destruct (i_hw (i_common sin)) as [hw |]; [| invert_results; reflexivity].
  destruct (get_current_routes E w hw =? 0); [invert_results; reflexivity |].
  destruct (stream_is_compressed_in E hw).
  - destruct (do_in_compress_pcm_read A E sin buffer bytes w)
      as [[[[r1 sin1] b1] w1] |] eqn:Hread; [| discriminate H].
    apply do_in_compress_pcm_read_timing in Hread.
    invert_results. exact Hread.
  - destruct (do_in_pcm_read A E fuel adev sin buffer bytes w)
      as [[[[r1 sin1] b1] w1] |] eqn:Hread; [| discriminate H].
    apply do_in_pcm_read_timing in Hread.
    invert_results. exact Hread.
Qed.

End InputReadFrame.

(** ** Input stream: a read returns *)

Lemma to_ssize_small a x : 0 <= x <= INT_MAX -> to_ssize a x = x.
Proof.
  intros H. unfold to_ssize, INT_MAX in *.
  apply wrap_s_small; destruct a; simpl; lia.
Qed.

Section InputReadTotal.

Variable A : abi.
Variable E : Env.

Lemma get_next_buffer_total sin buf w :
  discards_right sin = false ->
  exists st sin' buf' w',
    get_next_buffer A E sin buf w = Some (st, sin', buf', w')
    /\ i_common sin' = i_common sin
    /\ i_hw_channel_count sin' = i_hw_channel_count sin.
Proof.
  unfold discards_right. intros Hmono.
  unfold get_next_buffer, bind, call, ret.
  destruct (i_pcm sin) as [p |]; [| eauto 10].
  destruct (frames_in (resampler sin) =? 0); [| eauto 10].
  destruct (pcm_read E w (Some p) _) as [status data]. simpl.
  destruct (negb (status =? 0)); [eauto 10 |].
  rewrite Hmono. eauto 10.
Qed.

(** A pull hands out NULL and leaves a read status that is not 0, or it
    hands out data, and then the last event is not a refused read. *)
Lemma get_next_buffer_served sin buf w st sin' buf' w' :
  get_next_buffer A E sin buf w = Some (st, sin', buf', w') ->
  read_refused E w = false ->
  (raw buf' = None /\ read_status (resampler sin') <> 0)
  \/ (raw buf' <> None /\ read_refused E w' = false).
Proof.
  unfold get_next_buffer, bind, call, ret. intros H Hserved.
  destruct (i_pcm sin) as [p |].
  2:{ invert_results. left. split; [reflexivity |].
      simpl. unfold ENODEV. lia. }
  destruct (frames_in (resampler sin) =? 0).
  2:{ invert_results. right. split; [discriminate | exact Hserved]. }
  destruct (pcm_read E w (Some p) (to_u32 (in_buffer_size (resampler sin))))
    as [status data] eqn:Hread.
  cbv beta iota in H.
  assert (Hrefused :
            read_refused E
              (EvPcmRead (Some p) (to_u32 (in_buffer_size (resampler sin)))
                 :: w)
            = negb (status =? 0)).
  { cbn [read_refused]. rewrite Hread. reflexivity. }
  destruct (negb (status =? 0)) eqn:Hst.
  - invert_results. left. split; [reflexivity |]. simpl.
    apply negb_true_iff in Hst. apply Z.eqb_neq in Hst. exact Hst.
  - destruct ((i_channel_count (i_common sin) =? 1)
              && (i_hw_channel_count sin =? 2)).
    + destruct (discard_right_channel _ _); [| discriminate H].
      invert_results. right. split; [discriminate | exact Hrefused].
    + invert_results. right. split; [discriminate | exact Hrefused].
Qed.

Lemma resampler_pulls_total :
  forall script sin w,
    discards_right sin = false ->
    exists sin' w',
      resampler_pulls A E script sin w = Some (sin', w')
      /\ i_common sin' = i_common sin
      /\ i_hw_channel_count sin' = i_hw_channel_count sin.
Proof.
  induction script as [| [want used] script IH]; intros sin w Hmono.
  - exists sin, w. repeat split.
  - simpl. unfold bind.
    destruct (get_next_buffer_total sin (mk_resampler_buffer None want) w Hmono)
      as (st & sin1 & buf1 & w1 & -> & Hc & Hh).
    destruct (raw buf1).
    + destruct (IH (release_buffer A sin1 (mk_resampler_buffer (Some z) used))
                  w1) as (sin' & w' & -> & Hc' & Hh').
      * unfold discards_right in *. simpl. rewrite Hc, Hh. exact Hmono.
      * exists sin', w'. simpl in Hc', Hh'. repeat split; congruence.
    + exists sin1, w1. repeat split; assumption.
Qed.

(** When the pulls of the converter leave the read status at 0, none of
    them was refused. *)
Lemma resampler_pulls_served :
  forall script sin w sin' w',
    resampler_pulls A E script sin w = Some (sin', w') ->
    read_refused E w = false ->
    read_status (resampler sin') = 0 ->
    read_refused E w' = false.
Proof.
  induction script as [| [want used] script IH];
    intros sin w sin' w' H Hserved Hst.
  - simpl in H. unfold ret in H. invert_results. exact Hserved.
  - simpl in H. unfold bind in H.
    destruct (get_next_buffer A E sin (mk_resampler_buffer None want) w)
      as [[[[st sin1] buf1] w1] |] eqn:Hpull; [| discriminate H].
    destruct (get_next_buffer_served _ _ _ _ _ _ _ Hpull Hserved)
      as [[Hraw Hbad] | [Hraw Hok]].
    + rewrite Hraw in H. unfold ret in H. invert_results. contradiction.
    + destruct (raw buf1) as [z |]; [| contradiction].
      eapply IH; eassumption.
Qed.

Lemma resample_from_provider_total sin r n w :
  discards_right sin = false ->
  exists sin' w',
    resample_from_provider A E sin r n w
    = Some (sin', fst (resample_result E w' r n),
            snd (resample_result E w' r n), w')
    /\ i_common sin' = i_common sin
    /\ i_hw_channel_count sin' = i_hw_channel_count sin
    /\ (read_status (resampler sin') = 0 -> read_refused E w' = false).
Proof.
  intros Hmono. unfold resample_from_provider, bind, call, ask, ret.
  destruct (resampler_pulls_total (resample_script E w r n) sin
              (EvResample r n :: w) Hmono) as (sin' & w' & Hpulls & Hc & Hh).
  rewrite Hpulls.
  exists sin', w'. repeat split; try assumption.
  intros Hst.
  exact (resampler_pulls_served _ _ _ _ _ Hpulls eq_refl Hst).
Qed.

(** With a converter that makes progress while it is served, the loop of
    [read_resampled_frames] ends within as many iterations as there are
    frames left to produce: an iteration whose pull was refused ends it
    with the read status, whatever the converter reports. *)
Lemma read_resampled_frames_loop_total :
  converter_progress_while_served E ->
  forall fuel sin r buffer frames frames_wr w,
    discards_right sin = false ->
    0 <= frames_wr -> frames <= INT_MAX ->
    (Z.to_nat (frames - frames_wr) <= fuel)%nat ->
    exists n sin' buffer' w',
      read_resampled_frames_loop A E fuel sin r buffer frames frames_wr w
      = Some (n, sin', buffer', w').
Proof.
  intros Hprogress.
  induction fuel as [| fuel IH];
    intros sin r buffer frames frames_wr w Hmono Hwr Hmax Hfuel; simpl;
    destruct (frames_wr <? frames) eqn:Hlt; eqb_props;
    try (unfold ret; eauto 10; fail).
  - lia.
  - unfold bind.
    assert (Hrd : to_size A (frames - frames_wr) = frames - frames_wr)
      by (apply to_size_small; unfold INT_MAX in Hmax; lia).
    rewrite Hrd.
    destruct (resample_from_provider_total sin r (frames - frames_wr) w Hmono)
      as (sin1 & w1 & -> & Hc & Hh & Hserved).
    destruct (negb (read_status (resampler sin1) =? 0)) eqn:Hst;
      [unfold ret; eauto 10 |].
    apply negb_false_iff in Hst. apply Z.eqb_eq in Hst.
    destruct (Hprogress w1 r (frames - frames_wr)) as [Hp1 Hp2];
      [lia | exact (Hserved Hst) |].
    rewrite to_ssize_small by lia.
    apply IH; try lia.
    unfold discards_right in *. rewrite Hc, Hh. exact Hmono.
Qed.

End InputReadTotal.

Section InputReadReturns.

Variable A : abi.
Variable E : Env.

Lemma in_pcm_cfg_channel_count_mono sin :
  (i_channel_count (i_common sin) =? 1)
  && (in_pcm_cfg_channel_count sin =? 2) = false.
Proof.
  unfold in_pcm_cfg_channel_count.
  destruct (i_channel_count (i_common sin) =? 1) eqn:H1; [| reflexivity].
  eqb_props. rewrite H1. reflexivity.
Qed.

Lemma in_pcm_cfg_rate_not_0 hw : (in_pcm_cfg_rate hw =? 0) = false.
Proof.
  apply Z.eqb_neq. unfold in_pcm_cfg_rate, IN_SAMPLE_RATE_DEFAULT.
  destruct (rate hw =? 0) eqn:Hr; eqb_props; simpl; lia.
Qed.

(** Opening the PCM path returns, with 0 or an error; when it succeeds
    with audio enabled the hardware channel count is the stream's own, so
    no channel is discarded afterwards. *)
Lemma do_open_pcm_input_total adev sin w :
  disable_audio adev = true
  \/ to_size A (in_pcm_cfg_channel_count sin * i_frame_size (i_common sin))
     <> 0 ->
  exists r sin' w',
    do_open_pcm_input A E adev sin w = Some (r, sin', w')
    /\ (r = 0 \/ r < 0)
    /\ (r = 0 -> disable_audio adev = false -> discards_right sin' = false).
Proof.
  intros Hdiv.
  pose proof (in_pcm_cfg_channel_count_mono sin) as Hmono.
  unfold do_open_pcm_input.
  destruct (i_hw (i_common sin)) as [hw |] eqn:Hhw;
    [| exists (- EINVAL), sin, w; unfold EINVAL;
       repeat split; try (right; lia); intros; lia].
  pose proof (in_pcm_cfg_rate_not_0 hw) as Hrate.
  unfold in_pcm_fill_params, in_get_sample_rate, in_resampler_init,
    bind, call, ask, ret.
  simpl. rewrite ?Hhw, ?Hrate.
  destruct (disable_audio adev) eqn:Hen; simpl.
  - do 3 eexists. split; [reflexivity |].
    split; [left; reflexivity | intros _ Hfalse; discriminate Hfalse].
  - destruct Hdiv as [Hfalse | Hdiv]; [discriminate Hfalse |].
    apply Z.eqb_neq in Hdiv.
    repeat (break_match; simpl; rewrite ?Hhw, ?Hrate, ?Hdiv in * );
      eqb_props;
      try (exfalso; lia); try (exfalso; congruence); try discriminate;
      do 3 eexists; (split; [reflexivity |]);
      unfold ENOMEM, EINVAL;
      (split; [lia | intros Hr0 _; try lia]);
      unfold discards_right; simpl; exact Hmono.
Qed.

Lemma start_pcm_input_stream_total adev sin w :
  disable_audio adev = true
  \/ (to_size A (in_pcm_cfg_channel_count sin * i_frame_size (i_common sin))
      <> 0
      /\ (i_standby (i_common sin) = false -> discards_right sin = false)) ->
  exists r sin' w',
    start_pcm_input_stream A E adev sin w = Some (r, sin', w')
    /\ (r = 0 \/ r < 0)
    /\ (r = 0 -> disable_audio adev = false -> discards_right sin' = false).
Proof.
  intros Hdef. unfold start_pcm_input_stream, bind, ret.
  destruct (i_standby (i_common sin)) eqn:Hsb.
  - destruct (do_open_pcm_input_total adev sin w)
      as (r & sin1 & w1 & -> & Hr & Hmono);
      [destruct Hdef as [Hd | [Hd _]]; auto |].
    destruct (r =? 0) eqn:Hz; eqb_props.
    + exists r, (set_i_common sin1 (set_i_standby (i_common sin1) false)), w1.
      repeat split; auto.
    + exists r, sin1, w1. repeat split; auto.
  - exists 0, sin, w. split; [reflexivity |]. split; [left; reflexivity |].
    intros _ Hen. destruct Hdef as [Hd | [_ Hactive]]; [congruence |].
    apply Hactive. reflexivity.
Qed.

(** A read on the PCM path returns: with audio enabled, when the
    converter makes progress while it is served and there is fuel for one
    iteration per frame; with audio disabled, when the quotient of frame
    size and sample rate that its sleep time is divided by is not 0. *)
Lemma do_in_pcm_read_total fuel adev sin buffer bytes w :
  0 < i_frame_size (i_common sin) ->
  (if disable_audio adev then
     i_sample_rate (i_common sin) <> 0
     /\ i_frame_size (i_common sin) / i_sample_rate (i_common sin) <> 0
   else
     to_size A (in_pcm_cfg_channel_count sin * i_frame_size (i_common sin))
     <> 0
     /\ (i_standby (i_common sin) = false -> discards_right sin = false)) ->
  converter_progress_while_served E ->
  0 <= bytes <= INT_MAX ->
  (Z.to_nat (bytes / i_frame_size (i_common sin)) <= fuel)%nat ->
  exists r sin' buffer' w',
    do_in_pcm_read A E fuel adev sin buffer bytes w
    = Some (r, sin', buffer', w').
Proof.
  intros Hfs Hmode Hprogress Hb Hfuel.
  assert (Hfr : 0 <= bytes / i_frame_size (i_common sin) <= INT_MAX).
  { split; [apply Z.div_pos; lia |].
    transitivity bytes; [| lia].
    apply Z.div_le_upper_bound; nia. }
  unfold do_in_pcm_read, bind.
  destruct (i_frame_size (i_common sin) =? 0) eqn:Hz; eqb_props; [lia |].
  destruct (start_pcm_input_stream_total adev sin w)
    as (r1 & sin1 & w1 & Hstart & Hr1 & Hmono).
  { destruct (disable_audio adev); [left; reflexivity | right; exact Hmode]. }
  pose proof (start_pcm_input_stream_timing A E _ _ _ _ _ _ Hstart) as Htiming.
  unfold timing in Htiming. injection Htiming as Hfs1 Hsr1 _.
  rewrite Hstart.
  destruct (r1 <? 0) eqn:Hneg; eqb_props; [unfold ret; eauto 10 |].
  destruct (disable_audio adev) eqn:Hen.
  - destruct Hmode as [Hsr Hquot].
    change (negb true) with false. cbv iota beta.
    rewrite Hfs1, Hsr1.
    apply Z.eqb_neq in Hsr, Hquot. rewrite Hsr, Hquot.
    unfold call, ret. eauto 10.
  - change (negb false) with true. cbv iota beta.
    destruct (rs_resampler (resampler sin1)) as [rs |].
    + unfold read_resampled_frames. rewrite to_ssize_small by exact Hfr.
      destruct (read_resampled_frames_loop_total A E Hprogress fuel sin1 rs
                  buffer (bytes / i_frame_size (i_common sin)) 0 w1)
        as (n & sin2 & buf2 & w2 & ->);
        [ apply Hmono; [lia | reflexivity] | lia | lia
        | rewrite Z.sub_0_r; exact Hfuel | ].
      unfold ret. destruct (0 <=? to_int n); eauto 10.
    + unfold call, ret.
      destruct (0 <=? fst (pcm_read E w1 (i_pcm sin1) (to_u32 bytes)));
        eauto 10.
Qed.

Lemma do_in_compress_pcm_read_total sin buffer bytes w :
  to_size A (i_frame_size (i_common sin) * i_sample_rate (i_common sin))
  <> 0 ->
  exists r sin' buffer' w',
    do_in_compress_pcm_read A E sin buffer bytes w
    = Some (r, sin', buffer', w').
Proof.
  intros Hd.
  destruct (start_compress_pcm_input_stream_total A E sin w Hd)
    as (r1 & sin1 & w1 & Hstart & Htiming).
  unfold do_in_compress_pcm_read, bind. rewrite Hstart.
  destruct (r1 <? 0); [unfold ret; eauto 10 |].
  unfold call at 1.
  destruct (compress_read E w1 (i_compress sin1) (to_u32 bytes))
    as [n data].
  destruct (0 <? n); [| unfold ret; eauto 10].
  rewrite do_in_realtime_delay_events; [unfold ret; eauto 10 |].
  right. unfold timing in Htiming. injection Htiming as -> -> _. exact Hd.
Qed.

Lemma in_pcm_read_dispatch_total fuel adev sin buffer bytes w :
  transport_read_defined A E adev sin w ->
  converter_progress_while_served E ->
  0 <= bytes <= INT_MAX ->
  (Z.to_nat (bytes / i_frame_size (i_common sin)) <= fuel)%nat ->
  exists r sin' buffer' w',
    in_pcm_read_dispatch A E fuel adev sin buffer bytes w
    = Some (r, sin', buffer', w').
Proof.
  intros Hdef Hprogress Hb Hfuel.
  unfold in_pcm_read_dispatch, bind, ask, ret.
  destruct (i_hw (i_common sin)) as [hw |] eqn:Hhw; [| eauto 10].
  destruct (get_current_routes E w hw =? 0) eqn:Hroutes; [eauto 10 |].
  eqb_props. specialize (Hdef hw Hhw Hroutes).
  destruct (stream_is_compressed_in E hw) eqn:Hkind.
  - destruct (do_in_compress_pcm_read_total sin buffer bytes w Hdef)
      as (r & sin' & buf' & w' & ->). eauto 10.
  - destruct Hdef as [Hfs Hmode].
    destruct (do_in_pcm_read_total fuel adev sin buffer bytes w
                Hfs Hmode Hprogress Hb Hfuel)
      as (r & sin' & buf' & w' & ->). eauto 10.
Qed.

(** With audio disabled a read on a PCM route does not return when the
    stream's frame size is smaller than its sample rate: the sleep time
    is divided by their quotient, which is 0. *)
Lemma in_pcm_read_dispatch_audio_disabled fuel adev sin buffer bytes w hw :
  i_hw (i_common sin) = Some hw ->
  get_current_routes E w hw <> 0 ->
  stream_is_compressed_in E hw = false ->
  disable_audio adev = true ->
  i_sample_rate (i_common sin) = 0
  \/ i_frame_size (i_common sin) / i_sample_rate (i_common sin) = 0 ->
  in_pcm_read_dispatch A E fuel adev sin buffer bytes w = None.
Proof.
  intros Hhw Hroutes Hkind Hen Hquot.
  unfold in_pcm_read_dispatch, bind, ask.
  rewrite Hhw. apply Z.eqb_neq in Hroutes. rewrite Hroutes, Hkind.
  destruct (do_in_pcm_read A E fuel adev sin buffer bytes w)
    as [[[[r sin'] buf'] w'] |] eqn:Hread; [exfalso | reflexivity].
  unfold do_in_pcm_read, bind in Hread.
  destruct (i_frame_size (i_common sin) =? 0); [discriminate Hread |].
  destruct (start_pcm_input_stream A E adev sin w)
    as [[[r1 sin1] w1] |] eqn:Hstart; [| discriminate Hread].
  pose proof (start_pcm_input_stream_timing A E _ _ _ _ _ _ Hstart) as Htiming.
  unfold timing in Htiming. injection Htiming as Hfs1 Hsr1 _.
  assert (Hr1 : (r1 <? 0) = false).
  { unfold start_pcm_input_stream, do_open_pcm_input, in_pcm_fill_params,
      bind, ret in Hstart.
    rewrite Hhw, Hen in Hstart.
    destruct (i_standby (i_common sin)); [| invert_results; reflexivity].
    simpl in Hstart. rewrite in_pcm_cfg_rate_not_0 in Hstart.
    simpl in Hstart. invert_results. reflexivity. }
  rewrite Hr1, Hen in Hread. change (negb true) with false in Hread.
  cbv beta iota in Hread. rewrite Hfs1, Hsr1 in Hread.
  destruct Hquot as [Hz | Hz].
  - rewrite Hz in Hread. discriminate Hread.
  - destruct (i_sample_rate (i_common sin) =? 0); [discriminate Hread |].
    rewrite Hz in Hread. discriminate Hread.
Qed.

Lemma firstn_memset0 buffer bytes :
  firstn (Z.to_nat bytes) (memset0 buffer bytes) = repeat 0 (Z.to_nat bytes).
Proof.
  unfold memset0.
  rewrite firstn_app, repeat_length, Nat.sub_diag. simpl.
  rewrite app_nil_r. apply firstn_all2. rewrite repeat_length. lia.
Qed.

(** On an active stream routed to a compressed path, what the dispatch
    hands to the safety net is what [compress_read] returned: an error
    or a zero-length read is a value [<= 0]. *)
Lemma in_pcm_read_dispatch_compressed fuel adev sin buffer bytes w hw :
  i_hw (i_common sin) = Some hw ->
  get_current_routes E w hw <> 0 ->
  stream_is_compressed_in E hw = true ->
  i_standby (i_common sin) = false ->
  fst (compress_read E w (i_compress sin) (to_u32 bytes)) <= 0 ->
  in_pcm_read_dispatch A E fuel adev sin buffer bytes w
  = Some (to_int (fst (compress_read E w (i_compress sin) (to_u32 bytes))),
          sin,
          store_at buffer 0
            (snd (compress_read E w (i_compress sin) (to_u32 bytes))),
          EvCompressRead (i_compress sin) (to_u32 bytes) :: w).
Proof.
  intros Hhw Hroutes Hkind Hactive Hfail.
  unfold in_pcm_read_dispatch, do_in_compress_pcm_read,
    start_compress_pcm_input_stream, bind, ask, call, ret.
  rewrite Hhw. apply Z.eqb_neq in Hroutes. rewrite Hroutes, Hkind, Hactive.
  simpl.
  destruct (compress_read E w (i_compress sin) (to_u32 bytes)) as [n data].
  simpl in *.
  destruct (0 <? n) eqn:Hpos; eqb_props; [lia | reflexivity].
Qed.

(** The same for a PCM path read directly: a failed [pcm_read] (a
    negative status) reaches the safety net as it is. *)
Lemma in_pcm_read_dispatch_pcm fuel adev sin buffer bytes w hw :
  i_hw (i_common sin) = Some hw ->
  get_current_routes E w hw <> 0 ->
  stream_is_compressed_in E hw = false ->
  i_standby (i_common sin) = false ->
  disable_audio adev = false ->
  rs_resampler (resampler sin) = None ->
  i_frame_size (i_common sin) <> 0 ->
  fst (pcm_read E w (i_pcm sin) (to_u32 bytes)) < 0 ->
  in_pcm_read_dispatch A E fuel adev sin buffer bytes w
  = Some (to_int (fst (pcm_read E w (i_pcm sin) (to_u32 bytes))),
          sin,
          store_at buffer 0 (snd (pcm_read E w (i_pcm sin) (to_u32 bytes))),
          EvPcmRead (i_pcm sin) (to_u32 bytes) :: w).
Proof.
  intros Hhw Hroutes Hkind Hactive Hen Hrs Hfs Hfail.
  unfold in_pcm_read_dispatch, do_in_pcm_read, start_pcm_input_stream,
    bind, ask, call, ret.
  rewrite Hhw. apply Z.eqb_neq in Hroutes, Hfs.
  rewrite Hroutes, Hkind, Hfs, Hactive, Hen. simpl. rewrite Hrs. simpl.
  destruct (0 <=? fst (pcm_read E w (i_pcm sin) (to_u32 bytes))) eqn:Hok;
    eqb_props; [lia | reflexivity].
Qed.

(** The real-time delay does not return on a stream that has been read
    before and whose frame size times sample rate is 0. *)
Lemma do_in_realtime_delay_undefined c bytes w :
  last_read_ns c <> 0 ->
  to_size A (i_frame_size c * i_sample_rate c) = 0 ->
  do_in_realtime_delay A E c bytes w = None.
Proof.
  intros Hlast Hd. unfold do_in_realtime_delay.
  apply Z.eqb_neq in Hlast. apply Z.eqb_eq in Hd.
  rewrite Hlast, Hd. reflexivity.
Qed.

(** C7. Let [r0] be what the transport read of [in_pcm_read] came back
    with: negative for an error (also when the stream has no source or no
    route, and when a hardware read behind the rate converter failed), 0
    for a zero-length read, the byte count otherwise.  For a request of
    at most [INT_MAX] bytes:
    - the transport read returns whenever its own divisions are defined,
      the rate converter makes progress while its pulls are served, and
      there is fuel for one iteration per frame;
    - once it has returned, and the stream has not been read before or
      its frame size times sample rate is not 0 (or data was captured),
      [in_pcm_read] returns: if [r0 <= 0] or the device is muted, the
      first [bytes] bytes of the caller's buffer are all zero and the
      return value is [bytes]; the real-time delay for the full [bytes]
      at the stream's rate, measured from the previous read, is run
      exactly when [r0 <= 0] -- when data was captured, muted or not, the
      read adds nothing but the reading of the clock for the new
      timestamp; if data was captured and the device is not muted, the
      data and the transport's count are returned;
    - but when no data was captured on a stream that has been read before
      and whose frame size times sample rate is 0 -- a stream opened with
      sample rate 0, which [in_get_sample_rate] takes to mean the
      hardware's rate -- the delay divides by zero and [in_pcm_read] does
      not return: no silence, no byte count;
    - nor does it return when the transport read does not, as on a PCM
      route with audio disabled and a frame size smaller than the sample
      rate, where the sleep time is divided by their quotient 0. *)
Theorem in_pcm_read_silence_on_failure :
  forall (fuel : nat) (adev : audio_device) (sin : stream_in_pcm)
         (buffer : list Z) (bytes : Z) (w : trace),
    0 <= bytes <= INT_MAX ->
    (transport_read_defined A E adev sin w ->
     converter_progress_while_served E ->
     (Z.to_nat (bytes / i_frame_size (i_common sin)) <= fuel)%nat ->
     exists r0 sin0 buf0 w0,
       in_pcm_read_dispatch A E fuel adev sin buffer bytes w
       = Some (r0, sin0, buf0, w0))
    /\ (forall r0 sin0 buf0 w0,
          in_pcm_read_dispatch A E fuel adev sin buffer bytes w
          = Some (r0, sin0, buf0, w0) ->
          (0 < r0 \/ last_read_ns (i_common sin) = 0
           \/ to_size A (i_frame_size (i_common sin)
                         * i_sample_rate (i_common sin)) <> 0 ->
           exists ret_ sin' buf',
             in_pcm_read A E fuel adev sin buffer bytes w
             = Some (ret_, sin', buf',
                     EvSystemTime
                       :: (if r0 <=? 0
                           then realtime_delay_events A E (i_common sin)
                                  bytes w0
                           else [])
                       ++ w0)
             /\ (r0 <= 0 \/ mic_mute adev = true ->
                 ret_ = bytes
                 /\ firstn (Z.to_nat bytes) buf'
                    = repeat 0 (Z.to_nat bytes))
             /\ (0 < r0 -> mic_mute adev = false ->
                 ret_ = r0 /\ buf' = buf0))
          /\ (r0 <= 0 ->
              last_read_ns (i_common sin) <> 0 ->
              to_size A (i_frame_size (i_common sin)
                         * i_sample_rate (i_common sin)) = 0 ->
              in_pcm_read A E fuel adev sin buffer bytes w = None))
    /\ (in_pcm_read_dispatch A E fuel adev sin buffer bytes w = None ->
        in_pcm_read A E fuel adev sin buffer bytes w = None)
    /\ (forall hw,
          i_hw (i_common sin) = Some hw ->
          get_current_routes E w hw <> 0 ->
          stream_is_compressed_in E hw = false ->
          disable_audio adev = true ->
          i_sample_rate (i_common sin) = 0
          \/ i_frame_size (i_common sin) / i_sample_rate (i_common sin) = 0 ->
          in_pcm_read A E fuel adev sin buffer bytes w = None).
Proof.
  intros fuel adev sin buffer bytes w Hb.
  split; [| split; [| split]].
  - intros Hdef Hprogress Hfuel.
    exact (in_pcm_read_dispatch_total fuel adev sin buffer bytes w
             Hdef Hprogress Hb Hfuel).
  - intros r0 sin0 buf0 w0 Hdispatch.
    pose proof (in_pcm_read_dispatch_timing A E _ _ _ _ _ _ _ _ _ _ Hdispatch)
      as Htiming.
    unfold timing in Htiming. injection Htiming as Hfs0 Hsr0 Hlast0.
    unfold in_pcm_read, bind. rewrite Hdispatch.
    unfold do_in_set_read_timestamp, bind, call, ret.
    split.
    + intros Hdefined.
      destruct (r0 <=? 0) eqn:Hr0; eqb_props; cbn [orb]; cbv beta iota.
      * assert (Hdelay :
                  do_in_realtime_delay A E (i_common sin0) bytes w0
                  = Some (tt, realtime_delay_events A E (i_common sin) bytes w0
                              ++ w0)).
        { rewrite do_in_realtime_delay_events.
          - rewrite (realtime_delay_events_timing A E (i_common sin)
                       (i_common sin0))
              by (unfold timing; congruence).
            reflexivity.
          - rewrite Hfs0, Hsr0, Hlast0.
            destruct Hdefined as [Hpos | [Hfirst | Hd]];
              [lia | left; exact Hfirst | right; exact Hd]. }
        rewrite Hdelay. do 3 eexists.
        split; [reflexivity |]. split; [| intros; lia].
        intros _.
        split; [apply to_int_small; exact Hb | apply firstn_memset0].
      * destruct (mic_mute adev) eqn:Hmute.
        -- do 3 eexists.
           split; [reflexivity |]. split; [| intros; discriminate].
           intros _.
           split; [apply to_int_small; exact Hb | apply firstn_memset0].
        -- do 3 eexists.
           split; [reflexivity |].
           split; [intros [Hneg | Hm]; [lia | discriminate Hm] |].
           intros _ _. split; reflexivity.
    + intros Hr0 Hlast Hd.
      apply Z.leb_le in Hr0. rewrite Hr0. cbn [orb]. cbv beta iota.
      rewrite do_in_realtime_delay_undefined;
        [reflexivity | congruence | rewrite Hfs0, Hsr0; exact Hd].
  - intros Hnone. unfold in_pcm_read, bind. rewrite Hnone. reflexivity.
  - intros hw Hhw Hroutes Hkind Hen Hquot.
    unfold in_pcm_read, bind.
    rewrite (in_pcm_read_dispatch_audio_disabled fuel adev sin buffer bytes w
               hw Hhw Hroutes Hkind Hen Hquot).
    reflexivity.
Qed.

End InputReadReturns.

(** ** The theorems at concrete inputs *)

Lemma env_ok_converter_progress routes rd :
  converter_progress (env_ok routes rd).
Proof. intros w r n Hn. simpl. lia. Qed.

Lemma env_read_fails_converter_progress :
  converter_progress_while_served env_read_fails.
Proof. intros w r n Hn _. simpl. lia. Qed.

Lemma env_starved_converter_progress :
  converter_progress_while_served env_starved.
Proof.
  intros w r n Hn Hserved.
  destruct w as [| e w]; [simpl; lia |].
  destruct e; try (simpl; lia).
  simpl in Hserved. discriminate Hserved.
Qed.

(** Two reads that capture nothing.  On a stream that resamples, 1 ms
    after the previous read, the hardware read behind the converter fails
    and the converter reports no frame: silence, 64 returned, after the
    clock showed that the time 64 bytes stand for has passed.  On a stream
    opened
    with sample rate 0 the first failed read gives silence and 64; the
    second one does not return. *)
Lemma in_pcm_read_silence_on_failure_witness :
  (exists sin',
     in_pcm_read LP64 env_starved 32 adev_idle in_drained
       (repeat 7 64%nat) 64 []
     = Some (64, sin', repeat 0 64%nat,
             [EvSystemTime; EvSystemTime;
              EvPcmRead (Some 7) 512; EvResample 11 32]))
  /\ (exists sin1 w1,
        in_pcm_read LP64 env_read_fails 32 adev_idle in_default_rate
          (repeat 7 64%nat) 64 []
        = Some (64, sin1, repeat 0 64%nat, w1)
        /\ in_pcm_read LP64 env_read_fails 32 adev_idle sin1
             (repeat 7 64%nat) 64 w1
           = None).
Proof.
  assert (Hb : 0 <= 64 <= INT_MAX) by (unfold INT_MAX; lia).
  split.
  - destruct (in_pcm_read_silence_on_failure LP64 env_starved 32 adev_idle
                in_drained (repeat 7 64%nat) 64 [] Hb)
      as (Hreturns & Hcases & _).
    destruct Hreturns as (r0 & sin0 & buf0 & w0 & Hd).
    + intros hw Hhw _. vm_compute in Hhw. injection Hhw as <-.
      vm_compute. repeat split; discriminate.
    + exact env_starved_converter_progress.
    + vm_compute. lia.
    + destruct (Hcases r0 sin0 buf0 w0 Hd) as (Hdefined & _).
      destruct Hdefined as (ret_ & sin' & buf' & Hrun & _).
      { right. right. vm_compute. discriminate. }
      vm_compute in Hd. injection Hd as <- <- <- <-.
      rewrite Hrun. vm_compute in Hrun.
      injection Hrun as Hret Hsin Hbuf. subst ret_ sin' buf'.
      vm_compute. eexists. reflexivity.
  - destruct (in_pcm_read_silence_on_failure LP64 env_read_fails 32 adev_idle
                in_default_rate (repeat 7 64%nat) 64 [] Hb)
      as (Hreturns & Hcases & _).
    destruct Hreturns as (r0 & sin0 & buf0 & w0 & Hd).
    + intros hw Hhw _. vm_compute in Hhw. injection Hhw as <-.
      vm_compute. repeat split; discriminate.
    + exact env_read_fails_converter_progress.
    + vm_compute. lia.
    + destruct (Hcases r0 sin0 buf0 w0 Hd) as (Hdefined & _).
      destruct Hdefined as (ret_ & sin1 & buf1 & Hrun & _).
      { right. left. reflexivity. }
      vm_compute in Hd. injection Hd as <- <- <- <-.
      pose proof Hrun as Hval. vm_compute in Hval.
      injection Hval as Hret Hsin Hbuf. subst ret_ sin1 buf1.
      eexists _, _. split; [exact Hrun |].
      match goal with
      | |- in_pcm_read ?a ?e ?f ?ad ?s ?b ?n ?t = None =>
          destruct (in_pcm_read_silence_on_failure a e f ad s b n t Hb)
            as (_ & Hcases1 & Hnone & _);
          destruct (in_pcm_read_dispatch a e f ad s b n t)
            as [[[[r2 sin2] buf2] w2] |] eqn:Hd2;
          [| exact (Hnone eq_refl)]
      end.
      destruct (Hcases1 r2 sin2 buf2 w2 eq_refl) as (_ & Hundefined).
      apply Hundefined.
      * vm_compute in Hd2. injection Hd2 as <- _ _ _. lia.
      * vm_compute. discriminate.
      * vm_compute. reflexivity.
Defined.



(** * Further properties of the code *)

(** ** Voice trigger arbitrator *)

Section VoiceTriggerMore.

Variable E : Env.

Lemma voice_trigger_handle_mode ev adev w :
  exists adev' w',
    voice_trigger_handle E ev adev w = Some (adev', w')
    /\ voice_mode_of (voice_st adev') = voice_mode_of (voice_st adev)
    /\ (voice_st adev = eVoiceNone -> adev' = adev /\ w' = w).
Proof.
  destruct adev as [da mm avc vs mic gs vts].
  destruct ev; unfold voice_trigger_handle, voice_trigger_enable,
    voice_trigger_disable, voice_trigger_triggered,
    voice_trigger_audio_started_locked, voice_trigger_audio_ended_locked,
    do_voice_trigger_open_stream, do_voice_trigger_close_stream,
    bind, call, ret; simpl;
    repeat (break_match; simpl);
    do 2 eexists; (split; [reflexivity |]);
    (split; [reflexivity | intros Hnone; try discriminate Hnone; auto]).
Qed.

(** X1. Whatever events arrive, the arbitrator stays in the kind of
    hardware it was initialised for: a trigger-only state never becomes a
    recognition state or [eVoiceNone], and so on.  With no voice hardware
    ([eVoiceNone]) every event sequence leaves the whole device untouched
    and makes no external call. *)
Theorem voice_trigger_replay_keeps_mode :
  forall (evs : list voice_event) (adev : audio_device) (w : trace),
  exists adev' w',
    voice_trigger_replay E evs adev w = Some (adev', w')
    /\ voice_mode_of (voice_st adev') = voice_mode_of (voice_st adev)
    /\ (voice_st adev = eVoiceNone -> adev' = adev /\ w' = w).
Proof.
  induction evs as [| ev evs IH]; intros adev w; simpl.
  - exists adev, w. repeat split.
  - destruct (voice_trigger_handle_mode ev adev w)
      as (adev1 & w1 & Hstep & Hmode1 & Hnone1).
    destruct (IH adev1 w1) as (adev2 & w2 & Hrun & Hmode2 & Hnone2).
    exists adev2, w2. unfold bind. rewrite Hstep, Hrun.
    split; [reflexivity |]. split; [congruence |].
    intros Hnone. destruct (Hnone1 Hnone) as [-> ->].
    apply Hnone2. exact Hnone.
Qed.

(** X2. [voice_trigger_enable] and [voice_trigger_disable] are
    idempotent: calling either a second time in a row changes nothing in
    the device and makes no further external call. *)
Theorem voice_trigger_enable_disable_idempotent :
  forall (adev : audio_device) (w : trace),
    (exists adev1 w1,
       voice_trigger_enable E adev w = Some (adev1, w1)
       /\ voice_trigger_enable E adev1 w1 = Some (adev1, w1))
    /\ (exists adev1 w1,
          voice_trigger_disable adev w = Some (adev1, w1)
          /\ voice_trigger_disable adev1 w1 = Some (adev1, w1)).
Proof.
  intros adev w. destruct adev as [da mm avc vs mic gs vts].
  split;
    unfold voice_trigger_enable, voice_trigger_disable,
      do_voice_trigger_open_stream, do_voice_trigger_close_stream,
      bind, call, ret; simpl;
    repeat (break_match; simpl);
    do 2 eexists; split; reflexivity.
Qed.

Hypothesis trigger_stream_defined :
  forall w, get_named_stream E w kVoiceTriggerStreamName <> None.

Lemma arm_and_fire_round adev w :
  voice_st adev = eVoiceTriggerIdle \/ voice_st adev = eVoiceTriggerFired ->
  exists adev' w',
    voice_trigger_replay E [evEnable; evTriggerFired] adev w
    = Some (adev', w')
    /\ voice_st adev' = eVoiceTriggerFired
    /\ acquisitions E w' = S (acquisitions E w)
    /\ releases w' = releases w.
Proof.
  pose proof (trigger_stream_defined w) as Hdef.
  destruct adev as [da mm avc vs mic gs vts]. simpl.
  intros [-> | ->];
    unfold voice_trigger_replay, voice_trigger_handle, voice_trigger_enable,
      voice_trigger_triggered, do_voice_trigger_open_stream,
      bind, call, ret; simpl;
    destruct (get_named_stream E w kVoiceTriggerStreamName) as [h |] eqn:Hget;
    try contradiction; simpl;
    do 2 eexists; (split; [reflexivity |]); simpl; rewrite Hget;
    repeat split.
Qed.

Lemma voice_trigger_replay_app evs1 :
  forall evs2 adev w adev1 w1,
    voice_trigger_replay E evs1 adev w = Some (adev1, w1) ->
    voice_trigger_replay E (evs1 ++ evs2) adev w
    = voice_trigger_replay E evs2 adev1 w1.
Proof.
  induction evs1 as [| ev evs1 IH]; intros evs2 adev w adev1 w1 H; simpl in *.
  - unfold ret in H. invert_results. reflexivity.
  - unfold bind in *.
    destruct (voice_trigger_handle E ev adev w) as [[a0 w0] |];
      [| discriminate H].
    apply IH. exact H.
Qed.

Lemma arm_and_fire_rounds :
  forall n adev w,
    voice_st adev = eVoiceTriggerIdle \/ voice_st adev = eVoiceTriggerFired ->
    exists adev' w',
      voice_trigger_replay E (arm_and_fire n) adev w = Some (adev', w')
      /\ (voice_st adev' = eVoiceTriggerIdle
          \/ voice_st adev' = eVoiceTriggerFired)
      /\ acquisitions E w' = (acquisitions E w + n)%nat
      /\ releases w' = releases w.
Proof.
  induction n as [| n IH]; intros adev w Hst.
  - exists adev, w. simpl. repeat split; auto.
  - destruct (arm_and_fire_round adev w Hst)
      as (adev1 & w1 & Hround & Hst1 & Hacq1 & Hrel1).
    destruct (IH adev1 w1 (or_intror Hst1))
      as (adev2 & w2 & Hrest & Hst2 & Hacq2 & Hrel2).
    exists adev2, w2.
    change (arm_and_fire (S n))
      with ([evEnable; evTriggerFired] ++ arm_and_fire n).
    rewrite (voice_trigger_replay_app _ _ _ _ _ _ Hround), Hrest.
    repeat split; auto; lia.
Qed.

(** X3. In trigger-only mode, with a configuration that defines the
    trigger stream, every re-arming after a trigger acquires the named
    stream again without handing back the one acquired before: [n]
    rounds of enable / triggerFired followed by a disable acquire [n]
    streams and release at most one. *)
Theorem voice_trigger_rearm_acquires_without_release :
  forall (n : nat) (adev : audio_device) (w : trace),
    voice_st adev = eVoiceTriggerIdle ->
    exists adev' w',
      voice_trigger_replay E (arm_and_fire n ++ [evDisable]) adev w
      = Some (adev', w')
      /\ voice_st adev' = eVoiceTriggerIdle
      /\ acquisitions E w' = (acquisitions E w + n)%nat
      /\ (releases w' <= releases w + 1)%nat.
Proof.
  intros n adev w Hidle.
  destruct (arm_and_fire_rounds n adev w (or_introl Hidle))
    as (adev1 & w1 & Hrounds & Hst1 & Hacq1 & Hrel1).
  rewrite (voice_trigger_replay_app _ _ _ _ _ _ Hrounds).
  destruct adev1 as [da mm avc vs mic gs vts]. simpl in Hst1.
  destruct Hst1 as [-> | ->];
    unfold voice_trigger_replay, voice_trigger_handle, voice_trigger_disable,
      do_voice_trigger_close_stream, bind, call, ret; simpl;
    repeat (break_match; simpl);
    do 2 eexists; (split; [reflexivity |]); simpl;
    repeat split; lia.
Qed.

End VoiceTriggerMore.

Lemma env_named_defines_streams :
  forall w, get_named_stream env_named w kVoiceTriggerStreamName <> None.
Proof. intros w. discriminate. Qed.

Lemma voice_trigger_rearm_acquires_without_release_witness :
  exists adev' w',
    voice_trigger_replay env_named
      [evEnable; evTriggerFired; evEnable; evTriggerFired; evDisable]
      (mk_audio_device false false None eVoiceTriggerIdle 0 None None) []
    = Some (adev', w')
    /\ acquisitions env_named w' = 2%nat
    /\ (releases w' <= 1)%nat.
Proof.
  destruct (voice_trigger_rearm_acquires_without_release env_named
              env_named_defines_streams 2
              (mk_audio_device false false None eVoiceTriggerIdle 0 None None)
              [] eq_refl)
    as (adev' & w' & Hrun & _ & Hacq & Hrel).
  exists adev', w'. split; [exact Hrun |]. split; [exact Hacq | exact Hrel].
Defined.

(** ** Input source switching *)

Section InputSourceMore.

Variable E : Env.

(** X4. What a call of [change_input_source_locked] can do.  It returns 0
    or [-EINVAL].  When it reports no change -- an error, or the source
    the stream already has -- the stream and the device are exactly as
    before and no stream was handed back to the configuration manager.
    When it reports a change it returned 0, the stream is still in
    standby, has the requested source and a hardware stream, and the
    hardware stream it had before (if any) was handed back. *)
Theorem change_input_source_outcome :
  forall (adev : audio_device) (p : ptr) (sin : stream_in_pcm)
         (new_source devices : Z) (w : trace),
  exists r changed sin' adev' w',
    change_input_source_locked E adev p sin new_source devices w
    = Some (r, changed, sin', adev', w')
    /\ (r = 0 \/ r = - EINVAL)
    /\ (changed = false ->
        sin' = sin /\ adev' = adev
        /\ forall h, In (EvReleaseStream h) w' -> In (EvReleaseStream h) w)
    /\ (changed = true ->
        r = 0
        /\ i_standby (i_common sin') = true
        /\ input_source (i_common sin') = new_source
        /\ i_hw (i_common sin') <> None
        /\ forall old, i_hw (i_common sin) = Some old ->
                       In (EvReleaseStream old) w').
Proof.
  intros adev p sin new_source devices w.
  destruct adev as [da mm avc vs mic gs vts].
  unfold change_input_source_locked, voice_trigger_audio_started_locked,
    voice_trigger_audio_ended_locked, do_voice_trigger_close_stream,
    voice_trigger_audio_stream_name, bind, call, ret.
  simpl.
  repeat (break_match; simpl); eqb_props;
    do 5 eexists; (split; [reflexivity |]);
    (split; [auto |]);
    (split; intros Hch; try discriminate Hch);
    repeat split; simpl; auto; try discriminate;
    try (intros h Hin; simpl in Hin;
         repeat (destruct Hin as [Hin | Hin]; [discriminate Hin |]);
         exact Hin);
    try (intros old Hold; invert_results; simpl; tauto);
    try (apply negb_false_iff; assumption).
Qed.

(** X5. A whole capture after a trigger.  With the recogniser fired and
    the "voice recognition" stream defined, a stream in standby that asks
    for the voice-recognition source gets the dedicated stream, becomes
    the registered voice-control input, and the arbitrator goes to
    [eVoiceRecogAudio].  Closing that stream clears the registration,
    takes the arbitrator to [eVoiceRecogIdle], routes the trigger path
    to nothing and hands it back, and hands back the stream's own
    hardware stream. *)
Theorem voice_recognition_capture_cycle :
  forall (adev : audio_device) (p : ptr) (sin : stream_in_pcm)
         (devices : Z) (w : trace) (h : hw_stream),
    voice_st adev = eVoiceRecogFired ->
    i_standby (i_common sin) = true ->
    input_source (i_common sin) <> AUDIO_SOURCE_VOICE_RECOGNITION ->
    get_named_stream E w kVoiceRecogStreamName = Some h ->
    exists sin1 adev1 w1 adev2 w2,
      change_input_source_locked E adev p sin AUDIO_SOURCE_VOICE_RECOGNITION
        devices w = Some (0, true, sin1, adev1, w1)
      /\ i_hw (i_common sin1) = Some h
      /\ active_voice_control adev1 = Some p
      /\ voice_st adev1 = eVoiceRecogAudio
      /\ do_close_in_common E adev1 p sin1 w1 = Some (adev2, w2)
      /\ active_voice_control adev2 = None
      /\ voice_st adev2 = eVoiceRecogIdle
      /\ In (EvReleaseStream h) w2
      /\ (forall t, voice_trig_stream adev = Some t ->
                    In (EvApplyRoute t 0) w2 /\ In (EvReleaseStream t) w2).
Proof.
  intros adev p sin devices w h Hfired Hsb Hsrc Hnamed.
  destruct adev as [da mm avc vs mic gs vts]. simpl in Hfired. subst vs.
  apply Z.eqb_neq in Hsrc.
  assert (Hchange :
            exists w1,
              change_input_source_locked E
                (mk_audio_device da mm avc eVoiceRecogFired mic gs vts) p sin
                AUDIO_SOURCE_VOICE_RECOGNITION devices w
              = Some (0, true,
                      set_i_common
                        (set_i_common sin (set_i_hw (i_common sin) (Some h)))
                        (set_input_source (set_i_hw (i_common sin) (Some h))
                           AUDIO_SOURCE_VOICE_RECOGNITION),
                      mk_audio_device da mm (Some p) eVoiceRecogAudio mic gs
                        vts, w1)).
  { unfold change_input_source_locked, voice_trigger_audio_started_locked,
      voice_trigger_audio_stream_name, bind, call, ret.
    rewrite Hsb, Hsrc. simpl. rewrite Hnamed.
    destruct (i_hw (i_common sin)); simpl; eauto. }
  destruct Hchange as (w1 & Hchange).
  set (sin1 := set_i_common _ _) in Hchange.
  set (adev1 := mk_audio_device da mm (Some p) eVoiceRecogAudio mic gs vts)
    in Hchange.
  destruct (in_pcm_standby_total E sin1 w1) as (sin2 & w2 & Hstandby & Hhw).
  assert (Hhw1 : i_hw (i_common sin1) = Some h) by reflexivity.
  assert (Hclose :
            exists w3,
              do_close_in_common E adev1 p sin1 w1
              = Some (mk_audio_device da mm None eVoiceRecogIdle mic gs vts,
                      EvFree :: EvReleaseStream h :: w3)
              /\ forall t, vts = Some t ->
                           In (EvApplyRoute t 0) w3
                           /\ In (EvReleaseStream t) w3).
  { unfold do_close_in_common, bind. rewrite Hstandby.
    cbn [snd]. rewrite Hhw, Hhw1. subst adev1.
    cbn [active_voice_control set_active_voice_control].
    rewrite Z.eqb_refl.
    unfold voice_trigger_audio_ended_locked, do_voice_trigger_close_stream,
      bind, call, ret. simpl.
    destruct vts as [t |]; simpl.
    - eexists. split; [reflexivity |].
      intros t0 Ht. injection Ht as <-. simpl. auto.
    - eexists. split; [reflexivity |]. intros t0 Ht. discriminate Ht. }
  destruct Hclose as (w3 & Hclose & Htrig).
  exists sin1, adev1, w1,
    (mk_audio_device da mm None eVoiceRecogIdle mic gs vts),
    (EvFree :: EvReleaseStream h :: w3).
  split; [exact Hchange |].
  repeat split; auto; simpl; auto;
    try (right; right; apply Htrig; assumption).
Qed.

End InputSourceMore.

Lemma voice_recognition_capture_cycle_witness :
  exists sin1 adev1 w1 adev2 w2,
    change_input_source_locked env_named
      (mk_audio_device false false None eVoiceRecogFired 0 None
         (Some hw_trigger))
      2 in_fresh AUDIO_SOURCE_VOICE_RECOGNITION 4 []
    = Some (0, true, sin1, adev1, w1)
    /\ voice_st adev1 = eVoiceRecogAudio
    /\ do_close_in_common env_named adev1 2 sin1 w1 = Some (adev2, w2)
    /\ voice_st adev2 = eVoiceRecogIdle.
Proof.
  destruct (voice_recognition_capture_cycle env_named
              (mk_audio_device false false None eVoiceRecogFired 0 None
                 (Some hw_trigger))
              2 in_fresh 4 [] hw_trigger eq_refl eq_refl
              ltac:(discriminate) eq_refl)
    as (sin1 & adev1 & w1 & adev2 & w2 & Hchange & _ & _ & Haudio & Hclose
        & _ & Hidle & _).
  exists sin1, adev1, w1, adev2, w2. auto.
Defined.

(** ** Output stream: standby *)

Section OutputStandbyMore.

Variable A : abi.
Variable E : Env.

(** X6. [out_pcm_standby] always returns 0 and never touches the frame
    counters or the negotiated hardware shape.  On an active stream that
    holds a transport it closes exactly that transport, clears the
    handle and sets the standby flag.  On a stream already in standby,
    or active without a transport (audio disabled), it does nothing at
    all -- such a stream stays active.  Calling it twice is the same as
    calling it once. *)
Theorem out_pcm_standby_effect :
  forall (out : stream_out_pcm) (w : trace),
  exists out' w',
    out_pcm_standby out w = Some (0, out', w')
    /\ hw_frames_written out' = hw_frames_written out
    /\ hw_frames_rendered out' = hw_frames_rendered out
    /\ o_hw_period_size out' = o_hw_period_size out
    /\ o_hw_period_count out' = o_hw_period_count out
    /\ (forall p,
          o_standby (o_common out) = false -> o_pcm out = Some p ->
          o_standby (o_common out') = true /\ o_pcm out' = None
          /\ w' = EvPcmClose (Some p) :: w)
    /\ (o_standby (o_common out) = true \/ o_pcm out = None ->
        out' = out /\ w' = w)
    /\ out_pcm_standby out' w' = Some (0, out', w').
Proof.
  intros [[hw sb fmt cm cc sr fs bs lat] pcm hr hc ps pc fw fr] w.
  unfold out_pcm_standby, do_out_pcm_standby, bind, call, ret. simpl.
  destruct sb; destruct pcm as [p |]; simpl;
    do 2 eexists; (split; [reflexivity |]);
    repeat split; intros; simpl in *;
    intuition (try discriminate; try congruence).
Qed.

(** X7. A first write whose hardware open yields a transport that is not
    ready fails with [-ENOMEM] and leaves the stream in standby -- but
    still holding the handle it has just closed.  A presentation-position
    query made afterwards is issued on that closed handle. *)
Theorem out_failed_open_keeps_closed_handle :
  forall (adev : audio_device) (out : stream_out_pcm) (bytes frames : Z)
         (timestamp : timespec) (w : trace) (p : Z),
    let config :=
      mk_pcm_config (out_pcm_cfg_channel_count out) (out_pcm_cfg_rate out)
        (out_pcm_cfg_period_size out) (out_pcm_cfg_period_count out) in
    let opened :=
      EvPcmOpen (card_number (o_hw (o_common out)))
        (device_number (o_hw (o_common out)))
        (Z.lor PCM_OUT PCM_MONOTONIC) config in
    o_standby (o_common out) = true ->
    disable_audio adev = false ->
    get_current_routes E w (o_hw (o_common out)) <> 0 ->
    pcm_open E w (card_number (o_hw (o_common out)))
      (device_number (o_hw (o_common out)))
      (Z.lor PCM_OUT PCM_MONOTONIC) config = Some p ->
    pcm_is_ready E (opened :: w) p = false ->
    exists out1,
      out_pcm_write A E adev out bytes w
      = Some (- ENOMEM, out1, EvPcmClose (Some p) :: opened :: w)
      /\ o_standby (o_common out1) = true
      /\ o_pcm out1 = Some p
      /\ exists r frames' ts',
           out_get_presentation_position E out1 frames timestamp
             (EvPcmClose (Some p) :: opened :: w)
           = Some (r, frames', ts',
                   EvPcmGetHtimestamp p
                     :: EvPcmClose (Some p) :: opened :: w).
Proof.
  intros adev out bytes frames timestamp w p config opened
    Hsb Hen Hroutes Hopen Hready.
  apply Z.eqb_neq in Hroutes. subst config opened.
  exists (set_o_pcm out (Some p)).
  split; [| split; [exact Hsb | split; [reflexivity |]]].
  - unfold out_pcm_write, start_output_pcm, bind, ask, call, ret.
    rewrite Hroutes, Hsb, Hen.
    change (negb false) with true. cbv beta iota zeta.
    rewrite Hopen. cbv beta iota. rewrite Hready. reflexivity.
  - unfold out_get_presentation_position, bind, call, ret. simpl.
    destruct (pcm_get_htimestamp E _ p) as [[rc avail] ts].
    destruct (rc =? 0); [destruct (0 <=? _) |]; eauto.
Qed.

End OutputStandbyMore.

Lemma out_failed_open_keeps_closed_handle_witness :
  exists out1,
    out_pcm_write LP64 env_not_ready adev_idle out_fresh 1024 []
    = Some (- ENOMEM, out1,
            [EvPcmClose (Some 7);
             EvPcmOpen 0 0 (Z.lor PCM_OUT PCM_MONOTONIC)
               (mk_pcm_config 2 48000 256 4)])
    /\ o_pcm out1 = Some 7.
Proof.
  destruct (out_failed_open_keeps_closed_handle LP64 env_not_ready adev_idle
              out_fresh 1024 0 ts0 [] 7 eq_refl eq_refl
              ltac:(discriminate) eq_refl eq_refl)
    as (out1 & Hwrite & _ & Hpcm & _).
  exists out1. split; [exact Hwrite | exact Hpcm].
Defined.

(** ** Input stream: reads *)

Section InputReadsMore.

Variable A : abi.
Variable E : Env.

(** X8. A read on a stream that has no input source yet, or whose route
    has no active device, touches no transport: it returns the full byte
    count, zeroes the bytes, and its only external calls are the clock
    readings and the sleep of the real-time delay -- none at all besides
    the new timestamp on the very first read.  The standby flag is left
    as it was. *)
Theorem in_pcm_read_without_route :
  forall (fuel : nat) (adev : audio_device) (sin : stream_in_pcm)
         (buffer : list Z) (bytes : Z) (w : trace),
    i_hw (i_common sin) = None
    \/ (exists hw, i_hw (i_common sin) = Some hw
                   /\ get_current_routes E w hw = 0) ->
    last_read_ns (i_common sin) = 0
    \/ to_size A (i_frame_size (i_common sin) * i_sample_rate (i_common sin))
       <> 0 ->
    0 <= bytes <= INT_MAX ->
    exists now,
      in_pcm_read A E fuel adev sin buffer bytes w
      = Some (bytes,
              set_i_common sin (set_last_read_ns (i_common sin) now),
              memset0 buffer bytes,
              EvSystemTime
                :: realtime_delay_events A E (i_common sin) bytes w ++ w)
      /\ now <> 0
      /\ (last_read_ns (i_common sin) = 0 ->
          realtime_delay_events A E (i_common sin) bytes w = []).
Proof.
  intros fuel adev sin buffer bytes w Hroute Hdef Hb.
  assert (Hdispatch :
            in_pcm_read_dispatch A E fuel adev sin buffer bytes w
            = Some (- EINVAL, sin, buffer, w)).
  { unfold in_pcm_read_dispatch, bind, ask, ret.
    destruct Hroute as [-> | (hw & -> & Hzero)]; [reflexivity |].
    rewrite Hzero. reflexivity. }
  unfold in_pcm_read, bind. rewrite Hdispatch.
  change (- EINVAL <=? 0) with true. cbn [orb]. cbv beta iota.
  rewrite (do_in_realtime_delay_events A E _ _ _ Hdef).
  unfold do_in_set_read_timestamp, bind, call, ret.
  rewrite (to_int_small bytes Hb).
  eexists. split; [reflexivity |]. split.
  - destruct (systemTime E _ =? 0) eqn:Hz; eqb_props; lia.
  - intros Hfirst. unfold realtime_delay_events. rewrite Hfirst. reflexivity.
Qed.

(** X9. Whatever a read did, when it returns the stream's frame size and
    sample rate are unchanged, its last event is the reading of the
    clock, and the timestamp it leaves is that reading -- or 1 when the
    clock read 0: it is never 0, which is the value that stands for "no
    previous read". *)
Theorem in_pcm_read_leaves_timestamp :
  forall (fuel : nat) (adev : audio_device) (sin : stream_in_pcm)
         (buffer : list Z) (bytes : Z) (w : trace)
         (r : Z) (sin' : stream_in_pcm) (buffer' : list Z) (w' : trace),
    in_pcm_read A E fuel adev sin buffer bytes w = Some (r, sin', buffer', w') ->
    i_frame_size (i_common sin') = i_frame_size (i_common sin)
    /\ i_sample_rate (i_common sin') = i_sample_rate (i_common sin)
    /\ last_read_ns (i_common sin') <> 0
    /\ exists w0,
         w' = EvSystemTime :: w0
         /\ last_read_ns (i_common sin')
            = (if systemTime E w0 =? 0 then 1 else systemTime E w0).
Proof.
  intros fuel adev sin buffer bytes w r sin' buffer' w' H.
  unfold in_pcm_read, bind in H.
  destruct (in_pcm_read_dispatch A E fuel adev sin buffer bytes w)
    as [[[[r0 sin0] buf0] w0] |] eqn:Hdispatch; [| discriminate H].
  apply in_pcm_read_dispatch_timing in Hdispatch.
  unfold timing in Hdispatch. injection Hdispatch as Hfs Hsr _.
  match type of H with
  | match ?m with _ => _ end = _ =>
      destruct m as [[[r1 buf1] w1] |]; [| discriminate H]
  end.
  unfold do_in_set_read_timestamp, bind, call, ret in H.
  invert_results. simpl.
  repeat split; auto.
  - destruct (systemTime E w1 =? 0) eqn:Hz; eqb_props; lia.
  - exists w1. split; reflexivity.
Qed.

End InputReadsMore.

Lemma in_pcm_read_without_route_witness :
  in_pcm_read LP64 (env_ok 4 0) 8 adev_idle in_fresh (repeat 7 8%nat) 8 []
  = Some (8,
          set_i_common in_fresh (set_last_read_ns (i_common in_fresh) 1000000),
          repeat 0 8%nat, [EvSystemTime]).
Proof.
  destruct (in_pcm_read_without_route LP64 (env_ok 4 0) 8%nat adev_idle
              in_fresh (repeat 7 8%nat) 8 []
              (or_introl eq_refl) (or_introl eq_refl)
              ltac:(unfold INT_MAX; lia))
    as (now & Hrun & _ & Hnone).
  rewrite Hrun. rewrite (Hnone eq_refl).
  vm_compute in Hrun. injection Hrun as Hnow. subst now.
  vm_compute. reflexivity.
Defined.

Lemma in_pcm_read_leaves_timestamp_witness :
  exists sin',
    in_pcm_read LP64 (env_ok 4 64) 32 adev_idle in_active_compressed
      (repeat 7 64%nat) 64 []
    = Some (64, sin', repeat 1 64%nat,
            [EvSystemTime; EvSystemTime; EvCompressRead (Some 9) 64])
    /\ last_read_ns (i_common sin') = 3000000.
Proof.
  destruct (in_pcm_read LP64 (env_ok 4 64) 32 adev_idle in_active_compressed
              (repeat 7 64%nat) 64 [])
    as [[[[r sin'] buffer'] w'] |] eqn:Hrun.
  - destruct (in_pcm_read_leaves_timestamp LP64 (env_ok 4 64) _ _ _ _ _ _
                _ _ _ _ Hrun) as (_ & _ & _ & w0 & Hw & Hlast).
    vm_compute in Hrun. injection Hrun as <- <- <- <-.
    eexists. split; [reflexivity |]. reflexivity.
  - vm_compute in Hrun. discriminate Hrun.
Defined.

(** ** Input stream: opening the PCM path *)

Section InputOpenMore.

Variable A : abi.
Variable E : Env.

(** X10. The buffer size that [in_pcm_fill_params] publishes is a whole
    number of 16-frame blocks, the smallest one that holds the hardware
    period converted to the stream's rate, as long as the products fit
    32 bits.  It records the hardware parameters and touches neither the
    transport handle nor the bridge. *)
Theorem in_pcm_fill_params_buffer_size :
  forall (sin : stream_in_pcm) (config : pcm_config) (w : trace),
    0 < cfg_rate config ->
    0 <= cfg_period_size config * i_sample_rate (i_common sin) < 2 ^ 32 ->
    0 < i_frame_size (i_common sin) ->
    (cfg_period_size config * i_sample_rate (i_common sin) / cfg_rate config
     + 16) * i_frame_size (i_common sin) < 2 ^ 32 ->
    exists k sin',
      in_pcm_fill_params A sin config w = Some (sin', w)
      /\ i_buffer_size (i_common sin')
         = 16 * k * i_frame_size (i_common sin)
      /\ 16 * (k - 1)
         < cfg_period_size config * i_sample_rate (i_common sin)
           / cfg_rate config
         <= 16 * k
      /\ i_hw_sample_rate sin' = cfg_rate config
      /\ i_hw_channel_count sin' = cfg_channels config
      /\ i_hw_period_size sin' = cfg_period_size config
      /\ i_hw_period_count sin' = cfg_period_count config
      /\ i_pcm sin' = i_pcm sin
      /\ resampler sin' = resampler sin.
Proof.
  intros sin config w Hrate Hprod Hfs Hfit.
  set (q := cfg_period_size config * i_sample_rate (i_common sin)
            / cfg_rate config) in *.
  assert (Hq : 0 <= q) by (apply Z.div_pos; lia).
  assert (Hq32 : q + 16 < 2 ^ 32) by nia.
  exists ((q + 15) / 16). eexists.
  unfold in_pcm_fill_params, ret.
  destruct (cfg_rate config =? 0) eqn:Hz; [eqb_props; lia |].
  assert (Hk : 16 * ((q + 15) / 16) <= q + 15 < 16 * ((q + 15) / 16) + 16).
  { pose proof (Z.mod_pos_bound (q + 15) 16 ltac:(lia)).
    pose proof (Z.div_mod (q + 15) 16 ltac:(lia)). lia. }
  simpl i_sample_rate. simpl i_frame_size.
  unfold to_u32. rewrite (wrap_u_small 32) by exact Hprod.
  fold q.
  rewrite (to_size_small A (q + 15)) by lia.
  rewrite (to_size_small A ((q + 15) / 16 * 16)) by lia.
  rewrite (to_size_small A ((q + 15) / 16 * 16 * _)) by nia.
  split; [reflexivity |].
  destruct sin as [c p a b cc d rs]; destruct c.
  cbn [i_common i_frame_size i_sample_rate i_buffer_size set_i_common
       set_i_buffer_size set_i_hw_params i_hw_sample_rate i_hw_channel_count
       i_hw_period_size i_hw_period_count i_pcm resampler] in *.
  repeat split; try reflexivity; lia.
Qed.

(** X11. When opening the PCM path succeeds with audio enabled, a rate
    converter and its bridge buffer are created exactly when the stream's
    effective rate (its own, or the route's when its own is 0) differs
    from the rate the transport was opened with; the converter is given
    the stream's own rate.  Otherwise the bridge is left untouched and the
    only call made is the opening of the transport.  The hardware channel
    count recorded is the one requested for the stream, so a stream opened
    this way is never a mono stream on a two-channel path. *)
Theorem do_open_pcm_input_resampler :
  forall (adev : audio_device) (sin : stream_in_pcm) (hw : hw_stream)
         (w : trace) (sin' : stream_in_pcm) (w' : trace),
    i_hw (i_common sin) = Some hw ->
    disable_audio adev = false ->
    do_open_pcm_input A E adev sin w = Some (0, sin', w') ->
    let config :=
      mk_pcm_config (in_pcm_cfg_channel_count sin) (in_pcm_cfg_rate hw)
        (in_pcm_cfg_period_size hw) (in_pcm_cfg_period_count hw) in
    let opened :=
      EvPcmOpen (card_number hw) (device_number hw) PCM_IN config in
    let effective :=
      if i_sample_rate (i_common sin) =? 0 then rate hw
      else i_sample_rate (i_common sin) in
    (effective = in_pcm_cfg_rate hw ->
     resampler sin' = resampler sin /\ w' = opened :: w)
    /\ (effective <> in_pcm_cfg_rate hw ->
        rs_buffer (resampler sin') <> None
        /\ exists size,
             w' = EvCreateResampler (in_pcm_cfg_rate hw)
                    (i_sample_rate (i_common sin))
                    (i_channel_count (i_common sin))
                    :: EvMalloc size :: opened :: w)
    /\ i_hw_channel_count sin' = in_pcm_cfg_channel_count sin
    /\ discards_right sin' = false.
Proof.
  intros adev sin hw w sin' w' Hhw Haudio Hopen config opened effective.
  subst config opened effective.
  assert (Hmono : (i_channel_count (i_common sin) =? 1)
                  && (in_pcm_cfg_channel_count sin =? 2) = false).
  { unfold in_pcm_cfg_channel_count.
    destruct (i_channel_count (i_common sin) =? 1) eqn:H1; [| reflexivity].
    eqb_props. rewrite H1. reflexivity. }
  unfold do_open_pcm_input in Hopen. rewrite Hhw, Haudio in Hopen.
  change (negb false) with true in Hopen. cbv beta iota zeta in Hopen.
  unfold bind, call, ask, ret in Hopen.
  match type of Hopen with
  | context [pcm_open E w ?a ?b ?c ?d] =>
      destruct (pcm_open E w a b c d) as [p |] eqn:Hp;
        [| simpl in Hopen; invert_results; discriminate]
  end.
  match type of Hopen with
  | context [pcm_is_ready E ?v p] =>
      destruct (pcm_is_ready E v p) eqn:Hready;
        [| simpl in Hopen; invert_results; discriminate]
  end.
  change (negb true) with false in Hopen. cbv beta iota in Hopen.
  unfold in_pcm_fill_params, in_get_sample_rate, ret, undefined in Hopen.
  cbn [cfg_rate cfg_channels cfg_period_size cfg_period_count] in Hopen.
  destruct (in_pcm_cfg_rate hw =? 0) eqn:Hz; [discriminate Hopen |].
  simpl in Hopen. rewrite Hhw in Hopen.
  destruct (i_sample_rate (i_common sin) =? 0) eqn:Hsr; simpl in Hopen;
    match type of Hopen with
    | context [?x =? in_pcm_cfg_rate hw] =>
        destruct (x =? in_pcm_cfg_rate hw) eqn:Hsame
    end; simpl in Hopen;
    try (unfold in_resampler_init, bind, call, ret, undefined in Hopen;
         simpl in Hopen;
         repeat (break_match_in Hopen; simpl in Hopen));
    invert_results; try discriminate; simpl; unfold discards_right; simpl;
    repeat split; try discriminate; intros; eqb_props;
    try contradiction; try assumption; try (exfalso; lia); try congruence;
    try (eexists; reflexivity);
    destruct sin as [c q a b cc d rs]; reflexivity.
Qed.

End InputOpenMore.

Lemma in_pcm_fill_params_buffer_size_witness :
  exists sin',
    in_pcm_fill_params LP64 in_routed (mk_pcm_config 1 48000 256 4) []
    = Some (sin', [])
    /\ i_buffer_size (i_common sin') = 192.
Proof.
  destruct (in_pcm_fill_params_buffer_size LP64 in_routed
              (mk_pcm_config 1 48000 256 4) []
              ltac:(cbn; lia) ltac:(cbn; lia) ltac:(cbn; lia)
              ltac:(cbn; lia))
    as (k & sin' & Hrun & Hsize & Hk & _).
  exists sin'. split; [exact Hrun |].
  change (cfg_period_size (mk_pcm_config 1 48000 256 4)
          * i_sample_rate (i_common in_routed)
          / cfg_rate (mk_pcm_config 1 48000 256 4)) with 85 in Hk.
  change (i_frame_size (i_common in_routed)) with 2 in Hsize.
  lia.
Defined.

Lemma do_open_pcm_input_resampler_witness :
  exists sin',
    do_open_pcm_input LP64 (env_ok 4 0) adev_idle in_routed []
    = Some (0, sin',
            [EvCreateResampler 48000 16000 1; EvMalloc 2048;
             EvPcmOpen 0 0 PCM_IN (mk_pcm_config 1 48000 256 4)])
    /\ discards_right sin' = false.
Proof.
  destruct (do_open_pcm_input LP64 (env_ok 4 0) adev_idle in_routed [])
    as [[[r sin'] w'] |] eqn:Hrun.
  - assert (Hr : r = 0).
    { vm_compute in Hrun. injection Hrun as <- _ _. reflexivity. }
    subst r.
    destruct (do_open_pcm_input_resampler LP64 (env_ok 4 0) adev_idle
                in_routed hw_generic [] sin' w' eq_refl eq_refl Hrun)
      as (_ & _ & _ & Hmono).
    exists sin'. split; [| exact Hmono].
    vm_compute in Hrun. injection Hrun as <- <-. reflexivity.
  - vm_compute in Hrun. discriminate Hrun.
Defined.

Section InputOpenOutcome.

Variable A : abi.
Variable E : Env.

(** X12. Starting the PCM input path either succeeds, and the stream is
    then active, or returns a negative status and leaves the stream in
    standby; in the second case a stream that has a route ends with no
    transport handle and the last call made closes the transport, while a
    stream without a route is returned untouched with [-EINVAL].  A stream
    that is already active is returned as it is. *)
Theorem start_pcm_input_stream_outcome :
  forall (adev : audio_device) (sin : stream_in_pcm) (w : trace)
         (r : Z) (sin' : stream_in_pcm) (w' : trace),
    start_pcm_input_stream A E adev sin w = Some (r, sin', w') ->
    (i_standby (i_common sin) = false -> r = 0 /\ sin' = sin /\ w' = w)
    /\ (r = 0 -> i_standby (i_common sin') = false)
    /\ (r <> 0 ->
        r < 0
        /\ i_standby (i_common sin') = true
        /\ (i_hw (i_common sin) = None ->
            r = - EINVAL /\ sin' = sin /\ w' = w)
        /\ (i_hw (i_common sin) <> None ->
            i_pcm sin' = None /\ exists h w0, w' = EvPcmClose h :: w0)).
Proof.
  intros adev sin w r sin' w' H.
  unfold start_pcm_input_stream, bind, ret in H.
  destruct (i_standby (i_common sin)) eqn:Hstandby.
  2:{ invert_results. repeat split; try congruence; intros; congruence. }
  split; [discriminate |].
  unfold do_open_pcm_input, in_pcm_fill_params, in_get_sample_rate,
    in_resampler_init, bind, call, ask, ret, undefined in H.
  destruct (i_hw (i_common sin)) as [hw |] eqn:Hhw.
  2:{ simpl in H. invert_results. unfold EINVAL. rewrite Hstandby.
      repeat split; try congruence; try lia; intros; congruence. }
  repeat (break_match_in H; simpl in H; try discriminate H);
    invert_results; eqb_props; simpl;
    repeat split; try discriminate; intros; try congruence;
    try (unfold ENOMEM; lia); try lia; try (do 2 eexists; reflexivity).
Qed.

(** X13. [in_resampler_init] sizes the bridge from the fragment it is
    given: the buffer holds [hw_fragment] frames of [channels] samples,
    whatever the unit the caller meant.  It leaves the count of buffered
    frames and the latched read status as they were, and when it fails
    (no memory, or the converter could not be created) the stream has no
    bridge buffer and the last call made releases it. *)
Theorem in_resampler_init_outcome :
  forall (sin : stream_in_pcm) (hw_rate channels hw_fragment : Z)
         (w : trace),
    0 < channels * i_frame_size (i_common sin) < 2 ^ 32 ->
    0 <= hw_fragment <= INT_MAX ->
    hw_fragment * (channels * i_frame_size (i_common sin)) < 2 ^ 32 ->
    exists r sin' w',
      in_resampler_init A E sin hw_rate channels hw_fragment w
      = Some (r, sin', w')
      /\ in_buffer_frames (resampler sin') = hw_fragment
      /\ in_buffer_size (resampler sin')
         = hw_fragment * channels * i_frame_size (i_common sin)
      /\ frames_in (resampler sin') = frames_in (resampler sin)
      /\ read_status (resampler sin') = read_status (resampler sin)
      /\ i_pcm sin' = i_pcm sin
      /\ (r < 0 ->
          rs_buffer (resampler sin') = None
          /\ exists w0, w' = EvFree :: w0)
      /\ (0 <= r -> rs_buffer (resampler sin') <> None).
Proof.
  intros sin hw_rate channels hw_fragment w Hd Hf Hfit.
  set (d := channels * i_frame_size (i_common sin)) in *.
  assert (Hsize : to_size A (hw_fragment * channels
                             * i_frame_size (i_common sin))
                  = hw_fragment * d).
  { rewrite to_size_small by (unfold d; nia). unfold d. ring. }
  assert (Hframes : to_int (hw_fragment * d / to_size A d) = hw_fragment).
  { rewrite (to_size_small A d) by lia.
    rewrite Z.div_mul by lia. apply to_int_small. exact Hf. }
  unfold in_resampler_init, bind, call, ret.
  fold d. rewrite Hsize. rewrite (to_size_small A d) in * by lia.
  destruct (d =? 0) eqn:Hz; [eqb_props; lia |].
  destruct (malloc_ok E w (hw_fragment * d)); simpl.
  - destruct (fst (create_resampler E _ _ _ _) <? 0) eqn:Hcr; simpl;
      eqb_props; do 3 eexists; (split; [reflexivity |]); simpl;
      rewrite Hframes; unfold d in *;
      repeat split; try ring; try discriminate; intros; try lia;
      try (eexists; reflexivity).
  - do 3 eexists. split; [reflexivity |]. simpl.
    rewrite Hframes. unfold d, ENOMEM.
    repeat split; try ring; try discriminate; intros; try lia;
      try (eexists; reflexivity).
Qed.

End InputOpenOutcome.

Lemma start_pcm_input_stream_outcome_witness :
  exists sin',
    start_pcm_input_stream LP64 env_not_ready adev_idle in_routed []
    = Some (- ENOMEM, sin',
            [EvPcmClose (Some 7);
             EvPcmOpen 0 0 PCM_IN (mk_pcm_config 1 48000 256 4)])
    /\ i_standby (i_common sin') = true
    /\ i_pcm sin' = None.
Proof.
  destruct (start_pcm_input_stream LP64 env_not_ready adev_idle in_routed [])
    as [[[r sin'] w'] |] eqn:Hrun.
  - destruct (start_pcm_input_stream_outcome LP64 env_not_ready adev_idle
                in_routed [] r sin' w' Hrun) as (_ & _ & Hfail).
    assert (Hr : r = - ENOMEM).
    { vm_compute in Hrun. injection Hrun as <- _ _. reflexivity. }
    subst r.
    destruct (Hfail ltac:(discriminate)) as (_ & Hstandby & _ & Hpcm).
    destruct (Hpcm ltac:(discriminate)) as (Hnone & _).
    exists sin'. split; [| split; assumption].
    vm_compute in Hrun. injection Hrun as <- <-. reflexivity.
  - vm_compute in Hrun. discriminate Hrun.
Defined.

Lemma in_resampler_init_outcome_witness :
  exists r sin' w',
    in_resampler_init LP64 (env_ok 4 0) in_routed 48000 1 64 []
    = Some (r, sin', w')
    /\ in_buffer_frames (resampler sin') = 64.
Proof.
  destruct (in_resampler_init_outcome LP64 (env_ok 4 0) in_routed 48000 1 64
              [] ltac:(cbn; lia) ltac:(unfold INT_MAX; lia)
              ltac:(cbn; lia))
    as (r & sin' & w' & Hrun & Hframes & _).
  exists r, sin', w'. split; assumption.
Defined.

(** ** Input stream: the bridge across standby, and errors *)

Section InputBridgeMore.

Variable A : abi.
Variable E : Env.

Lemma in_pcm_standby_counters sin w r sin' w' :
  in_pcm_standby E sin w = Some (r, sin', w') ->
  frames_in (resampler sin') = frames_in (resampler sin)
  /\ read_status (resampler sin') = read_status (resampler sin).
Proof.
  unfold in_pcm_standby, do_in_compress_pcm_standby, do_in_pcm_standby,
    in_resampler_free, bind, call, ret.
  intros H.
  repeat (break_match_in H; simpl in H; try discriminate H);
    invert_results; split; reflexivity.
Qed.

Lemma start_pcm_input_stream_counters adev sin w r sin' w' :
  start_pcm_input_stream A E adev sin w = Some (r, sin', w') ->
  frames_in (resampler sin') = frames_in (resampler sin)
  /\ read_status (resampler sin') = read_status (resampler sin).
Proof.
  unfold start_pcm_input_stream, do_open_pcm_input, in_pcm_fill_params,
    in_get_sample_rate, in_resampler_init, bind, call, ask, ret, undefined.
  intros H.
  repeat (break_match_in H; simpl in H; try discriminate H);
    invert_results; split; reflexivity.
Qed.

Lemma get_next_buffer_nonempty sin p buf w :
  i_pcm sin = Some p ->
  frames_in (resampler sin) <> 0 ->
  get_next_buffer A E sin buf w
  = Some (read_status (resampler sin), sin,
          mk_resampler_buffer
            (Some (to_size A (in_buffer_frames (resampler sin)
                              - frames_in (resampler sin))))
            (if frames_in (resampler sin) <? frame_count buf
             then frames_in (resampler sin) else frame_count buf),
          w).
Proof.
  intros Hpcm Hne. apply Z.eqb_neq in Hne.
  unfold get_next_buffer, ret. rewrite Hpcm, Hne.
  rewrite set_resampler_same. reflexivity.
Qed.

(** X14. Neither standby nor reopening the PCM path resets the bridge's
    count of buffered frames or its latched read status: they come back
    as they were before the standby.  So when frames were still buffered,
    the first pull of the converter on the reopened stream makes no
    hardware read: it answers with the status latched before the standby
    and offers positions of the new buffer as if they held those
    frames. *)
Theorem in_reopen_keeps_buffered_count :
  forall (adev : audio_device) (sin : stream_in_pcm) (w : trace)
         (sin1 : stream_in_pcm) (w1 : trace)
         (sin2 : stream_in_pcm) (w2 : trace),
    in_pcm_standby E sin w = Some (0, sin1, w1) ->
    start_pcm_input_stream A E adev sin1 w1 = Some (0, sin2, w2) ->
    frames_in (resampler sin2) = frames_in (resampler sin)
    /\ read_status (resampler sin2) = read_status (resampler sin)
    /\ (frames_in (resampler sin) <> 0 ->
        forall (p : Z) (buf : resampler_buffer),
          i_pcm sin2 = Some p ->
          get_next_buffer A E sin2 buf w2
          = Some (read_status (resampler sin), sin2,
                  mk_resampler_buffer
                    (Some (to_size A (in_buffer_frames (resampler sin2)
                                      - frames_in (resampler sin))))
                    (if frames_in (resampler sin) <? frame_count buf
                     then frames_in (resampler sin) else frame_count buf),
                  w2)).
Proof.
  intros adev sin w sin1 w1 sin2 w2 Hstandby Hstart.
  apply in_pcm_standby_counters in Hstandby.
  apply start_pcm_input_stream_counters in Hstart.
  destruct Hstandby as (Hf1 & Hs1). destruct Hstart as (Hf2 & Hs2).
  assert (Hf : frames_in (resampler sin2) = frames_in (resampler sin))
    by congruence.
  assert (Hs : read_status (resampler sin2) = read_status (resampler sin))
    by congruence.
  repeat split; try assumption.
  intros Hne p buf Hpcm.
  rewrite (get_next_buffer_nonempty sin2 p buf w2 Hpcm) by congruence.
  rewrite Hf, Hs. reflexivity.
Qed.

(** X15. When the hardware read made by the converter's first pull on a
    drained bridge fails, [read_resampled_frames] stops after that one
    conversion: it makes exactly one hardware read, latches the status in
    the bridge, buffers no frame, and returns the status in place of a
    frame count. *)
Theorem read_resampled_frames_read_error :
  forall (fuel : nat) (sin : stream_in_pcm) (rs : Z) (buffer : list Z)
         (frames : Z) (w : trace) (p : Z) (want used : Z)
         (script : list (Z * Z)) (status : Z) (data : list Z),
    0 < frames ->
    i_pcm sin = Some p ->
    frames_in (resampler sin) = 0 ->
    resample_script E w rs (to_size A frames) = (want, used) :: script ->
    pcm_read E (EvResample rs (to_size A frames) :: w) (Some p)
      (to_u32 (in_buffer_size (resampler sin))) = (status, data) ->
    status <> 0 ->
    exists sin' buffer',
      read_resampled_frames A E (S fuel) sin rs buffer frames w
      = Some (status, sin', buffer',
              EvPcmRead (Some p) (to_u32 (in_buffer_size (resampler sin)))
                :: EvResample rs (to_size A frames) :: w)
      /\ read_status (resampler sin') = status
      /\ frames_in (resampler sin') = 0
      /\ i_common sin' = i_common sin.
Proof.
  intros fuel sin rs buffer frames w p want used script status data
    Hframes Hpcm Hdrained Hscript Hread Hstatus.
  apply Z.eqb_neq in Hstatus.
  unfold read_resampled_frames. simpl.
  destruct (0 <? frames) eqn:Hlt; [| eqb_props; lia].
  rewrite Z.sub_0_r.
  unfold resample_from_provider, bind, call, ask, ret.
  rewrite Hscript. simpl.
  unfold get_next_buffer, bind, call, ret.
  rewrite Hpcm, Hdrained. simpl. rewrite Hread. simpl.
  rewrite Hstatus. simpl. rewrite Hstatus. simpl.
  do 2 eexists. split; [reflexivity |].
  repeat split. exact Hdrained.
Qed.

(** X16. With a converter that makes progress, [read_resampled_frames]
    never returns a short count: what it returns is the number of frames
    asked for, or else the non-zero status latched in the bridge. *)
Theorem read_resampled_frames_all_or_status :
  converter_progress E ->
  forall (fuel : nat) (sin : stream_in_pcm) (rs : Z) (buffer : list Z)
         (frames : Z) (w : trace)
         (n : Z) (sin' : stream_in_pcm) (buffer' : list Z) (w' : trace),
    0 <= frames <= INT_MAX ->
    read_resampled_frames A E fuel sin rs buffer frames w
    = Some (n, sin', buffer', w') ->
    n = frames
    \/ (n = read_status (resampler sin') /\ n <> 0).
Proof.
  intros Hprogress fuel sin rs buffer frames w n sin' buffer' w' Hframes.
  unfold read_resampled_frames.
  assert (Hgen :
            forall fuel sin buffer frames_wr w,
              0 <= frames_wr <= frames ->
              read_resampled_frames_loop A E fuel sin rs buffer frames
                frames_wr w = Some (n, sin', buffer', w') ->
              n = frames
              \/ (n = read_status (resampler sin') /\ n <> 0)).
  { clear fuel sin buffer w.
    induction fuel as [| fuel IH]; intros sin buffer frames_wr w Hwr H;
      simpl in H; destruct (frames_wr <? frames) eqn:Hlt; eqb_props;
      unfold ret, undefined, bind in H; invert_results;
      try (left; lia).
    destruct (resample_from_provider A E sin rs _ w)
      as [[[[sin1 produced] samples] w1] |] eqn:Hconv; [| discriminate H].
    destruct (read_status (resampler sin1) =? 0) eqn:Hst; simpl in H.
    - unfold resample_from_provider, bind, call, ask, ret in Hconv.
      destruct (resampler_pulls A E _ sin _) as [[sin2 w2] |];
        [| discriminate Hconv].
      invert_results.
      assert (Hrem : 0 < frames - frames_wr <= INT_MAX) by lia.
      rewrite to_size_small in H by (unfold INT_MAX in Hrem; lia).
      pose proof (Hprogress w1 rs (frames - frames_wr) ltac:(lia)) as Hp.
      rewrite to_ssize_small in H by lia.
      apply IH in H; [exact H | lia].
    - invert_results. right. eqb_props. split; [reflexivity | exact Hst]. }
  apply Hgen. lia.
Qed.

End InputBridgeMore.

Lemma in_reopen_keeps_buffered_count_witness :
  exists sin1 w1 sin2 w2,
    in_pcm_standby (env_ok 4 0) in_bridged [] = Some (0, sin1, w1)
    /\ start_pcm_input_stream LP64 (env_ok 4 0) adev_idle sin1 w1
       = Some (0, sin2, w2)
    /\ i_pcm sin2 = Some 7
    /\ frames_in (resampler sin2) = 156.
Proof.
  destruct (in_pcm_standby (env_ok 4 0) in_bridged [])
    as [[[r1 sin1] w1] |] eqn:Hstandby;
    [| vm_compute in Hstandby; discriminate Hstandby].
  assert (Hr1 : r1 = 0).
  { vm_compute in Hstandby. injection Hstandby as <- _ _. reflexivity. }
  subst r1.
  destruct (start_pcm_input_stream LP64 (env_ok 4 0) adev_idle sin1 w1)
    as [[[r2 sin2] w2] |] eqn:Hstart.
  - assert (Hfacts : r2 = 0 /\ i_pcm sin2 = Some 7).
    { vm_compute in Hstandby. injection Hstandby as <- <-.
      vm_compute in Hstart. injection Hstart as <- <- _.
      split; reflexivity. }
    destruct Hfacts as (-> & Hpcm).
    destruct (in_reopen_keeps_buffered_count LP64 (env_ok 4 0) adev_idle
                in_bridged [] sin1 w1 sin2 w2 Hstandby Hstart) as (Hf & _).
    exists sin1, w1, sin2, w2. repeat split; assumption.
  - exfalso. vm_compute in Hstandby. injection Hstandby as <- <-.
    vm_compute in Hstart. discriminate Hstart.
Defined.

Lemma read_resampled_frames_read_error_witness :
  exists sin' buffer',
    read_resampled_frames LP64 env_read_fails 1 in_drained 11
      (repeat 7 8%nat) 4 []
    = Some (-5, sin', buffer', [EvPcmRead (Some 7) 512; EvResample 11 4])
    /\ read_status (resampler sin') = -5.
Proof.
  destruct (read_resampled_frames_read_error LP64 env_read_fails 0
              in_drained 11 (repeat 7 8%nat) 4 [] 7 4 4 [] (-5) []
              ltac:(lia) eq_refl eq_refl eq_refl eq_refl
              ltac:(discriminate))
    as (sin' & buffer' & Hrun & Hstatus & _).
  exists sin', buffer'. split; [exact Hrun | exact Hstatus].
Defined.

Lemma read_resampled_frames_all_or_status_witness :
  exists sin' buffer' w',
    read_resampled_frames LP64 (env_ok 4 0) 4 in_bridged 11
      (repeat 7 8%nat) 4 []
    = Some (4, sin', buffer', w').
Proof.
  destruct (read_resampled_frames LP64 (env_ok 4 0) 4 in_bridged 11
              (repeat 7 8%nat) 4 [])
    as [[[[n sin'] buffer'] w'] |] eqn:Hrun;
    [| vm_compute in Hrun; discriminate Hrun].
  destruct (read_resampled_frames_all_or_status LP64 (env_ok 4 0)
              (env_ok_converter_progress 4 0) 4 in_bridged 11
              (repeat 7 8%nat) 4 [] n sin' buffer' w'
              ltac:(unfold INT_MAX; lia) Hrun) as [-> | (Hn & Hne)].
  - do 3 eexists. reflexivity.
  - exfalso. vm_compute in Hrun. injection Hrun as <- <- _ _.
    vm_compute in Hn. discriminate Hn.
Defined.

(** ** Input stream: channel discard, standby and the two read paths *)

Lemma start_pcm_input_stream_sign A E adev sin w r sin' w' :
  start_pcm_input_stream A E adev sin w = Some (r, sin', w') ->
  r = 0 \/ r < 0.
Proof.
  unfold start_pcm_input_stream, do_open_pcm_input, in_pcm_fill_params,
    in_get_sample_rate, in_resampler_init, bind, call, ask, ret, undefined.
  intros H.
  repeat (break_match_in H; simpl in H; try discriminate H);
    invert_results; eqb_props; unfold EINVAL, ENOMEM; lia.
Qed.

Section InputPathsMore.

Variable A : abi.
Variable E : Env.

(** X17. On a mono stream over a two-channel path, a pull on a drained
    bridge whose hardware read succeeds leaves in the bridge buffer, for
    every frame of the period, the left sample of that frame: sample [j]
    of the buffer after the pull is sample [2 j] of what was read, as long
    as the data read covers the frames the bridge counts.  The buffer
    keeps its length and the whole period counts as buffered. *)
Theorem get_next_buffer_keeps_left_channel :
  forall (sin : stream_in_pcm) (p : Z) (buf : resampler_buffer) (w : trace)
         (data : list Z),
    i_pcm sin = Some p ->
    frames_in (resampler sin) = 0 ->
    i_channel_count (i_common sin) = 1 ->
    i_hw_channel_count sin = 2 ->
    0 <= in_buffer_frames (resampler sin) <= INT_MAX ->
    pcm_read E w (Some p) (to_u32 (in_buffer_size (resampler sin)))
    = (0, data) ->
    (2 * Z.to_nat (in_buffer_frames (resampler sin)) <= length data + 1)%nat ->
    exists sin' buf' data',
      get_next_buffer A E sin buf w
      = Some (0, sin', buf',
              EvPcmRead (Some p) (to_u32 (in_buffer_size (resampler sin)))
                :: w)
      /\ rs_buffer (resampler sin') = Some data'
      /\ length data' = length data
      /\ frames_in (resampler sin') = in_buffer_frames (resampler sin)
      /\ forall j : nat,
           (j < Z.to_nat (in_buffer_frames (resampler sin)))%nat ->
           nth_error data' j = nth_error data (2 * j).
Proof.
  intros sin p buf w data Hpcm Hdrained Hmono Hstereo Hn Hread Hfit.
  unfold get_next_buffer, bind, call, ret.
  rewrite Hpcm, Hdrained. simpl. rewrite Hread. simpl.
  rewrite Hmono, Hstereo. simpl.
  rewrite to_size_small by (unfold INT_MAX in Hn; lia).
  destruct (discard_right_channel_keeps_left
              (in_buffer_frames (resampler sin)) data Hfit)
    as (data' & -> & Hlen & Hleft).
  do 2 eexists. exists data'. split; [reflexivity |]. simpl.
  repeat split; assumption.
Qed.

(** X18. [in_pcm_standby] always returns 0.  A stream with a route ends
    in standby; if it was active its transport handle is dropped.  On the
    PCM route the converter and the bridge buffer are released, and the
    release of the buffer is called even when the stream was already in
    standby; on the compressed route a stream already in standby makes
    no call at all.  A stream without a route is returned untouched, its
    standby flag included.  Route, source and the timestamp of the last
    read are never changed, and a second standby leaves the stream as the
    first one did. *)
Theorem in_pcm_standby_effect :
  forall (sin : stream_in_pcm) (w : trace),
    exists sin' w',
      in_pcm_standby E sin w = Some (0, sin', w')
      /\ i_hw (i_common sin') = i_hw (i_common sin)
      /\ input_source (i_common sin') = input_source (i_common sin)
      /\ last_read_ns (i_common sin') = last_read_ns (i_common sin)
      /\ (i_hw (i_common sin) = None -> sin' = sin /\ w' = w)
      /\ (forall hw,
            i_hw (i_common sin) = Some hw ->
            i_standby (i_common sin') = true
            /\ (i_standby (i_common sin) = false -> i_pcm sin' = None)
            /\ (i_standby (i_common sin) = true -> i_pcm sin' = i_pcm sin)
            /\ (stream_is_compressed_in E hw = false ->
                rs_resampler (resampler sin') = None
                /\ rs_buffer (resampler sin') = None
                /\ exists w0, w' = EvFree :: w0)
            /\ (stream_is_compressed_in E hw = true ->
                resampler sin' = resampler sin
                /\ (i_standby (i_common sin) = true -> w' = w)))
      /\ forall w2, exists w3, in_pcm_standby E sin' w2 = Some (0, sin', w3).
Proof.
  intros sin w.
  destruct sin as [c p a b cc d rs]. destruct c. destruct rs.
  unfold in_pcm_standby, do_in_compress_pcm_standby, do_in_pcm_standby,
    in_resampler_free, bind, call, ret.
  simpl.
  destruct i_hw0 as [hw |]; simpl.
  2:{ do 2 eexists. split; [reflexivity |]. simpl.
      repeat split; try discriminate. intros w2. eexists. reflexivity. }
  destruct (stream_is_compressed_in E hw) eqn:Hcomp;
    destruct i_standby0; destruct rs_resampler0; simpl;
    do 2 eexists; (split; [reflexivity |]); simpl;
    (repeat split; try discriminate; try congruence;
     try (intros; eexists; reflexivity);
     try (intros hw0 Hhw0; injection Hhw0 as <-);
     try rewrite Hcomp; simpl;
     repeat split; try discriminate; try congruence;
     try (intros; eexists; reflexivity)).
Qed.

(** X19. With audio enabled, [do_in_pcm_read] never reports a partial
    read: it returns the whole byte count asked for, or a negative
    status.  With audio disabled it never reports data: it returns 0
    after sleeping, with the bytes asked for zeroed, or the negative
    status of the opening. *)
Theorem do_in_pcm_read_all_or_error :
  forall (fuel : nat) (adev : audio_device) (sin : stream_in_pcm)
         (buffer : list Z) (bytes : Z) (w : trace)
         (r : Z) (sin' : stream_in_pcm) (buffer' : list Z) (w' : trace),
    do_in_pcm_read A E fuel adev sin buffer bytes w
    = Some (r, sin', buffer', w') ->
    (disable_audio adev = false -> r = to_int bytes \/ r < 0)
    /\ (disable_audio adev = true ->
        r < 0
        \/ (r = 0 /\ buffer' = memset0 buffer bytes
            /\ exists us w0, w' = EvUsleep us :: w0)).
Proof.
  intros fuel adev sin buffer bytes w r sin' buffer' w' H.
  unfold do_in_pcm_read, bind, call, ret, undefined in H.
  destruct (i_frame_size (i_common sin) =? 0); [discriminate H |].
  destruct (start_pcm_input_stream A E adev sin w)
    as [[[r0 sin0] w0] |] eqn:Hstart; [| discriminate H].
  pose proof (start_pcm_input_stream_sign A E adev sin w r0 sin0 w0 Hstart)
    as Hsign.
  destruct (r0 <? 0) eqn:Hneg.
  { invert_results. eqb_props. split; intros _; [right | left]; lia. }
  eqb_props.
  assert (Hr0 : r0 = 0) by lia.
  subst r0.
  destruct (disable_audio adev) eqn:Haudio; simpl in H.
  - split; [discriminate |]. intros _. right.
    destruct (i_sample_rate (i_common sin0) =? 0); [discriminate H |].
    destruct (i_frame_size (i_common sin0) / i_sample_rate (i_common sin0)
              =? 0); [discriminate H |].
    invert_results. repeat split. do 2 eexists. reflexivity.
  - split; [| discriminate]. intros _.
    match type of H with
    | match ?m with _ => _ end = _ =>
        destruct m as [[[[r1 sin1] buf1] w1] |]; [| discriminate H]
    end.
    destruct (0 <=? r1) eqn:Hok; invert_results; eqb_props;
      [left; reflexivity | right; lia].
Qed.

(** X20. [errno] is not negative, so when the compressed transport
    cannot be opened (or is not ready) [do_open_compress_pcm_in] returns a
    status that [start_compress_pcm_input_stream] does not take for a
    failure: the stream is marked active with the handle it had before,
    the poll wait is set on that handle, and 0 is returned.  The next
    start of the same stream does nothing, so the opening is not tried
    again. *)
Theorem start_compress_pcm_input_stream_failed_open :
  forall (sin : stream_in_pcm) (hw : hw_stream) (w : trace),
    let opened := EvCompressOpen (card_number hw) (device_number hw) in
    let handle := compress_open E w (card_number hw) (device_number hw) in
    i_standby (i_common sin) = true ->
    i_hw (i_common sin) = Some hw ->
    handle = None
    \/ (exists c, handle = Some c
                  /\ is_compress_ready E (opened :: w) c = false) ->
    0 <= errno E (opened :: w) ->
    to_size A (i_frame_size (i_common sin) * i_sample_rate (i_common sin))
    <> 0 ->
    exists ms sin' w',
      start_compress_pcm_input_stream A E sin w = Some (0, sin', w')
      /\ sin' = set_i_common sin (set_i_standby (i_common sin) false)
      /\ w' = EvCompressSetMaxPollWait (i_compress sin) ms
                :: EvCompressClose handle :: opened :: w
      /\ start_compress_pcm_input_stream A E sin' w' = Some (0, sin', w').
Proof.
  intros sin hw w opened handle Hstandby Hhw Hfail Herrno Hd.
  subst opened handle. apply Z.eqb_neq in Hd.
  unfold start_compress_pcm_input_stream, do_open_compress_pcm_in,
    bind, call, ask, ret.
  rewrite Hstandby, Hhw. cbv beta iota.
  destruct Hfail as [Hnone | (c & Hsome & Hc)];
    [rewrite Hnone | rewrite Hsome; cbv beta iota; rewrite Hc];
    simpl;
    (destruct (errno E _ <? 0) eqn:Hneg; [eqb_props; lia |]);
    rewrite Hd;
    do 3 eexists; (split; [reflexivity |]);
    (split; [reflexivity |]); (split; [reflexivity |]);
    destruct sin as [cm p a b cc d rs]; destruct cm; reflexivity.
Qed.

(** X21. When the compressed transport opens, the stream starts with a
    buffer of 4096 frames and a poll wait of twice the time, in whole
    milliseconds, that 4096 frames take at the stream's rate:
    [2 * (4096000 / sample_rate)], whatever the frame size, as long as
    the products fit 32 bits. *)
Theorem start_compress_pcm_input_stream_poll_wait :
  forall (sin : stream_in_pcm) (hw : hw_stream) (w : trace) (c : Z),
    let opened := EvCompressOpen (card_number hw) (device_number hw) in
    i_standby (i_common sin) = true ->
    i_hw (i_common sin) = Some hw ->
    compress_open E w (card_number hw) (device_number hw) = Some c ->
    is_compress_ready E (opened :: w) c = true ->
    0 < i_frame_size (i_common sin) ->
    0 < i_sample_rate (i_common sin) ->
    4096 * i_frame_size (i_common sin) < 2 ^ 32 ->
    i_frame_size (i_common sin) * i_sample_rate (i_common sin) < 2 ^ 32 ->
    exists sin',
      start_compress_pcm_input_stream A E sin w
      = Some (0, sin',
              EvCompressSetMaxPollWait (Some c)
                (2 * (4096000 / i_sample_rate (i_common sin)))
                :: EvCompressStart (Some c) :: opened :: w)
      /\ i_pcm sin' = Some c
      /\ i_standby (i_common sin') = false
      /\ i_buffer_size (i_common sin') = 4096 * i_frame_size (i_common sin).
Proof.
  intros sin hw w c opened Hstandby Hhw Hopen Hready Hfs Hsr Hbuf Hprod.
  subst opened.
  unfold start_compress_pcm_input_stream, do_open_compress_pcm_in,
    bind, call, ask, ret.
  rewrite Hstandby, Hhw. cbv beta iota. rewrite Hopen. cbv beta iota.
  rewrite Hready. change (negb true) with false. cbv beta iota.
  unfold i_compress.
  cbn [i_common i_frame_size i_sample_rate i_buffer_size set_i_common
       set_i_pcm set_i_buffer_size set_i_standby i_pcm fst snd].
  change (0 <? 0) with false. cbv beta iota.
  cbn [i_common i_frame_size i_sample_rate i_buffer_size set_i_common
       set_i_pcm set_i_buffer_size set_i_standby i_pcm fst snd].
  set (fs := i_frame_size (i_common sin)) in *.
  set (sr := i_sample_rate (i_common sin)) in *.
  replace (4096 * 1 * fs) with (4096 * fs) by ring.
  rewrite (to_size_small A (4096 * fs)) by lia.
  rewrite (to_size_small A (fs * sr)) by nia.
  destruct (fs * sr =? 0) eqn:Hz; [eqb_props; nia |].
  assert (Hq : 1000 * (4096 * fs) / (fs * sr) = 4096000 / sr).
  { replace (1000 * (4096 * fs)) with (4096000 * fs) by ring.
    rewrite (Z.mul_comm fs sr).
    apply Z.div_mul_cancel_r; lia. }
  assert (Hms : 0 <= 4096000 / sr <= 4096000).
  { split; [apply Z.div_pos; lia |].
    apply Z.div_le_upper_bound; nia. }
  assert (Hnum : match A with
                 | LP64 => to_u64 (1000 * (4096 * fs))
                 | ILP32 => 1000 * (4096 * fs)
                 end = 1000 * (4096 * fs)).
  { destruct A; [reflexivity |].
    unfold to_u64. apply wrap_u_small. lia. }
  rewrite Hnum, Hq.
  rewrite (to_int_small (4096000 / sr)) by (unfold INT_MAX; lia).
  rewrite (to_int_small (4096000 / sr * 2)) by (unfold INT_MAX; lia).
  rewrite (Z.mul_comm (4096000 / sr) 2).
  eexists. split; [reflexivity |]. simpl. repeat split.
Qed.

End InputPathsMore.

Lemma get_next_buffer_keeps_left_channel_witness :
  exists sin' buf',
    get_next_buffer LP64 (env_ok 4 0) in_mono_on_stereo
      (mk_resampler_buffer None 4) []
    = Some (0, sin', buf', [EvPcmRead (Some 7) 8])
    /\ frames_in (resampler sin') = 4.
Proof.
  destruct (get_next_buffer_keeps_left_channel LP64 (env_ok 4 0)
              in_mono_on_stereo 7 (mk_resampler_buffer None 4) []
              (repeat 1 8%nat) eq_refl eq_refl eq_refl eq_refl
              ltac:(cbn; unfold INT_MAX; lia) eq_refl
              ltac:(cbn; lia))
    as (sin' & buf' & data' & Hrun & _ & _ & Hframes & _).
  exists sin', buf'. split; [exact Hrun | exact Hframes].
Defined.

Lemma do_in_pcm_read_all_or_error_witness :
  exists sin' buffer' w',
    do_in_pcm_read LP64 (env_ok 4 0) 4 adev_idle in_bridged
      (repeat 7 8%nat) 8 []
    = Some (8, sin', buffer', w').
Proof.
  destruct (do_in_pcm_read LP64 (env_ok 4 0) 4 adev_idle in_bridged
              (repeat 7 8%nat) 8 [])
    as [[[[r sin'] buffer'] w'] |] eqn:Hrun;
    [| vm_compute in Hrun; discriminate Hrun].
  destruct (do_in_pcm_read_all_or_error LP64 (env_ok 4 0) 4 adev_idle
              in_bridged (repeat 7 8%nat) 8 [] r sin' buffer' w' Hrun)
    as (Hon & _).
  destruct (Hon eq_refl) as [-> | Hneg].
  - do 3 eexists. reflexivity.
  - exfalso. vm_compute in Hrun. injection Hrun as <- _ _ _.
    vm_compute in Hneg. discriminate Hneg.
Defined.

Lemma start_compress_pcm_input_stream_failed_open_witness :
  exists ms,
    start_compress_pcm_input_stream LP64 env_no_compress
      in_routed_compressed []
    = Some (0,
            set_i_common in_routed_compressed
              (set_i_standby (i_common in_routed_compressed) false),
            [EvCompressSetMaxPollWait None ms; EvCompressClose None;
             EvCompressOpen 0 1]).
Proof.
  destruct (start_compress_pcm_input_stream_failed_open LP64 env_no_compress
              in_routed_compressed hw_compressed [] eq_refl eq_refl
              (or_introl eq_refl) ltac:(cbn; unfold ENODEV; lia)
              ltac:(vm_compute; discriminate))
    as (ms & sin' & w' & Hrun & -> & -> & _).
  exists ms. exact Hrun.
Defined.

Lemma start_compress_pcm_input_stream_poll_wait_witness :
  exists sin',
    start_compress_pcm_input_stream LP64 (env_ok 4 0) in_routed_compressed []
    = Some (0, sin',
            [EvCompressSetMaxPollWait (Some 9) 512; EvCompressStart (Some 9);
             EvCompressOpen 0 1])
    /\ i_buffer_size (i_common sin') = 8192.
Proof.
  destruct (start_compress_pcm_input_stream_poll_wait LP64 (env_ok 4 0)
              in_routed_compressed hw_compressed [] 9 eq_refl eq_refl
              eq_refl eq_refl ltac:(cbn; lia) ltac:(cbn; lia)
              ltac:(cbn; lia) ltac:(cbn; lia))
    as (sin' & Hrun & _ & _ & Hsize).
  exists sin'. split; [exact Hrun | exact Hsize].
Defined.

(** ** Parameter strings *)

Lemma string_length_append (a b : string) :
  String.length (a ++ b)%string = (String.length a + String.length b)%nat.
Proof. induction a as [| c a IH]; simpl; [reflexivity | rewrite IH; reflexivity]. Qed.

Lemma string_append_assoc (a b c : string) :
  ((a ++ b) ++ c)%string = (a ++ (b ++ c))%string.
Proof. induction a as [| x a IH]; simpl; [reflexivity | rewrite IH; reflexivity]. Qed.

Lemma string_append_empty (a : string) : (a ++ "")%string = a.
Proof. induction a as [| x a IH]; simpl; [reflexivity | rewrite IH; reflexivity]. Qed.

Lemma segments_nonempty s : segments s <> [].
Proof.
  destruct s as [| c s]; simpl; [discriminate |].
  destruct (is_delim c); [discriminate |].
  destruct (segments s); discriminate.
Qed.

Lemma strspn_delim_length s :
  (String.length (strspn_delim s) <= String.length s)%nat.
Proof.
  induction s as [| c s IH]; simpl; [lia |].
  destruct (is_delim c); simpl; lia.
Qed.

Lemma strspn_delim_head s c s' :
  strspn_delim s = String c s' -> is_delim c = false.
Proof.
  induction s as [| x s IH]; simpl; [discriminate |].
  destruct (is_delim x) eqn:Hx; [exact IH |].
  intros H. injection H as <- _. exact Hx.
Qed.

Lemma tokens_strspn_delim s : tokens (strspn_delim s) = tokens s.
Proof.
  induction s as [| c s IH]; simpl; [reflexivity |].
  destruct (is_delim c) eqn:Hc; [| reflexivity].
  rewrite IH. unfold tokens. simpl. rewrite Hc. reflexivity.
Qed.

Lemma segments_strcspn_delim s :
  exists tail,
    segments s = fst (strcspn_delim s) :: tail
    /\ filter (fun t => negb (String.eqb t "")) tail
       = tokens (snd (strcspn_delim s)).
Proof.
  induction s as [| c s (tail & Hseg & Htail)]; simpl.
  - exists []. split; reflexivity.
  - destruct (is_delim c) eqn:Hc.
    + exists (segments s). split; reflexivity.
    + rewrite Hseg. destruct (strcspn_delim s) as [token rest].
      exists tail. split; [reflexivity | exact Htail].
Qed.

Lemma strcspn_delim_length s :
  (String.length (fst (strcspn_delim s))
   + String.length (snd (strcspn_delim s)) <= String.length s)%nat.
Proof.
  induction s as [| c s IH]; simpl; [lia |].
  destruct (is_delim c); simpl; [lia |].
  destruct (strcspn_delim s) as [token rest]. simpl in *. lia.
Qed.

(** [strtok_r] walks the non-empty pieces of the string, one per call. *)
Lemma strtok_r_tokens temp :
  match strtok_r temp with
  | None => tokens temp = []
  | Some (p, temp') =>
      tokens temp = p :: tokens temp'
      /\ (String.length temp' < String.length temp)%nat
  end.
Proof.
  unfold strtok_r.
  pose proof (tokens_strspn_delim temp) as Htok.
  pose proof (strspn_delim_length temp) as Hlen.
  destruct (strspn_delim temp) as [| c s'] eqn:Hskip.
  - rewrite <- Htok. reflexivity.
  - pose proof (strspn_delim_head temp c s' Hskip) as Hc.
    destruct (segments_strcspn_delim (String c s')) as (tail & Hseg & Htail).
    pose proof (strcspn_delim_length (String c s')) as Hsplit.
    destruct (strcspn_delim (String c s')) as [p temp'] eqn:Hcut.
    cbn [fst snd] in Hseg, Htail, Hsplit.
    assert (Hp : exists p', p = String c p').
    { simpl in Hcut. rewrite Hc in Hcut.
      destruct (strcspn_delim s') as [token rest].
      injection Hcut as <- _. eauto. }
    destruct Hp as (p' & ->).
    split.
    + rewrite <- Htok. unfold tokens. rewrite Hseg. simpl.
      rewrite Htail. reflexivity.
    + simpl in Hsplit, Hlen. lia.
Qed.

Lemma use_case_pairs_tokens s :
  use_case_pairs s = flat_map setting_of (tokens s).
Proof.
  unfold use_case_pairs, tokens.
  induction (segments s) as [| seg l IH]; simpl; [reflexivity |].
  destruct seg as [| c seg]; simpl; [exact IH |].
  rewrite IH. reflexivity.
Qed.

Section ParameterStringFacts.

Variable apply_use_case : use_case_log -> hw_stream -> string -> string -> Z.

Lemma stream_invoke_usecases_loop_pairs stream :
  forall fuel temp ret_ log,
    (String.length temp <= fuel)%nat ->
    stream_invoke_usecases_loop apply_use_case fuel stream temp ret_ log
    = Some (invoke_pairs apply_use_case stream
              (flat_map setting_of (tokens temp)) ret_ log).
Proof.
  induction fuel as [| fuel IH]; intros temp ret_ log Hfuel;
    pose proof (strtok_r_tokens temp) as Htok; simpl;
    destruct (strtok_r temp) as [[p temp'] |];
    try (rewrite Htok; reflexivity).
  - destruct Htok as (_ & Hlt). lia.
  - destruct Htok as (-> & Hlt). simpl. unfold setting_of at 1.
    destruct (strchr_eq p) as [[setting [| c value]] |]; simpl;
      apply IH; lia.
Qed.

Lemma invoke_pairs_log stream :
  forall pairs ret_ log,
    snd (invoke_pairs apply_use_case stream pairs ret_ log)
    = rev (map (call_of stream) pairs) ++ log.
Proof.
  induction pairs as [| kv more IH]; intros ret_ log; simpl;
    [reflexivity |].
  rewrite IH. rewrite <- app_assoc. reflexivity.
Qed.

Lemma invoke_pairs_status stream :
  forall pairs ret_ log,
    fst (invoke_pairs apply_use_case stream pairs ret_ log) = 0
    <-> ret_ = 0
        \/ answered_ok apply_use_case log
             (rev (map (call_of stream) pairs) ++ log).
Proof.
  induction pairs as [| kv more IH]; intros ret_ log; simpl.
  - split; [auto |]. intros [H | (later & c & earlier & Heq & _)];
      [exact H |].
    exfalso. apply (f_equal (@length use_case_call)) in Heq.
    rewrite !length_app in Heq. simpl in Heq. rewrite length_app in Heq. lia.
  - rewrite IH. rewrite <- app_assoc. simpl.
    set (final := rev (map (call_of stream) more) ++ call_of stream kv :: log).
    split.
    + intros [Hret | (later & c & earlier & Heq & Hok)].
      * destruct (0 <=? apply_use_case log stream (fst kv) (snd kv)) eqn:Hr;
          [| left; exact Hret].
        right. exists (rev (map (call_of stream) more)), (call_of stream kv), [].
        split; [reflexivity |]. simpl. apply Z.leb_le. exact Hr.
      * right. exists later, c, (earlier ++ [call_of stream kv]).
        rewrite <- !app_assoc. simpl. split; assumption.
    + intros [Hret | (later & c & earlier & Heq & Hok)].
      * left. rewrite Hret. destruct (0 <=? _); reflexivity.
      * destruct (rev earlier) as [| x rearlier] eqn:Hrev.
        -- apply (f_equal (@rev use_case_call)) in Hrev.
           rewrite rev_involutive in Hrev. simpl in Hrev. subst earlier.
           simpl in Heq, Hok.
           assert (Hc : c = call_of stream kv).
           { unfold final in Heq.
             change (call_of stream kv :: log)
               with ([call_of stream kv] ++ log) in Heq.
             change (c :: log) with ([c] ++ log) in Heq.
             rewrite !app_assoc in Heq. apply app_inv_tail in Heq.
             apply app_inj_tail in Heq. destruct Heq as (_ & Heq).
             congruence. }
           subst c. simpl in Hok. left.
           apply Z.leb_le in Hok. rewrite Hok. reflexivity.
        -- apply (f_equal (@rev use_case_call)) in Hrev.
           rewrite rev_involutive in Hrev. simpl in Hrev. subst earlier.
           rewrite <- app_assoc in Heq, Hok. simpl in Heq, Hok.
           assert (Hx : x = call_of stream kv).
           { unfold final in Heq.
             change (call_of stream kv :: log)
               with ([call_of stream kv] ++ log) in Heq.
             change (c :: rev rearlier ++ x :: log)
               with ((c :: rev rearlier) ++ [x] ++ log) in Heq.
             rewrite !app_assoc in Heq. apply app_inv_tail in Heq.
             apply app_inj_tail in Heq. destruct Heq as (_ & Heq).
             congruence. }
           subst x. right. exists later, c, (rev rearlier).
           split; assumption.
Qed.

End ParameterStringFacts.

Lemma is_delim_true c : is_delim c = true -> c = ";"%char.
Proof. unfold is_delim. apply Ascii.eqb_eq. Qed.

Lemma segments_concat s : String.concat ";" (segments s) = s.
Proof.
  induction s as [| c s IH]; simpl; [reflexivity |].
  pose proof (segments_nonempty s) as Hne.
  destruct (is_delim c) eqn:Hc.
  - apply is_delim_true in Hc. subst c.
    destruct (segments s) as [| seg more]; [contradiction |].
    rewrite <- IH. reflexivity.
  - destruct (segments s) as [| seg more]; [contradiction |].
    rewrite <- IH. destruct more as [| seg' more]; reflexivity.
Qed.

Lemma strchr_eq_spec p k v :
  strchr_eq p = Some (k, v)
  <-> strchr_eq k = None /\ p = (k ++ "=" ++ v)%string.
Proof.
  revert k. induction p as [| c p IH]; intros k; simpl.
  - split; [discriminate |]. intros (_ & H).
    destruct k; discriminate H.
  - destruct (Ascii.eqb c "=") eqn:Hc.
    + apply Ascii.eqb_eq in Hc. subst c. split.
      * intros H. injection H as <- <-. split; reflexivity.
      * intros (Hk & H). destruct k as [| x k]; simpl in H.
        -- injection H as <-. reflexivity.
        -- injection H as <- _. simpl in Hk. discriminate Hk.
    + split.
      * destruct (strchr_eq p) as [[before after] |] eqn:Hp;
          [| discriminate].
        intros H. injection H as <- <-.
        destruct (proj1 (IH before) eq_refl) as (Hk & ->).
        simpl. rewrite Hc, Hk. split; reflexivity.
      * intros (Hk & H). destruct k as [| x k]; simpl in H.
        -- injection H as -> _. discriminate Hc.
        -- injection H as <- ->. simpl in Hk. rewrite Hc in Hk.
           destruct (strchr_eq k) as [[b a] |] eqn:Hk'; [discriminate Hk |].
           assert (Hp : strchr_eq (k ++ "=" ++ v)%string = Some (k, v))
             by (apply IH; split; [exact Hk' | reflexivity]).
           simpl in Hp. rewrite Hp. reflexivity.
Qed.

Lemma use_case_pairs_spec s k v :
  In (k, v) (use_case_pairs s)
  <-> v <> ""
      /\ strchr_eq k = None
      /\ In (k ++ "=" ++ v)%string (segments s).
Proof.
  unfold use_case_pairs. rewrite in_flat_map. split.
  - intros (seg & Hseg & Hin). unfold setting_of in Hin.
    destruct (strchr_eq seg) as [[setting [| c value]] |] eqn:Hp;
      simpl in Hin; try contradiction.
    destruct Hin as [Heq | []]. injection Heq as <- <-.
    apply strchr_eq_spec in Hp. destruct Hp as (Hk & ->).
    repeat split; [discriminate | exact Hk | exact Hseg].
  - intros (Hv & Hk & Hin). exists (k ++ "=" ++ v)%string.
    split; [exact Hin |]. unfold setting_of.
    assert (Hp : strchr_eq (k ++ "=" ++ v)%string = Some (k, v))
      by (apply strchr_eq_spec; split; [exact Hk | reflexivity]).
    rewrite Hp. destruct v as [| c v]; [contradiction |].
    left. reflexivity.
Qed.

Section ParameterStringsMore.

Variable apply_use_case : use_case_log -> hw_stream -> string -> string -> Z.

Lemma invoke_pairs_range stream :
  forall pairs ret_ log,
    fst (invoke_pairs apply_use_case stream pairs ret_ log) = 0
    \/ fst (invoke_pairs apply_use_case stream pairs ret_ log) = ret_.
Proof.
  induction pairs as [| kv more IH]; intros ret_ log; simpl; [auto |].
  destruct (IH (if 0 <=? apply_use_case log stream (fst kv) (snd kv)
                then 0 else ret_) (call_of stream kv :: log)) as [H | H];
    [left; exact H |].
  rewrite H. destruct (0 <=? _); auto.
Qed.

(** X22. [stream_invoke_usecases] cuts the parameter string at every
    [';'] and, to a stream that is not NULL, applies one use case for each
    piece of the form [setting=case] with a non-empty case, in the order
    of the string; the setting is what precedes the first ['='] of the
    piece (it may be empty), the case is all that follows it.  Pieces
    without ['='], or with nothing after it, are skipped.  The status is
    0 when at least one of these calls answered a non-negative value and
    [-ENOTSUP] otherwise.  With a NULL stream no call is made and the
    status is [-ENOTSUP]; when the copy of the string cannot be
    allocated, [-ENOMEM]. *)
Theorem stream_invoke_usecases_calls :
  forall (kvpairs : string) (log : use_case_log),
    stream_invoke_usecases apply_use_case false None kvpairs log
    = Some (- ENOMEM, log)
    /\ stream_invoke_usecases apply_use_case true None kvpairs log
       = Some (- ENOTSUP, log)
    /\ (forall h : hw_stream,
          stream_invoke_usecases apply_use_case false (Some h) kvpairs log
          = Some (- ENOMEM, log)
          /\ exists ret_ log',
               stream_invoke_usecases apply_use_case true (Some h) kvpairs log
               = Some (ret_, log')
               /\ log' = rev (map (call_of h) (use_case_pairs kvpairs)) ++ log
               /\ (ret_ = 0 \/ ret_ = - ENOTSUP)
               /\ (ret_ = 0 <-> answered_ok apply_use_case log log'))
    /\ String.concat ";" (segments kvpairs) = kvpairs
    /\ (forall setting value : string,
          In (setting, value) (use_case_pairs kvpairs)
          <-> value <> ""
              /\ strchr_eq setting = None
              /\ In (setting ++ "=" ++ value)%string (segments kvpairs)).
Proof.
  intros kvpairs log.
  split; [reflexivity |]. split; [reflexivity |].
  split; [| split; [apply segments_concat | apply use_case_pairs_spec]].
  intros h. split; [reflexivity |].
  unfold stream_invoke_usecases. change (negb true) with false.
  cbv beta iota.
  rewrite stream_invoke_usecases_loop_pairs by lia.
  rewrite <- use_case_pairs_tokens.
  destruct (invoke_pairs apply_use_case h (use_case_pairs kvpairs)
              (- ENOTSUP) log) as [ret_ log'] eqn:Hrun.
  pose proof (invoke_pairs_log apply_use_case h (use_case_pairs kvpairs)
                (- ENOTSUP) log) as Hlog.
  pose proof (invoke_pairs_status apply_use_case h (use_case_pairs kvpairs)
                (- ENOTSUP) log) as Hstatus.
  pose proof (invoke_pairs_range h (use_case_pairs kvpairs)
                (- ENOTSUP) log) as Hrange.
  rewrite Hrun in Hlog, Hstatus, Hrange.
  cbn [fst snd] in Hlog, Hstatus, Hrange.
  exists ret_, log'. split; [reflexivity |]. split; [exact Hlog |].
  split; [exact Hrange |].
  rewrite Hstatus, <- Hlog. split.
  - intros [H | H]; [discriminate H | exact H].
  - intros H. right. exact H.
Qed.

End ParameterStringsMore.

Lemma format_entry_short format :
  substring 0 256 (format_entry format) = format_entry format
  /\ (String.length (format_entry format) <= 31)%nat.
Proof.
  unfold format_entry.
  repeat (destruct (format =? _); [split; [reflexivity | simpl; lia] |]).
  split; [reflexivity | simpl; lia].
Qed.

Lemma count_occ_tokens s key :
  key <> "" ->
  count_occ string_dec (tokens s) key = count_occ string_dec (segments s) key.
Proof.
  intros Hkey. unfold tokens.
  induction (segments s) as [| seg l IH]; [reflexivity |].
  destruct seg as [| c seg]; cbn [filter String.eqb negb].
  - rewrite (count_occ_cons_neq string_dec l) by congruence. exact IH.
  - destruct (string_dec (String c seg) key) as [Heq | Hne].
    + rewrite !(count_occ_cons_eq string_dec _ Heq). rewrite IH. reflexivity.
    + rewrite !(count_occ_cons_neq string_dec _ Hne). exact IH.
Qed.

Lemma get_parameters_loop_entries format :
  let entry :=
    (AUDIO_PARAMETER_STREAM_SUP_FORMATS ++ format_entry format)%string in
  forall fuel saveptr1 outputBuffer,
    (String.length saveptr1 <= fuel)%nat ->
    (String.length outputBuffer < 256)%nat ->
    get_parameters_loop fuel format saveptr1 outputBuffer
    = (let n := count_occ string_dec (tokens saveptr1)
                  AUDIO_PARAMETER_STREAM_SUP_FORMATS in
       if Z.of_nat (String.length outputBuffer + n * String.length entry)
          <? 256
       then Some (outputBuffer ++ string_repeat n entry)%string
       else None).
Proof.
  intros entry. cbv zeta.
  destruct (format_entry_short format) as (Hsub & Hshort).
  assert (Hentry : String.length entry
                   = (11 + String.length (format_entry format))%nat).
  { unfold entry. rewrite string_length_append. reflexivity. }
  remember (String.length entry) as L eqn:HL. clear HL.
  induction fuel as [| fuel IH]; intros saveptr1 outputBuffer Hfuel Hroom;
    pose proof (strtok_r_tokens saveptr1) as Htok;
    cbn [get_parameters_loop];
    destruct (strtok_r saveptr1) as [[currentKey temp] |].
  - destruct Htok as (_ & Hlt). lia.
  - rewrite Htok. cbn [count_occ string_repeat Nat.mul].
    rewrite Nat.add_0_r, string_append_empty.
    destruct (Z.of_nat (String.length outputBuffer) <? 256) eqn:Hfit;
      [reflexivity | eqb_props; lia].
  - destruct Htok as (-> & Hlt).
    destruct (String.eqb currentKey AUDIO_PARAMETER_STREAM_SUP_FORMATS)
      eqn:Hkey.
    + apply String.eqb_eq in Hkey. subst currentKey.
      rewrite (count_occ_cons_eq string_dec _ eq_refl).
      set (n := count_occ string_dec (tokens temp)
                  AUDIO_PARAMETER_STREAM_SUP_FORMATS).
      unfold strncat_256 at 1.
      change (substring 0 256 AUDIO_PARAMETER_STREAM_SUP_FORMATS)
        with AUDIO_PARAMETER_STREAM_SUP_FORMATS.
      change (String.length AUDIO_PARAMETER_STREAM_SUP_FORMATS) with 11%nat.
      destruct (Z.of_nat (String.length outputBuffer + 11) <? 256) eqn:H1.
      * unfold strncat_256. rewrite Hsub, string_length_append.
        change (String.length AUDIO_PARAMETER_STREAM_SUP_FORMATS)
          with 11%nat.
        destruct (Z.of_nat (String.length outputBuffer + 11
                            + String.length (format_entry format))
                  <? 256) eqn:H2.
        -- eqb_props.
           rewrite IH
             by (rewrite ?string_length_append;
                 change (String.length AUDIO_PARAMETER_STREAM_SUP_FORMATS)
                   with 11%nat; lia).
           fold n.
           rewrite !string_length_append.
           change (String.length AUDIO_PARAMETER_STREAM_SUP_FORMATS)
             with 11%nat.
           replace (String.length outputBuffer + 11
                    + String.length (format_entry format) + n * L)%nat
             with (String.length outputBuffer + S n * L)%nat by lia.
           destruct (Z.of_nat (String.length outputBuffer + S n * L)
                     <? 256); [| reflexivity].
           cbn [string_repeat]. unfold entry.
           rewrite !string_append_assoc. reflexivity.
        -- destruct (Z.of_nat (String.length outputBuffer + S n * L)
                     <? 256) eqn:H3; [| reflexivity].
           eqb_props. exfalso. lia.
      * destruct (Z.of_nat (String.length outputBuffer + S n * L)
                  <? 256) eqn:H3; [| reflexivity].
        eqb_props. exfalso. lia.
    + apply String.eqb_neq in Hkey.
      rewrite (count_occ_cons_neq string_dec _ Hkey).
      apply IH; lia.
  - rewrite Htok. cbn [count_occ string_repeat Nat.mul].
    rewrite Nat.add_0_r, string_append_empty.
    destruct (Z.of_nat (String.length outputBuffer) <? 256) eqn:Hfit;
      [reflexivity | eqb_props; lia].
Qed.

Lemma format_entry_long format :
  (21 <= String.length (format_entry format))%nat.
Proof.
  unfold format_entry.
  repeat (destruct (format =? _); [simpl; lia |]). simpl; lia.
Qed.

(** X23. [out_get_parameters] and [in_get_parameters] answer each piece
    of the [';']-separated key list that is exactly [sup_formats] with
    [sup_formats=<name of the stream's format>], appended to the previous
    answers with nothing in between; every other key is ignored.  The
    answers are built in an array of 256 characters: with [n] such keys
    the result is defined only while [n] answers and the final NUL fit --
    always for up to 6 keys, never from 8 keys on.  The copy of the keys
    is used unchecked; the copy of the result is returned as it is, NULL
    included. *)
Theorem get_parameters_entries :
  forall (keys : string) (result_ok : bool),
    let n :=
      count_occ string_dec (segments keys)
        AUDIO_PARAMETER_STREAM_SUP_FORMATS in
    let entry := fun format : Z =>
      (AUDIO_PARAMETER_STREAM_SUP_FORMATS ++ format_entry format)%string in
    let answer := fun format : Z =>
      if Z.of_nat (n * String.length (entry format)) <? 256
      then Some (if result_ok
                 then Some (string_repeat n (entry format)) else None)
      else None in
    (forall out : stream_out_common,
       out_get_parameters true result_ok out keys = answer (o_format out)
       /\ out_get_parameters false result_ok out keys = None)
    /\ (forall c : stream_in_common,
          in_get_parameters true result_ok c keys = answer (i_format c)
          /\ in_get_parameters false result_ok c keys = None)
    /\ ((n <= 6)%nat -> forall format, answer format <> None)
    /\ ((8 <= n)%nat -> forall format, answer format = None).
Proof.
  intros keys result_ok n entry answer.
  assert (Hrun : forall format,
             get_parameters true result_ok format keys = answer format).
  { intros format.
    unfold get_parameters. change (negb true) with false. cbv beta iota.
    rewrite (get_parameters_loop_entries format) by (simpl; lia).
    cbv zeta.
    rewrite count_occ_tokens by discriminate.
    fold n. change (String.length "") with 0%nat.
    rewrite Nat.add_0_l. subst answer entry. cbv beta.
    destruct (Z.of_nat (n * String.length _) <? 256); reflexivity. }
  assert (Hlen : forall format,
             (32 <= String.length (entry format) <= 42)%nat).
  { intros format. unfold entry. rewrite string_length_append.
    change (String.length AUDIO_PARAMETER_STREAM_SUP_FORMATS) with 11%nat.
    pose proof (format_entry_long format).
    pose proof (proj2 (format_entry_short format)). lia. }
  split; [| split; [| split]].
  - intros out. split; [apply Hrun | reflexivity].
  - intros c. split; [apply Hrun | reflexivity].
  - intros Hn format. specialize (Hlen format). subst answer. cbv beta.
    destruct (Z.of_nat (n * String.length (entry format)) <? 256) eqn:Hfit;
      [discriminate |].
    eqb_props. exfalso. nia.
  - intros Hn format. specialize (Hlen format). subst answer. cbv beta.
    destruct (Z.of_nat (n * String.length (entry format)) <? 256) eqn:Hfit;
      [| reflexivity].
    eqb_props. exfalso. nia.
Qed.

(** ** Stream and device entry points *)

Lemma voice_trigger_audio_ended_locked_extends adev w :
  exists adev' later,
    voice_trigger_audio_ended_locked adev w = Some (adev', later ++ w).
Proof.
  unfold voice_trigger_audio_ended_locked, do_voice_trigger_close_stream,
    bind, call, ret.
  destruct (voice_st adev); simpl; try (exists adev, []; reflexivity);
    try (eexists; exists []; reflexivity).
  destruct (voice_trig_stream adev) as [h |]; simpl.
  - eexists. exists [EvReleaseStream h; EvApplyRoute h 0]. reflexivity.
  - eexists. exists []. reflexivity.
Qed.

Section EntryPointFacts.

Variable A : abi.
Variable E : Env.
Variable AUDIO_DEVICE_OUT_ALL : Z.
Variable AUDIO_DEVICE_IN_ALL : Z.
Variable audio_stream_out_frame_size : Z -> Z -> Z.
Variable audio_stream_in_frame_size : Z -> Z -> Z.
Variable sizeof_stream_out_pcm : Z.
Variable sizeof_stream_in_pcm : Z.
Variable stream_is_compressed : hw_stream -> bool.
Variable get_routed_devices : trace -> hw_stream -> Z.
Variable is_named_stream_defined : string -> bool.
Variable apply_use_case : use_case_log -> hw_stream -> string -> string -> Z.

Lemma stream_invoke_usecases_returns stream kvpairs log :
  exists ret_,
    stream_invoke_usecases apply_use_case true stream kvpairs log
    = Some (ret_,
            match stream with
            | Some h => rev (map (call_of h) (use_case_pairs kvpairs)) ++ log
            | None => log
            end).
Proof.
  unfold stream_invoke_usecases. change (negb true) with false.
  cbv beta iota. destruct stream as [h |]; [| eauto].
  rewrite stream_invoke_usecases_loop_pairs by lia.
  rewrite <- use_case_pairs_tokens.
  pose proof (invoke_pairs_log apply_use_case h (use_case_pairs kvpairs)
                (- ENOTSUP) log) as Hlog.
  destruct (invoke_pairs apply_use_case h (use_case_pairs kvpairs)
              (- ENOTSUP) log) as [ret_ log'].
  simpl in Hlog. subst log'. eauto.
Qed.

(** X24. Closing an active input stream on a compressed route stops and
    closes its compressed transport twice: once in
    [do_in_compress_pcm_close], which leaves the handle in the stream, and
    once more in the standby that [do_close_in_common] runs -- the second
    time on a handle that is already closed. *)
Theorem do_close_in_pcm_closes_twice :
  forall (adev : audio_device) (p : ptr) (sin : stream_in_pcm)
         (hw : hw_stream) (c : Z) (w : trace),
    i_hw (i_common sin) = Some hw ->
    stream_is_compressed hw = true ->
    stream_is_compressed_in E hw = true ->
    i_standby (i_common sin) = false ->
    i_pcm sin = Some c ->
    exists adev' later,
      do_close_in_pcm E stream_is_compressed adev p sin w
      = Some (adev',
              later
                ++ [EvCompressClose (Some c); EvCompressStop (Some c);
                    EvCompressClose (Some c); EvCompressStop (Some c)]
                ++ w)
      /\ In (EvReleaseStream hw) later.
Proof.
  intros adev p sin hw c w Hhw Hcomp Hin Hactive Hpcm.
  unfold do_close_in_pcm, do_in_compress_pcm_close, do_close_in_common,
    in_pcm_standby, do_in_compress_pcm_standby, i_compress, bind, call, ret.
  rewrite Hhw, Hcomp, Hpcm, Hin, Hactive. simpl.
  set (w4 := EvCompressClose (Some c) :: EvCompressStop (Some c)
               :: EvCompressClose (Some c) :: EvCompressStop (Some c) :: w).
  assert (Hended :
            forall adev0,
            exists adev' later,
              match voice_trigger_audio_ended_locked adev0 w4 with
              | Some (a, w') =>
                  match
                    match i_hw (i_common sin) with
                    | Some h => Some (tt, EvReleaseStream h :: w')
                    | None => Some (tt, w')
                    end
                  with
                  | Some (_, w'') => Some (a, EvFree :: w'')
                  | None => None
                  end
              | None => None
              end = Some (adev', later ++ w4)
              /\ In (EvReleaseStream hw) later).
  { intros adev0.
    destruct (voice_trigger_audio_ended_locked_extends adev0 w4)
      as (adev' & later & ->).
    rewrite Hhw. exists adev', (EvFree :: EvReleaseStream hw :: later).
    split; [reflexivity | right; left; reflexivity]. }
  destruct (active_voice_control adev) as [q |]; simpl.
  - destruct (q =? p); simpl.
    + destruct (Hended (set_active_voice_control adev None))
        as (adev' & later & Hrun & Hin').
      exists adev', later. split; [| exact Hin'].
      rewrite <- Hrun. rewrite Hhw. reflexivity.
    + rewrite Hhw. exists adev, [EvFree; EvReleaseStream hw].
      split; [reflexivity | right; left; reflexivity].
  - rewrite Hhw. exists adev, [EvFree; EvReleaseStream hw].
    split; [reflexivity | right; left; reflexivity].
Qed.


(** X26. The devices saved when the stream was opened are not used when
    the input source arrives.  On a stream in standby that has no route
    yet, a parameter string with an input source (not voice recognition)
    and no routing asks the configuration manager for a stream for no
    device at all, records 0 as the stream's devices whatever was saved,
    applies the route 0 to the stream it got, and then applies the use
    cases of the string to it. *)
Theorem in_pcm_set_parameters_first_source :
  forall (adev : audio_device) (p : ptr) (sin : stream_in_pcm)
         (value : Z) (kvpairs : string) (log : use_case_log) (w : trace)
         (h : hw_stream),
    let config :=
      mk_audio_config (i_sample_rate (i_common sin))
        (i_channel_mask (i_common sin)) (i_format (i_common sin)) in
    i_hw (i_common sin) = None ->
    i_standby (i_common sin) = true ->
    input_source (i_common sin) <> value ->
    value <> AUDIO_SOURCE_VOICE_RECOGNITION ->
    active_voice_control adev = None ->
    get_stream E w 0 0 config = Some h ->
    exists sin',
      in_pcm_set_parameters E get_routed_devices apply_use_case adev p sin
        None (Some value) kvpairs true log w
      = Some (0, sin', adev,
              rev (map (call_of h) (use_case_pairs kvpairs)) ++ log,
              EvApplyRoute h 0 :: EvGetStream 0 0 config :: w)
      /\ i_hw (i_common sin') = Some h
      /\ i_devices (i_common sin') = 0
      /\ input_source (i_common sin') = value
      /\ i_standby (i_common sin') = true.
Proof.
  intros adev p sin value kvpairs log w h config Hhw Hstandby Hsource Hvoice
    Hcontrol Hstream.
  subst config.
  apply Z.eqb_neq in Hsource. apply Z.eqb_neq in Hvoice.
  unfold in_pcm_set_parameters, change_input_source_locked,
    bind, call, ask, ret.
  rewrite Hhw. cbv beta iota. rewrite Hstandby.
  change (negb true) with false. cbv beta iota.
  rewrite Hsource, Hvoice. cbv beta iota.
  rewrite Hstream. cbv beta iota. rewrite Hcontrol. cbv beta iota.
  change (0 <? 0) with false. cbv beta iota.
  cbn [i_common i_hw set_i_common set_i_hw set_input_source set_i_devices].
  destruct (stream_invoke_usecases_returns (Some h) kvpairs log)
    as (ret_ & ->).
  eexists. split; [reflexivity |]. repeat split. exact Hstandby.
Qed.

(** X27. A parameter string without an input source.  With a routing the
    stream's devices become that routing, and the route is applied when
    the stream has one; without a routing the stream is left as it is
    and no call is made.  Either way 0 is returned, the device is
    untouched, and the use cases of the string are applied to the
    stream's route -- none when it has no route. *)
Theorem in_pcm_set_parameters_routing :
  forall (adev : audio_device) (p : ptr) (sin : stream_in_pcm)
         (routing : option Z) (kvpairs : string) (log : use_case_log)
         (w : trace),
    in_pcm_set_parameters E get_routed_devices apply_use_case adev p sin
      routing None kvpairs true log w
    = Some (0,
            match routing with
            | Some v => set_i_common sin (set_i_devices (i_common sin) v)
            | None => sin
            end,
            adev,
            match i_hw (i_common sin) with
            | Some h => rev (map (call_of h) (use_case_pairs kvpairs)) ++ log
            | None => log
            end,
            match routing, i_hw (i_common sin) with
            | Some v, Some h => EvApplyRoute h v :: w
            | _, _ => w
            end).
Proof.
  intros adev p sin routing kvpairs log w.
  unfold in_pcm_set_parameters, bind, call, ret.
  destruct routing as [v |]; cbv beta iota;
    cbn [i_common i_hw set_i_common set_i_devices];
    destruct (i_hw (i_common sin)) as [h |] eqn:Hhw; cbv beta iota;
    cbn [i_common i_hw set_i_common set_i_devices];
    rewrite ?Hhw;
    match goal with
    | |- context [stream_invoke_usecases _ _ ?s _ _] =>
        destruct (stream_invoke_usecases_returns s kvpairs log)
          as (ret_ & ->)
    end; reflexivity.
Qed.

(** X28. [adev_open_output_stream] never changes the caller's
    configuration: the three fields it writes back are the ones it has
    just copied from it.  When no stream serves the devices it returns
    [-EINVAL]; when the stream object cannot be allocated it returns
    [-ENOMEM] and the hardware stream it had obtained is not handed back;
    in both cases the caller's stream pointer is not written.  Otherwise
    it returns 0 with a stream in standby that has no transport and zero
    frame counters, after applying the masked devices as its route; and
    closing that stream at once hands the hardware stream back and frees
    the object without touching any transport. *)
Theorem adev_open_output_stream_outcome :
  forall (adev : audio_device) (devices flags : Z) (config : audio_config)
         (stream_out : option stream_out_pcm) (w : trace),
    let d := Z.land devices AUDIO_DEVICE_OUT_ALL in
    let asked := EvGetStream d flags config in
    let allocated := EvMalloc sizeof_stream_out_pcm in
    exists r stream_out' w',
      adev_open_output_stream A E AUDIO_DEVICE_OUT_ALL
        audio_stream_out_frame_size sizeof_stream_out_pcm adev devices flags
        config stream_out w
      = Some (r, config, stream_out', w')
      /\ (get_stream E w d flags config = None ->
          r = - EINVAL /\ stream_out' = stream_out /\ w' = asked :: w)
      /\ (forall h,
            get_stream E w d flags config = Some h ->
            (malloc_ok E (asked :: w) sizeof_stream_out_pcm = false ->
             r = - ENOMEM /\ stream_out' = stream_out
             /\ w' = allocated :: asked :: w)
            /\ (malloc_ok E (asked :: w) sizeof_stream_out_pcm = true ->
                r = 0
                /\ w' = EvApplyRoute h d :: allocated :: asked :: w
                /\ exists out,
                     stream_out' = Some out
                     /\ o_hw (o_common out) = h
                     /\ o_standby (o_common out) = true
                     /\ o_pcm out = None
                     /\ hw_frames_written out = 0
                     /\ hw_frames_rendered out = 0
                     /\ adev_close_output_stream out w'
                        = Some (tt, EvFree :: EvReleaseStream h :: w'))).
Proof.
  intros adev devices flags config stream_out w d asked allocated.
  subst d asked allocated.
  unfold adev_open_output_stream, do_init_out_common, bind, call, ret.
  destruct (get_stream E w _ flags config) as [h |] eqn:Hstream.
  2:{ do 3 eexists. split; [reflexivity |].
      split; [auto | intros h Hh; discriminate Hh]. }
  destruct (malloc_ok E _ sizeof_stream_out_pcm) eqn:Hmalloc.
  2:{ simpl. do 3 eexists. split; [reflexivity |].
      split; [discriminate |]. intros h0 Hh0. injection Hh0 as <-.
      split; [auto | discriminate]. }
  simpl. destruct config as [sr mask fmt]. simpl.
  do 3 eexists. split; [reflexivity |].
  split; [discriminate |]. intros h0 Hh0. injection Hh0 as <-.
  split; [discriminate |]. intros _.
  split; [reflexivity |]. split; [reflexivity |].
  eexists. split; [reflexivity |].
  repeat split.
Qed.

(** X29. A stream that [adev_open_input_stream] has just created has no
    route: it is in standby with the masked devices saved and the default
    buffer size, and a first read from it returns the whole byte count
    with the buffer zeroed, without any transport call and without
    delay -- the only call made is the reading of the clock. *)
Theorem adev_open_input_stream_then_read :
  forall (fuel : nat) (adev : audio_device) (devices : Z)
         (config : audio_config) (buffer : list Z) (bytes : Z) (w : trace),
    let allocated := EvMalloc sizeof_stream_in_pcm in
    malloc_ok E w sizeof_stream_in_pcm = true ->
    0 <= bytes <= INT_MAX ->
    exists sin now,
      adev_open_input_stream A E AUDIO_DEVICE_IN_ALL
        audio_stream_in_frame_size sizeof_stream_in_pcm adev devices config w
      = Some (0, Some sin, allocated :: w)
      /\ i_hw (i_common sin) = None
      /\ i_standby (i_common sin) = true
      /\ i_devices (i_common sin) = Z.land devices AUDIO_DEVICE_IN_ALL
      /\ i_buffer_size (i_common sin) = IN_COMPRESS_BUFFER_SIZE_DEFAULT
      /\ in_pcm_read A E fuel adev sin buffer bytes (allocated :: w)
         = Some (bytes,
                 set_i_common sin (set_last_read_ns (i_common sin) now),
                 memset0 buffer bytes,
                 EvSystemTime :: allocated :: w)
      /\ now <> 0.
Proof.
  intros fuel adev devices config buffer bytes w allocated Hmalloc Hb.
  subst allocated.
  unfold adev_open_input_stream, do_init_in_common, do_init_in_pcm,
    bind, call, ret.
  rewrite Hmalloc. simpl.
  eexists. eexists. split; [reflexivity |]. simpl.
  repeat split.
  - unfold in_pcm_read, in_pcm_read_dispatch, do_in_realtime_delay,
      do_in_set_read_timestamp, bind, call, ask, ret. simpl.
    rewrite (to_int_small bytes Hb). reflexivity.
  - destruct (systemTime E _ =? 0) eqn:Hz; eqb_props; lia.
Qed.

Lemma voice_trigger_set_params_mode adev mic value w :
  exists adev' w',
    voice_trigger_set_params E adev mic value w = Some (adev', w')
    /\ voice_mode_of (voice_st adev') = voice_mode_of (voice_st adev)
    /\ global_stream adev' = global_stream adev
    /\ (voice_st adev = eVoiceNone -> voice_st adev' = eVoiceNone /\ w' = w).
Proof.
  destruct adev as [da mm avc vs vmic gs vts].
  unfold voice_trigger_set_params, voice_trigger_enable,
    voice_trigger_disable, voice_trigger_triggered,
    do_voice_trigger_open_stream, do_voice_trigger_close_stream,
    bind, call, ret.
  destruct mic; destruct value as [s |]; simpl;
    repeat (break_match; simpl);
    do 2 eexists; (split; [reflexivity |]); simpl;
    repeat split; intros; try discriminate; try congruence.
Qed.

(** X30. The kind of voice hardware that [voice_trigger_init] finds in
    the configuration -- recognition if the "voice recognition" stream is
    defined, else trigger-only if the "voice trigger" stream is, else
    none -- is never left by any sequence of [adev_set_parameters].  Every
    call of the sequence returns; the global stream stays what it was,
    and the calls of [apply_use_case] the sequence makes are exactly the
    use cases of each string, in order, on the global stream -- none when
    there is no global stream.  With no voice stream defined the state
    stays [eVoiceNone] and the sequence opens, routes and releases no
    stream: the trace is unchanged.  A [voice_trigger] value other than
    exactly "0", "1" or "2" changes nothing. *)
Theorem adev_set_parameters_keeps_mode :
  forall (requests : list (option Z * option string * string))
         (adev0 : audio_device) (log : use_case_log) (w : trace),
    let adev := voice_trigger_init is_named_stream_defined adev0 in
    voice_mode_of (voice_st adev)
    = (if is_named_stream_defined kVoiceRecogStreamName
       then modeRecognition
       else if is_named_stream_defined kVoiceTriggerStreamName
       then modeTriggerOnly else modeNone)
    /\ global_stream adev = global_stream adev0
    /\ (exists adev' w',
          adev_set_parameters_each E apply_use_case requests adev log w
          = Some (adev',
                  global_use_cases (global_stream adev0) requests log, w')
          /\ global_stream adev' = global_stream adev0
          /\ voice_mode_of (voice_st adev') = voice_mode_of (voice_st adev)
          /\ (voice_st adev = eVoiceNone ->
              voice_st adev' = eVoiceNone /\ w' = w))
    /\ (forall (s : string) (a : audio_device) (w0 : trace),
          s <> "0" -> s <> "1" -> s <> "2" ->
          voice_trigger_set_params E a None (Some s) w0 = Some (a, w0)).
Proof.
  intros requests adev0 log w adev.
  assert (Hinit : global_stream adev = global_stream adev0).
  { subst adev. unfold voice_trigger_init.
    destruct (is_named_stream_defined kVoiceRecogStreamName);
      [reflexivity |].
    destruct (is_named_stream_defined kVoiceTriggerStreamName); reflexivity. }
  split; [| split; [exact Hinit | split]].
  - subst adev. unfold voice_trigger_init.
    destruct (is_named_stream_defined kVoiceRecogStreamName);
      [reflexivity |].
    destruct (is_named_stream_defined kVoiceTriggerStreamName); reflexivity.
  - rewrite <- Hinit. clear Hinit. clearbody adev. clear adev0.
    revert adev log w.
    induction requests as [| [[mic value] kvpairs] more IH];
      intros adev log w.
    + exists adev, w. simpl. unfold ret. repeat split; auto.
    + simpl. unfold bind, adev_set_parameters, bind, ret.
      destruct (voice_trigger_set_params_mode adev mic value w)
        as (adev1 & w1 & -> & Hmode & Hglobal & Hnone).
      rewrite <- Hglobal.
      destruct (global_stream adev1) as [g |] eqn:Hg.
      * destruct (stream_invoke_usecases_returns (Some g) kvpairs log)
          as (ret_ & ->).
        destruct (IH adev1
                    (rev (map (call_of g) (use_case_pairs kvpairs)) ++ log)
                    w1)
          as (adev' & w' & Hrun & Hglobal' & Hmode' & Hnone').
        rewrite Hg in Hrun, Hglobal'.
        exists adev', w'. split; [exact Hrun |].
        split; [exact Hglobal' |].
        split; [congruence |].
        intros Hst. destruct (Hnone Hst) as (Hst1 & ->).
        apply Hnone'. exact Hst1.
      * destruct (IH adev1 log w1)
          as (adev' & w' & Hrun & Hglobal' & Hmode' & Hnone').
        rewrite Hg in Hrun, Hglobal'.
        exists adev', w'. split; [exact Hrun |].
        split; [exact Hglobal' |].
        split; [congruence |].
        intros Hst. destruct (Hnone Hst) as (Hst1 & ->).
        apply Hnone'. exact Hst1.
  - intros s a w0 H0 H1 H2.
    apply String.eqb_neq in H0. apply String.eqb_neq in H1.
    apply String.eqb_neq in H2.
    unfold voice_trigger_set_params. rewrite H2, H1, H0. reflexivity.
Qed.

End EntryPointFacts.

Lemma do_close_in_pcm_closes_twice_witness :
  exists adev' later,
    do_close_in_pcm (env_ok 4 0) (fun h => hw_addr h =? 200) adev_idle 1
      in_active_compressed []
    = Some (adev',
            later
              ++ [EvCompressClose (Some 9); EvCompressStop (Some 9);
                  EvCompressClose (Some 9); EvCompressStop (Some 9)]).
Proof.
  destruct (do_close_in_pcm_closes_twice (env_ok 4 0)
              (fun h => hw_addr h =? 200) adev_idle 1 in_active_compressed
              hw_compressed 9 [] eq_refl eq_refl eq_refl eq_refl eq_refl)
    as (adev' & later & Hrun & _).
  exists adev', later. rewrite Hrun. reflexivity.
Defined.


Lemma in_pcm_set_parameters_first_source_witness :
  exists sin',
    in_pcm_set_parameters (env_ok 4 0) (fun _ _ => 4) (fun _ _ _ _ => 0)
      adev_idle 1 in_fresh None (Some 1) "input_source=1" true [] []
    = Some (0, sin', adev_idle,
            [mk_use_case_call hw_generic "input_source" "1"],
            [EvApplyRoute hw_generic 0;
             EvGetStream 0 0 (mk_audio_config 16000 16 1)])
    /\ i_devices (i_common in_fresh) = 4
    /\ i_devices (i_common sin') = 0.
Proof.
  destruct (in_pcm_set_parameters_first_source (env_ok 4 0) (fun _ _ => 4)
              (fun _ _ _ _ => 0) adev_idle 1 in_fresh 1 "input_source=1"
              [] [] hw_generic eq_refl eq_refl ltac:(discriminate)
              ltac:(discriminate) eq_refl eq_refl)
    as (sin' & Hrun & _ & Hdevices & _).
  exists sin'. split; [exact Hrun |]. split; [reflexivity | exact Hdevices].
Defined.

Lemma adev_open_input_stream_then_read_witness :
  exists sin now,
    adev_open_input_stream LP64 (env_ok 4 0) 0xFFFFFFFF (fun _ _ => 2) 200
      adev_idle 4 (mk_audio_config 16000 16 1) []
    = Some (0, Some sin, [EvMalloc 200])
    /\ in_pcm_read LP64 (env_ok 4 0) 1 adev_idle sin (repeat 7 8%nat) 8
         [EvMalloc 200]
       = Some (8, set_i_common sin (set_last_read_ns (i_common sin) now),
               memset0 (repeat 7 8%nat) 8, [EvSystemTime; EvMalloc 200]).
Proof.
  destruct (adev_open_input_stream_then_read LP64 (env_ok 4 0) 0xFFFFFFFF
              (fun _ _ => 2) 200 1 adev_idle 4 (mk_audio_config 16000 16 1)
              (repeat 7 8%nat) 8 [] eq_refl ltac:(unfold INT_MAX; lia))
    as (sin & now & Hopen & _ & _ & _ & _ & Hread & _).
  exists sin, now. split; [exact Hopen | exact Hread].
Defined.
